(** * LSL stream simulator and XDF recording tester

    A shallow embedding of [streamer.py] (the multi-rate broadcaster) and
    [tester.py] (the recording verifier), with the properties the
    specification states about them.

    Numbers.  The tester only compares and divides values it read from the
    recording, so its floats are Rocq's primitive binary64 floats: the same
    IEEE 754 doubles Python and numpy compute with, evaluated bit for bit.
    The streamer's threads are step machines whose numbers are exact
    rationals ([Q]): what they push and how long they sleep is followed
    with rounding left out.  The value of l.44 is also given as binary64
    computes it, and its bounds are proved of both readings. *)

From Stdlib Require Import ZArith Ascii String List Bool Lia.
From Stdlib Require Import Floats.
From Stdlib Require Import QArith Qabs Lqa.
Import ListNotations.

Set Warnings "-inexact-float".

Local Open Scope string_scope.
Local Open Scope Z_scope.
Local Open Scope list_scope.

(** Python's [float(n)] for an integer [n]: rounding to the nearest double
    (exact below 2^53). *)
Definition float_of_Z (n : Z) : float :=
  SF2Prim (binary_normalize prec emax n 0 false).

(* ================================================================== *)
(** * streamer.py *)

Module Streamer.

(** ** Configuration (l.7-22) *)

Record eeg_config := {
  name : string;
  type : string;
  n_channels : Z;
  srate : Z;
  amplitude : Z
}.

Definition eeg_stream_configs : list eeg_config := [
  {| name := "EEG_Stream_1Hz";   type := "EEG"; n_channels := 4;  srate := 1;   amplitude := 50 |};
  {| name := "EEG_Stream_10Hz";  type := "EEG"; n_channels := 8;  srate := 10;  amplitude := 100 |};
  {| name := "EEG_Stream_250Hz"; type := "EEG"; n_channels := 16; srate := 250; amplitude := 200 |};
  {| name := "EEG_Stream_500Hz"; type := "EEG"; n_channels := 32; srate := 500; amplitude := 400 |}
].

Record marker_config := {
  m_name : string;
  m_type : string;
  m_n_channels : Z;
  m_srate : Z;
  marker_interval_ms : list Z;
  marker_types : list string
}.

Definition marker_stream_config : marker_config := {|
  m_name := "Test_Markers";
  m_type := "Markers";
  m_n_channels := 1;
  m_srate := 0;
  marker_interval_ms := [500; 2000];
  marker_types := ["Onset"; "Stimulus"; "Response"; "Error"; "Event_A"; "Event_B"]
|}.

(** ** What a generator thread does to the world *)

Inductive action :=
| IsSet (b : bool)                 (* [stop_event.is_set()] answered [b] *)
| PushSample (sample : list Q)     (* [outlet.push_sample(sample)] *)
| PushMarker (marker : string)     (* [outlet.push_sample([marker])] *)
| Count (sample_count : Z)         (* [sample_count += 1], the new value *)
| PrintSent (marker : string)      (* l.68 *)
| Sleep (seconds : Q)              (* [time.sleep(seconds)] *)
| PrintStopped                     (* l.50, l.71 *)
| ZeroDivisionError                (* [%] or [/] by a zero [srate] *)
| IndexError                       (* an index past the end of a list *)
| ValueError.                      (* [time.sleep] of a negative time *)

(** What the thread reads from outside: the answer of the [k]-th call of
    [stop_event.is_set()] (the flag belongs to the main thread), the [k]-th
    draw of [random.random()], a number of [[0, 1)], and the random number
    behind the [k]-th call of [random.choice]. *)
Record world := {
  is_set : nat -> bool;
  random : nat -> Q;
  choice : nat -> nat
}.

(** [random.uniform(a, b)], which is [a + (b - a) * random()]. *)
Definition uniform (a b : Q) (r : Q) : Q := (a + (b - a) * r)%Q.

(** The same as binary64 computes it. *)
Definition uniform64 (a b r : float) : float := (a + (b - a) * r)%float.

(** ** [create_eeg_stream], the loop (l.40-50) *)

(** l.44: one channel's value in exact arithmetic, [u] being the draw of
    [random.uniform(-0.5, 0.5)]. *)
Definition eeg_value (config : eeg_config) (u : Q) (sample_count : Z) : Q :=
  (inject_Z (amplitude config)
   * (u + (2 # 10) * inject_Z (sample_count mod (srate config * 2))
          / inject_Z (srate config)))%Q.

(** l.44 as binary64 computes it, for [u] the double drawn: the integers
    become doubles where Python meets them in a float operation, and
    [0.2 * m / srate] is [(0.2 * m) / srate]. *)
Definition eeg_value64 (config : eeg_config) (u : float) (sample_count : Z)
  : float :=
  (float_of_Z (amplitude config)
   * (u + 0.2 * float_of_Z (sample_count mod (srate config * 2))
          / float_of_Z (srate config)))%float.

(** l.43-46: the list comprehension, a fresh draw for each channel. *)
Definition eeg_sample (config : eeg_config) (w : world) (draws : nat)
    (sample_count : Z) : list Q :=
  map (fun c => eeg_value config
                  (uniform (-(5 # 10)) (5 # 10) (random w (draws + c)))
                  sample_count)
      (seq 0 (Z.to_nat (n_channels config))).

Inductive eeg_pc :=
| EegWhile      (* l.41 *)
| EegPush       (* l.43-47 *)
| EegCount      (* l.48 *)
| EegSleep      (* l.49 *)
| EegStopped    (* l.50 *)
| EegReturned
| EegRaised.

Record eeg_state := {
  eeg_at : eeg_pc;
  sample_count : Z;
  eeg_checks : nat;    (* calls of [is_set] so far *)
  eeg_draws : nat      (* draws of [random.uniform] so far *)
}.

Definition eeg_start : eeg_state :=
  {| eeg_at := EegWhile; sample_count := 0; eeg_checks := 0; eeg_draws := 0 |}.

Definition eeg_goto (st : eeg_state) (pc : eeg_pc) : eeg_state :=
  {| eeg_at := pc; sample_count := sample_count st;
     eeg_checks := eeg_checks st; eeg_draws := eeg_draws st |}.

(** One statement of the loop; [None] once the function is over. *)
Definition eeg_step (config : eeg_config) (w : world) (st : eeg_state)
  : option (action * eeg_state) :=
  match eeg_at st with
  | EegWhile =>
      let b := is_set w (eeg_checks st) in
      Some (IsSet b,
            {| eeg_at := if b then EegStopped else EegPush;
               sample_count := sample_count st;
               eeg_checks := S (eeg_checks st);
               eeg_draws := eeg_draws st |})
  | EegPush =>
      if (srate config * 2 =? 0)%Z && (0 <? n_channels config)%Z then
        Some (ZeroDivisionError, eeg_goto st EegRaised)
      else
        Some (PushSample (eeg_sample config w (eeg_draws st) (sample_count st)),
              {| eeg_at := EegCount;
                 sample_count := sample_count st;
                 eeg_checks := eeg_checks st;
                 eeg_draws := (eeg_draws st + Z.to_nat (n_channels config))%nat |})
  | EegCount =>
      Some (Count (sample_count st + 1),
            {| eeg_at := EegSleep;
               sample_count := sample_count st + 1;
               eeg_checks := eeg_checks st;
               eeg_draws := eeg_draws st |})
  | EegSleep =>
      if (srate config =? 0)%Z then
        Some (ZeroDivisionError, eeg_goto st EegRaised)
      else if (srate config <? 0)%Z then
        Some (ValueError, eeg_goto st EegRaised)
      else
        Some (Sleep (1 / inject_Z (srate config))%Q, eeg_goto st EegWhile)
  | EegStopped => Some (PrintStopped, eeg_goto st EegReturned)
  | EegReturned => None
  | EegRaised => None
  end.

(** ** [create_marker_stream], the loop (l.65-71) *)

Inductive marker_pc :=
| MarkerWhile     (* l.65 *)
| MarkerPush      (* l.66-67 *)
| MarkerPrint     (* l.68 *)
| MarkerSleep     (* l.69-70 *)
| MarkerStopped   (* l.71 *)
| MarkerReturned
| MarkerRaised.

Record marker_state := {
  marker_at : marker_pc;
  marker : string;       (* the local [marker] *)
  marker_checks : nat;   (* calls of [is_set] so far *)
  marker_draws : nat     (* iterations over: calls of [choice], of [uniform] *)
}.

Definition marker_start : marker_state :=
  {| marker_at := MarkerWhile; marker := ""; marker_checks := 0; marker_draws := 0 |}.

Definition marker_goto (st : marker_state) (pc : marker_pc) : marker_state :=
  {| marker_at := pc; marker := marker st;
     marker_checks := marker_checks st; marker_draws := marker_draws st |}.

(** One statement of the loop; [None] once the function is over. *)
Definition marker_step (config : marker_config) (w : world) (st : marker_state)
  : option (action * marker_state) :=
  match marker_at st with
  | MarkerWhile =>
      let b := is_set w (marker_checks st) in
      Some (IsSet b,
            {| marker_at := if b then MarkerStopped else MarkerPush;
               marker := marker st;
               marker_checks := S (marker_checks st);
               marker_draws := marker_draws st |})
  | MarkerPush =>
      let types := marker_types config in
      match nth_error types (choice w (marker_draws st) mod List.length types) with
      | Some m =>
          Some (PushMarker m,
                {| marker_at := MarkerPrint;
                   marker := m;
                   marker_checks := marker_checks st;
                   marker_draws := marker_draws st |})
      | None => Some (IndexError, marker_goto st MarkerRaised)
      end
  | MarkerPrint => Some (PrintSent (marker st), marker_goto st MarkerSleep)
  | MarkerSleep =>
      match nth_error (marker_interval_ms config) 0,
            nth_error (marker_interval_ms config) 1 with
      | Some lo, Some hi =>
          let sleep_time :=
            (uniform (inject_Z lo) (inject_Z hi) (random w (marker_draws st))
             / 1000)%Q in
          if Qle_bool 0 sleep_time then
            Some (Sleep sleep_time,
                  {| marker_at := MarkerWhile;
                     marker := marker st;
                     marker_checks := marker_checks st;
                     marker_draws := S (marker_draws st) |})
          else Some (ValueError, marker_goto st MarkerRaised)
      | _, _ => Some (IndexError, marker_goto st MarkerRaised)
      end
  | MarkerStopped => Some (PrintStopped, marker_goto st MarkerReturned)
  | MarkerReturned => None
  | MarkerRaised => None
  end.

(** ** Running a thread *)

(** At most [fuel] statements from [st]: what was done, and where it got. *)
Fixpoint run {S} (step : S -> option (action * S)) (fuel : nat) (st : S)
  : list action * S :=
  match fuel with
  | O => ([], st)
  | Datatypes.S fuel' =>
      match step st with
      | None => ([], st)
      | Some (a, st') =>
          let (tr, st'') := run step fuel' st' in (a :: tr, st'')
      end
  end.

Definition is_push (a : action) : bool :=
  match a with
  | PushSample _ | PushMarker _ => true
  | _ => false
  end.

Definition pushes (tr : list action) : nat :=
  List.length (filter is_push tr).

(** The gaps between consecutive pushes on the thread's own clock, which
    only [time.sleep] advances.  [since] is the time slept since the last
    push, [None] before the first one. *)
Fixpoint gaps (since : option Q) (tr : list action) : list Q :=
  match tr with
  | [] => []
  | a :: tr' =>
      match a with
      | Sleep d => gaps (option_map (fun t => t + d)%Q since) tr'
      | PushSample _ | PushMarker _ =>
          match since with
          | Some t => t :: gaps (Some 0%Q) tr'
          | None => gaps (Some 0%Q) tr'
          end
      | _ => gaps since tr'
      end
  end.

Definition sleeps (tr : list action) : list Q :=
  flat_map (fun a => match a with Sleep d => [d] | _ => [] end) tr.

End Streamer.

(* ================================================================== *)
(** * tester.py *)

Module Tester.

(** One row of [stream['time_series']]: a numeric sample (one value per
    channel) or a marker sample (a list holding the label). *)
Inductive sample :=
| Numeric (row : list float)
| Labels (row : list string).

(** A recorded stream as [pyxdf.load_xdf] returns it.  [channel_count] and
    [nominal_srate] are held as the values [int(...)] and [float(...)] give
    on the strings of [stream['info']].  The loader hands back
    [time_series] and [time_stamps] as two arrays of one length, sample [j]
    going with time stamp [j]; the record keeps them zipped, and
    [time_stamps] and [time_series] below are the two arrays. *)
Record stream := {
  info_name : string;
  info_type : string;
  info_channel_count : Z;
  info_nominal_srate : float;
  samples : list (float * sample)
}.

Definition time_stamps (s : stream) : list float := map fst (samples s).
Definition time_series (s : stream) : list sample := map snd (samples s).

(** What the function prints, one constructor per [print] statement of
    [verify_xdf_recording]; a constructor carries the values the statement
    interpolates, before formatting. *)
Inductive line :=
| Verifying (xdf_filepath : string)                          (* l.12 *)
| Loaded (n : nat) (xdf_filepath : string)                   (* l.19 *)
| LoadError (e : string)                                     (* l.22 *)
| LoadHint                                                   (* l.23 *)
| StreamHeader (i : nat) (stream_name : string)              (* l.48 *)
| TypeLine (stream_type : string)                            (* l.49 *)
| ChannelsLine (n_channels : Z)                              (* l.50 *)
| RateLine (srate : float)                                   (* l.51 *)
| TotalLine (n : nat)                                        (* l.52 *)
| FirstSamples                                               (* l.55 *)
| MarkerSample (j : nat) (x : sample) (t : float)            (* l.59 *)
| NumericSample (j : nat) (x : sample) (n_channels : Z) (t : float) (* l.63 *)
| LastSample (x : sample) (t : float)                        (* l.64 *)
| ActualRate (actual_srate : float)                          (* l.71 *)
| RateWarning (stream_name : string)                         (* l.73 *)
| ZeroDuration                                               (* l.75 *)
| MarkerStd (intervals : list float)                         (* l.78 *)
| VerifiedEEG (stream_name : string)                         (* l.87 *)
| Mismatch (stream_name : string)                            (* l.90, l.99 *)
| VerifiedMarker                                             (* l.96 *)
| Info (stream_name : string)                                (* l.101 *)
| Separator                                                  (* l.103 *)
| SummaryHeader                                              (* l.105 *)
| FoundEEG (name : string)                                   (* l.109 *)
| MissingEEG (name : string)                                 (* l.111 *)
| FoundMarker (name : string)                                (* l.115 *)
| MissingMarker (name : string)                              (* l.117 *)
| AllFound                                                   (* l.121-122 *)
| SomeMissing                                                (* l.124-125 *)
| Complete.                                                  (* l.127 *)

(** ** Printing and failing: a writer over [line] with one exception *)

(** A division whose divisor is zero: [ZeroDivisionError] on Python floats,
    numpy's divide-by-zero warning on its scalars. *)
Inductive exn := ZeroDivision.

Definition M (A : Type) : Type := (list line * (exn + A))%type.

Definition ret {A} (a : A) : M A := ([], inr a).

Definition bind {A B} (m : M A) (f : A -> M B) : M B :=
  match m with
  | (out, inl e) => (out, inl e)
  | (out, inr a) => let (out', r) := f a in (out ++ out', r)
  end.

Definition print (l : line) : M unit := ([l], inr tt).

Definition raise {A} (e : exn) : M A := ([], inl e).

Notation "x <- m ;; k" := (bind m (fun x => k))
  (at level 61, m at next level, right associativity).
Notation "m ;;; k" := (bind m (fun _ => k))
  (at level 61, right associativity).

(** [for x in xs: body x] *)
Fixpoint for_each {A} (xs : list A) (body : A -> M unit) : M unit :=
  match xs with
  | [] => ret tt
  | x :: xs' => body x ;;; for_each xs' body
  end.

(** [for x in xs: body x], the body updating the variables [st]. *)
Fixpoint for_fold {A S} (xs : list A) (body : S -> A -> M S) (st : S) : M S :=
  match xs with
  | [] => ret st
  | x :: xs' => st' <- body st x ;; for_fold xs' body st'
  end.

(** [enumerate(xs)] *)
Definition enumerate {A} (xs : list A) : list (nat * A) :=
  combine (seq 0 (length xs)) xs.

(** [when c: body] *)
Definition when (c : bool) (body : M unit) : M unit :=
  if c then body else ret tt.

(** [x / y], failing on a zero divisor. *)
Definition fdiv (x y : float) : M float :=
  if (y =? 0)%float then raise ZeroDivision else ret (x / y)%float.

(** ** Dictionaries with string keys, in insertion order *)

Fixpoint lookup {V} (k : string) (d : list (string * V)) : option V :=
  match d with
  | [] => None
  | (k', v) :: d' => if String.eqb k k' then Some v else lookup k d'
  end.

(** [d[k] = v]: an existing key keeps its place, a new one goes last. *)
Fixpoint update {V} (k : string) (v : V) (d : list (string * V))
  : list (string * V) :=
  match d with
  | [] => [(k, v)]
  | (k', v') :: d' =>
      if String.eqb k k' then (k', v) :: d' else (k', v') :: update k v d'
  end.

(** ** The expected streams (l.26-34) *)

Record expected := {
  e_type : string;
  e_n_channels : Z;
  e_srate : Z
}.

Definition expected_eeg_streams : list (string * expected) := [
  ("EEG_Stream_1Hz",   {| e_type := "EEG"; e_n_channels := 4;  e_srate := 1 |});
  ("EEG_Stream_10Hz",  {| e_type := "EEG"; e_n_channels := 8;  e_srate := 10 |});
  ("EEG_Stream_250Hz", {| e_type := "EEG"; e_n_channels := 16; e_srate := 250 |});
  ("EEG_Stream_500Hz", {| e_type := "EEG"; e_n_channels := 32; e_srate := 500 |})
].

Definition expected_marker_stream : string * expected :=
  ("Test_Markers", {| e_type := "Markers"; e_n_channels := 1; e_srate := 0 |}).

(** The variables the loop over the streams updates (l.36-37). *)
Record found := {
  found_eeg_streams : list (string * bool);
  found_marker_stream : bool
}.

Definition found_init : found := {|
  found_eeg_streams := map (fun '(name, _) => (name, false)) expected_eeg_streams;
  found_marker_stream := false
|}.

(** ** The loop body (l.40-103) *)

(** [np.diff(a)]: [a[i+1] - a[i]]. *)
Fixpoint np_diff (a : list float) : list float :=
  match a with
  | x :: ((y :: _) as a') => (y - x)%float :: np_diff a'
  | _ => []
  end.

(** l.54-64: the first five samples and the last one. *)
Definition print_samples (s : stream) : M unit :=
  let stream_type := info_type s in
  let n_channels := info_channel_count s in
  let time_series := time_series s in
  let time_stamps := time_stamps s in
  print FirstSamples ;;;
  (if String.eqb stream_type "Markers" then
     for_each (seq 0 (Nat.min 5 (length time_series))) (fun j =>
       print (MarkerSample (j + 1) (nth j time_series (Labels []))
                           (nth j time_stamps 0%float)))
   else
     for_each (seq 0 (Nat.min 5 (length time_series))) (fun j =>
       print (NumericSample (j + 1) (nth j time_series (Numeric []))
                            n_channels (nth j time_stamps 0%float)))) ;;;
  print (LastSample (last time_series (Numeric [])) (last time_stamps 0%float)).

(** l.66-78: the actual sampling rate against the nominal one, or the
    spread of the marker intervals. *)
Definition check_rate (s : stream) : M unit :=
  let stream_name := info_name s in
  let srate := info_nominal_srate s in
  let time_series := time_series s in
  let time_stamps := time_stamps s in
  if (0 <? srate)%float && (1 <? length time_stamps)%nat then
    let actual_duration := (last time_stamps 0 - hd 0 time_stamps)%float in
    if (0 <? actual_duration)%float then
      actual_srate <-
        fdiv (float_of_Z (Z.of_nat (length time_stamps) - 1)) actual_duration ;;
      print (ActualRate actual_srate) ;;;
      deviation <- fdiv (abs (actual_srate - srate)) srate ;;
      when (0.1 <? deviation)%float (print (RateWarning stream_name))
    else
      print ZeroDuration
  else if (srate =? 0)%float && (1 <? length time_series)%nat then
    print (MarkerStd (np_diff time_stamps))
  else
    ret tt.

(** l.84-86 and l.93-95: the three properties against the expected ones. *)
Definition properties_match (s : stream) (e : expected) : bool :=
  String.eqb (info_type s) (e_type e)
  && (info_channel_count s =? e_n_channels e)
  && (info_nominal_srate s =? float_of_Z (e_srate e))%float.

(** l.82-101 *)
Definition check_expected (st : found) (s : stream) : M found :=
  let stream_name := info_name s in
  match lookup stream_name expected_eeg_streams with
  | Some e =>
      if properties_match s e then
        print (VerifiedEEG stream_name) ;;;
        ret {| found_eeg_streams := update stream_name true (found_eeg_streams st);
               found_marker_stream := found_marker_stream st |}
      else
        print (Mismatch stream_name) ;;; ret st
  | None =>
      if String.eqb stream_name (fst expected_marker_stream) then
        if properties_match s (snd expected_marker_stream) then
          print VerifiedMarker ;;;
          ret {| found_eeg_streams := found_eeg_streams st;
                 found_marker_stream := true |}
        else
          print (Mismatch stream_name) ;;; ret st
      else
        print (Info stream_name) ;;; ret st
  end.

(** l.48-78: the block that describes stream number [i]. *)
Definition describe_stream (i : nat) (s : stream) : M unit :=
  print (StreamHeader (i + 1) (info_name s)) ;;;
  print (TypeLine (info_type s)) ;;;
  print (ChannelsLine (info_channel_count s)) ;;;
  print (RateLine (info_nominal_srate s)) ;;;
  print (TotalLine (length (time_series s))) ;;;
  when (0 <? length (time_series s))%nat
    (print_samples s ;;; check_rate s).

(** l.40-103 *)
Definition verify_stream (st : found) (i_stream : nat * stream) : M found :=
  let (i, s) := i_stream in
  describe_stream i s ;;;
  st' <- check_expected st s ;;
  print Separator ;;;
  ret st'.

(** ** The summary (l.105-125): returns [all_expected_found] *)
Definition summary (st : found) : M bool :=
  print SummaryHeader ;;;
  all_expected_found <-
    for_fold (found_eeg_streams st) (fun all_expected_found name_found =>
      let '(name, found) := name_found in
      if found : bool then print (FoundEEG name) ;;; ret all_expected_found
      else print (MissingEEG name) ;;; ret false) true ;;
  all_expected_found <-
    (if found_marker_stream st then
       print (FoundMarker (fst expected_marker_stream)) ;;; ret all_expected_found
     else
       print (MissingMarker (fst expected_marker_stream)) ;;; ret false) ;;
  (if all_expected_found : bool then print AllFound else print SomeMissing) ;;;
  ret all_expected_found.

(** l.26-125 on the loaded streams; the value is [all_expected_found]. *)
Definition verify_streams (streams : list stream) : M bool :=
  st <- for_fold (enumerate streams) verify_stream found_init ;;
  summary st.

(** The loader, [pyxdf.load_xdf]: the streams of the file, or the message
    of the exception it raised. *)
Definition loader := string -> string + list stream.

(** [verify_xdf_recording(xdf_filepath)] (l.5-127); it returns [None]. *)
Definition verify_xdf_recording (load_xdf : loader) (xdf_filepath : string)
  : M unit :=
  print (Verifying xdf_filepath) ;;;
  match load_xdf xdf_filepath with
  | inl e =>
      print (LoadError e) ;;; print LoadHint ;;; ret tt
  | inr streams =>
      print (Loaded (length streams) xdf_filepath) ;;;
      verify_streams streams ;;;
      print Complete
  end.

End Tester.

(* ================================================================== *)
(** * What the broadcaster advertises, what the verifier expects *)

(** The name, type, channel count and nominal rate [create_eeg_stream] and
    [create_marker_stream] hand to [StreamInfo] (streamer.py l.29-34,
    l.54-58), laid out as an entry of the verifier's tables. *)
Definition advertised_eeg (config : Streamer.eeg_config)
  : string * Tester.expected :=
  (Streamer.name config,
   {| Tester.e_type := Streamer.type config;
      Tester.e_n_channels := Streamer.n_channels config;
      Tester.e_srate := Streamer.srate config |}).

Definition advertised_marker (config : Streamer.marker_config)
  : string * Tester.expected :=
  (Streamer.m_name config,
   {| Tester.e_type := Streamer.m_type config;
      Tester.e_n_channels := Streamer.m_n_channels config;
      Tester.e_srate := Streamer.m_srate config |}).

Definition advertised : list (string * Tester.expected) :=
  map advertised_eeg Streamer.eeg_stream_configs
  ++ [advertised_marker Streamer.marker_stream_config].

(** The five entries the verifier looks for. *)
Definition catalog : list (string * Tester.expected) :=
  Tester.expected_eeg_streams ++ [Tester.expected_marker_stream].

(** A recorded stream carries an entry's name, and its type, channel count
    and nominal rate are equal to the entry's, by the verifier's own [==]. *)
Definition matches (entry : string * Tester.expected) (s : Tester.stream)
  : bool :=
  String.eqb (Tester.info_name s) (fst entry)
  && Tester.properties_match s (snd entry).

(** The stream a recorder writes for an advertised entry: the four
    properties copied, the samples whatever was captured. *)
Definition recorded (smp : list (float * Tester.sample))
    (entry : string * Tester.expected) : Tester.stream :=
  {| Tester.info_name := fst entry;
     Tester.info_type := Tester.e_type (snd entry);
     Tester.info_channel_count := Tester.e_n_channels (snd entry);
     Tester.info_nominal_srate := float_of_Z (Tester.e_srate (snd entry));
     Tester.samples := smp |}.

(** Lines of the per-stream blocks and of the summary (l.48-127). *)
Definition report_line (l : Tester.line) : bool :=
  match l with
  | Tester.Verifying _ | Tester.Loaded _ _
  | Tester.LoadError _ | Tester.LoadHint => false
  | _ => true
  end.

(** The two lines that tell the verdict (l.120-125). *)
Definition verdict_line (l : Tester.line) : bool :=
  match l with
  | Tester.AllFound | Tester.SomeMissing => true
  | _ => false
  end.

(** The lines that tell what became of one stream (l.87-101). *)
Definition outcome_line (l : Tester.line) : bool :=
  match l with
  | Tester.VerifiedEEG _ | Tester.Mismatch _
  | Tester.VerifiedMarker | Tester.Info _ => true
  | _ => false
  end.

(** The one line of the rate check that is a warning about the rate. *)
Definition rate_warning (l : Tester.line) : bool :=
  match l with
  | Tester.RateWarning _ => true
  | _ => false
  end.

(** Lines of the block that describes a stream (l.48-78). *)
Definition detail_line (l : Tester.line) : bool :=
  match l with
  | Tester.StreamHeader _ _ | Tester.TypeLine _ | Tester.ChannelsLine _
  | Tester.RateLine _ | Tester.TotalLine _ | Tester.FirstSamples
  | Tester.MarkerSample _ _ _ | Tester.NumericSample _ _ _ _
  | Tester.LastSample _ _ | Tester.ActualRate _ | Tester.RateWarning _
  | Tester.ZeroDuration | Tester.MarkerStd _ => true
  | _ => false
  end.

(** The found flags after [check_expected] has seen stream [s]. *)
Definition mark (st : Tester.found) (s : Tester.stream) : Tester.found :=
  match snd (Tester.check_expected st s) with
  | inr st' => st'
  | inl _ => st
  end.

(** Some recorded stream matches the entry. *)
Definition found_by (streams : list Tester.stream)
    (entry : string * Tester.expected) : bool :=
  existsb (matches entry) streams.

(** Every entry of the catalog is matched by some recorded stream. *)
Definition all_matched (streams : list Tester.stream) : bool :=
  forallb (found_by streams) catalog.

(** The summary's line for an EEG entry (l.108-111), for the marker entry
    (l.114-117), and its verdict (l.120-125). *)
Definition eeg_summary (name : string) (found : bool) : Tester.line :=
  if found then Tester.FoundEEG name else Tester.MissingEEG name.

Definition marker_summary (name : string) (found : bool) : Tester.line :=
  if found then Tester.FoundMarker name else Tester.MissingMarker name.

Definition verdict (all_expected_found : bool) : Tester.line :=
  if all_expected_found then Tester.AllFound else Tester.SomeMissing.

(** The three properties [check_expected] compares, and those of them on
    which a recorded stream differs from what is expected. *)
Inductive field := TypeField | ChannelCountField | NominalRateField.

Definition differing (e : Tester.expected) (s : Tester.stream) : list field :=
  (if String.eqb (Tester.info_type s) (Tester.e_type e)
   then [] else [TypeField])
  ++ (if (Tester.info_channel_count s =? Tester.e_n_channels e)%Z
      then [] else [ChannelCountField])
  ++ (if (Tester.info_nominal_srate s =? float_of_Z (Tester.e_srate e))%float
      then [] else [NominalRateField]).

(** "A mismatch is reported with a reason that lists the fields that
    differed": the fields can be read off a line that was printed. *)
Definition mismatch_lists_fields : Prop :=
  exists reason : Tester.line -> list field,
    forall (st : Tester.found) (s : Tester.stream)
           (entry : string * Tester.expected),
      In entry catalog ->
      Tester.info_name s = fst entry ->
      differing (snd entry) s <> [] ->
      exists l, In l (fst (Tester.check_expected st s))
                /\ reason l = differing (snd entry) s.

(** ** Recordings to try the verifier on *)

(** A stream named as the 1 Hz entry, recorded with the wrong type, and one
    recorded with the wrong channel count. *)
Definition wrong_type : Tester.stream :=
  {| Tester.info_name := "EEG_Stream_1Hz"; Tester.info_type := "Markers";
     Tester.info_channel_count := 4; Tester.info_nominal_srate := 1;
     Tester.samples := [] |}.

Definition wrong_channel_count : Tester.stream :=
  {| Tester.info_name := "EEG_Stream_1Hz"; Tester.info_type := "EEG";
     Tester.info_channel_count := 5; Tester.info_nominal_srate := 1;
     Tester.samples := [] |}.

(** Two samples of a continuous stream, [1/rate] apart, and two markers. *)
Definition two_samples (entry : string * Tester.expected)
  : list (float * Tester.sample) :=
  if (Tester.e_srate (snd entry) =? 0)%Z then
    [(0%float, Tester.Labels ["Onset"]); (0.75%float, Tester.Labels ["Error"])]
  else
    [(0%float, Tester.Numeric []);
     ((1 / float_of_Z (Tester.e_srate (snd entry)))%float, Tester.Numeric [])].

(** The five advertised streams, recorded with two samples each. *)
Definition five_streams : list Tester.stream :=
  map (fun entry => recorded (two_samples entry) entry) advertised.

(** Three samples of the 10 Hz stream, 0.1 s apart by the recorder's
    clock. *)
Definition on_time : Tester.stream :=
  {| Tester.info_name := "EEG_Stream_10Hz"; Tester.info_type := "EEG";
     Tester.info_channel_count := 8; Tester.info_nominal_srate := 10;
     Tester.samples := [(0%float, Tester.Numeric []);
                        (0.1%float, Tester.Numeric []);
                        (0.2%float, Tester.Numeric [])] |}.

(** The four properties the verifier reads from [stream['info']]. *)
Definition properties (s : Tester.stream) : string * string * Z * float :=
  (Tester.info_name s, Tester.info_type s, Tester.info_channel_count s,
   Tester.info_nominal_srate s).

(** A computation runs to its end, printing only lines of one kind. *)
Definition yields {A} (m : Tester.M A) (P : Tester.line -> bool)
    (Q : A -> Prop) : Prop :=
  forallb P (fst m) = true /\ exists a, snd m = inr a /\ Q a.

(* ================================================================== *)
(** * The generators: what their properties are stated with *)

(** [random.random()] answers in the unit interval; the bound 1 is kept,
    for [random.uniform] can round up to its upper end. *)
Definition unit_draws (w : Streamer.world) : Prop :=
  forall k, (0 <= Streamer.random w k <= 1)%Q.

(** One turn of the EEG loop, when the thread has made [draws] draws and
    pushed [sample_count] samples. *)
Definition eeg_turn (config : Streamer.eeg_config) (w : Streamer.world)
    (draws : nat) (sample_count : Z) : list Streamer.action :=
  [Streamer.IsSet false;
   Streamer.PushSample (Streamer.eeg_sample config w draws sample_count);
   Streamer.Count (sample_count + 1);
   Streamer.Sleep (1 / inject_Z (Streamer.srate config))%Q].

(** [n] turns in a row, from a start with no draw made and no sample
    pushed. *)
Definition eeg_turns (config : Streamer.eeg_config) (w : Streamer.world)
    (n : nat) : list Streamer.action :=
  flat_map (fun j => eeg_turn config w
                       (j * Z.to_nat (Streamer.n_channels config))
                       (Z.of_nat j))
           (seq 0 n).

(** The head of the EEG loop, [n] turns after the thread was there in
    state [st]. *)
Definition eeg_later (config : Streamer.eeg_config) (st : Streamer.eeg_state)
    (n : nat) : Streamer.eeg_state :=
  {| Streamer.eeg_at := Streamer.EegWhile;
     Streamer.sample_count := Streamer.sample_count st + Z.of_nat n;
     Streamer.eeg_checks := Streamer.eeg_checks st + n;
     Streamer.eeg_draws :=
       Streamer.eeg_draws st + n * Z.to_nat (Streamer.n_channels config) |}.

(** The samples a run pushed, in order. *)
Definition pushed_samples (tr : list Streamer.action) : list (list Q) :=
  flat_map (fun a => match a with Streamer.PushSample s => [s] | _ => [] end)
           tr.

(** The value [sample_count] has when the thread next builds a sample: at
    l.48 a sample is out and the counter not yet raised. *)
Definition next_count (st : Streamer.eeg_state) : Z :=
  match Streamer.eeg_at st with
  | Streamer.EegCount => Streamer.sample_count st + 1
  | _ => Streamer.sample_count st
  end.

(** "Every value a continuous stream emits has a magnitude of at most
    0.7 times the amplitude." *)
Definition magnitude_within_07 : Prop :=
  forall (config : Streamer.eeg_config) (r : Q) (sample_count : Z),
    In config Streamer.eeg_stream_configs ->
    (0 <= r <= 1)%Q ->
    (0 <= sample_count)%Z ->
    (Qabs.Qabs (Streamer.eeg_value config
                  (Streamer.uniform (-(5 # 10)) (5 # 10) r) sample_count)
     <= (7 # 10) * inject_Z (Streamer.amplitude config))%Q.

(** The 10 Hz stream of the catalog. *)
Definition eeg_10Hz : Streamer.eeg_config :=
  {| Streamer.name := "EEG_Stream_10Hz"; Streamer.type := "EEG";
     Streamer.n_channels := 8; Streamer.srate := 10;
     Streamer.amplitude := 100 |}.

(** A world whose stop flag is found set at the third look, and whose
    draws are all 15/16. *)
Definition stopped_at_third_look : Streamer.world :=
  {| Streamer.is_set := fun k => Nat.leb 2 k;
     Streamer.random := fun _ => (15 # 16)%Q;
     Streamer.choice := fun k => k |}.

(** A time [t] in seconds lies within [lo] and [hi] milliseconds, both
    ends allowed. *)
Definition within_interval (lo hi : Z) (t : Q) : Prop :=
  (inject_Z lo <= t * 1000 /\ t * 1000 <= inject_Z hi)%Q.

(** The stop flag is set at the thread's look number [k] and at every
    later one ([stop_event] is set once and never cleared, l.94). *)
Definition stays_set (w : Streamer.world) (k : nat) : Prop :=
  forall j, (k <= j)%nat -> Streamer.is_set w j = true.

(** The actions that are an exception leaving the thread's function. *)
Definition raised (a : Streamer.action) : bool :=
  match a with
  | Streamer.ZeroDivisionError | Streamer.IndexError
  | Streamer.ValueError => true
  | _ => false
  end.

(** The labels a run pushed, and the labels it printed as sent. *)
Definition pushed_markers (tr : list Streamer.action) : list string :=
  flat_map (fun a => match a with Streamer.PushMarker m => [m] | _ => [] end)
           tr.

Definition printed_markers (tr : list Streamer.action) : list string :=
  flat_map (fun a => match a with Streamer.PrintSent m => [m] | _ => [] end)
           tr.

(** A world whose stop flag is never found set. *)
Definition never_stopped : Streamer.world :=
  {| Streamer.is_set := fun _ => false;
     Streamer.random := fun _ => (1 # 2)%Q;
     Streamer.choice := fun k => k |}.

(** A configuration with a zero rate. *)
Definition eeg_0Hz : Streamer.eeg_config :=
  {| Streamer.name := "EEG_Stream_0Hz"; Streamer.type := "EEG";
     Streamer.n_channels := 2; Streamer.srate := 0;
     Streamer.amplitude := 100 |}.

(* ================================================================== *)
(** * Binary64 numbers, counted in whole units *)

(** A finite double is a whole multiple of [2^-1074], and the product of
    two of them a whole multiple of [2^-2148]: [units_of x] is [x] counted
    in units of [2^-2148], an integer. *)
Definition units_of (x : spec_float) : Z :=
  match x with
  | S754_finite s m e => (if s then - Zpos m else Zpos m) * 2 ^ (e + 2148)
  | _ => 0
  end.

(** Neither an infinity nor a NaN. *)
Definition is_number (x : spec_float) : bool :=
  match x with
  | S754_zero _ | S754_finite _ _ _ => true
  | _ => false
  end.

Definition units (f : float) : Z := units_of (Prim2SF f).

Definition number (f : float) : bool := is_number (Prim2SF f).

(** A finite double below zero, and one above. *)
Definition below_zero (f : float) : bool :=
  match Prim2SF f with
  | S754_finite true _ _ => true
  | _ => false
  end.

Definition above_zero (f : float) : bool :=
  match Prim2SF f with
  | S754_finite false _ _ => true
  | _ => false
  end.

(** The sawtooth term of l.44 as binary64 computes it, [m] being
    [sample_count % (srate * 2)]. *)
Definition sawtooth64 (srate m : Z) : float :=
  (0.2 * float_of_Z m / float_of_Z srate)%float.

(** 819/2048, which no sawtooth term of the catalog's streams exceeds, and
    1843/2048, which is 1/2 more. *)
Definition sawtooth_max : float := 0.39990234375%float.

Definition sum_max : float := 0.89990234375%float.

(* ================================================================== *)
(** * The outlet a generator creates (streamer.py l.29-37, l.54-62) *)

Module Outlet.

(** [c.lower()] for a character of ASCII: only [A] to [Z] change. *)
Definition lower_char (c : Ascii.ascii) : Ascii.ascii :=
  if Ascii.leb "A"%char c && Ascii.leb c "Z"%char
  then Ascii.ascii_of_nat (Ascii.nat_of_ascii c + 32)
  else c.

(** [s.lower()] for a string of ASCII. *)
Fixpoint lower (s : string) : string :=
  match s with
  | EmptyString => EmptyString
  | String c s' => String (lower_char c) (lower s')
  end.

(** [s.replace(" ", "")] *)
Fixpoint remove_spaces (s : string) : string :=
  match s with
  | EmptyString => EmptyString
  | String c s' =>
      if Ascii.eqb c " "%char then remove_spaces s'
      else String c (remove_spaces s')
  end.

(** l.35, l.60: [config["name"].lower().replace(" ", "") + "_uid"] *)
Definition source_id (name : string) : string :=
  remove_spaces (lower name) ++ "_uid".

(** The arguments of [StreamInfo]. *)
Record stream_info := {
  si_name : string;
  si_type : string;
  si_channel_count : Z;
  si_nominal_srate : Z;
  si_channel_format : string;
  si_source_id : string
}.

(** l.29-36 *)
Definition eeg_stream_info (config : Streamer.eeg_config) : stream_info :=
  {| si_name := Streamer.name config;
     si_type := Streamer.type config;
     si_channel_count := Streamer.n_channels config;
     si_nominal_srate := Streamer.srate config;
     si_channel_format := "float32";
     si_source_id := source_id (Streamer.name config) |}.

(** l.54-61 *)
Definition marker_stream_info (config : Streamer.marker_config) : stream_info :=
  {| si_name := Streamer.m_name config;
     si_type := Streamer.m_type config;
     si_channel_count := Streamer.m_n_channels config;
     si_nominal_srate := Streamer.m_srate config;
     si_channel_format := "string";
     si_source_id := source_id (Streamer.m_name config) |}.

End Outlet.

(** The characters of a string. *)
Fixpoint chars (s : string) : list Ascii.ascii :=
  match s with
  | EmptyString => []
  | String c s' => c :: chars s'
  end.

(** A string of ASCII: the strings on which [Outlet.lower] is Python's
    [lower]. *)
Definition ascii_only (s : string) : Prop :=
  forall c, In c (chars s) -> (Ascii.nat_of_ascii c < 128)%nat.

(** An upper-case letter of ASCII. *)
Definition upper_case (c : Ascii.ascii) : bool :=
  Ascii.leb "A"%char c && Ascii.leb c "Z"%char.

(* ================================================================== *)
(** * The verifier's output: more kinds of lines *)

(** The lines about a stream's samples and rate (l.55-78). *)
Definition body_line (l : Tester.line) : bool :=
  match l with
  | Tester.FirstSamples | Tester.MarkerSample _ _ _
  | Tester.NumericSample _ _ _ _ | Tester.LastSample _ _
  | Tester.ActualRate _ | Tester.RateWarning _
  | Tester.ZeroDuration | Tester.MarkerStd _ => true
  | _ => false
  end.

(** The first line of a stream's block (l.48). *)
Definition stream_header (l : Tester.line) : bool :=
  match l with
  | Tester.StreamHeader _ _ => true
  | _ => false
  end.

(** The lines of the summary after its header (l.107-125). *)
Definition summary_line (l : Tester.line) : bool :=
  match l with
  | Tester.FoundEEG _ | Tester.MissingEEG _
  | Tester.FoundMarker _ | Tester.MissingMarker _
  | Tester.AllFound | Tester.SomeMissing => true
  | _ => false
  end.

(** The two lines that say a stream was verified (l.87, l.96). *)
Definition verified_line (l : Tester.line) : bool :=
  match l with
  | Tester.VerifiedEEG _ | Tester.VerifiedMarker => true
  | _ => false
  end.

(** The name is that of an entry of the catalog. *)
Definition named_in_catalog (name : string) : bool :=
  existsb (fun entry => String.eqb name (fst entry)) catalog.

(** What the summary says of a recording: a line for each entry, in the
    order of the tables, and the verdict. *)
Definition summary_of (streams : list Tester.stream) : list Tester.line :=
  map (fun entry => eeg_summary (fst entry) (found_by streams entry))
      Tester.expected_eeg_streams
  ++ [marker_summary (fst Tester.expected_marker_stream)
        (found_by streams Tester.expected_marker_stream);
      verdict (all_matched streams)].

(** A stream that bears no name of the catalog. *)
Definition stranger : Tester.stream :=
  {| Tester.info_name := "Keyboard"; Tester.info_type := "Markers";
     Tester.info_channel_count := 1; Tester.info_nominal_srate := 0;
     Tester.samples := [] |}.

(** Three samples that bear one time stamp, and one sample alone. *)
Definition frozen_clock : Tester.stream :=
  {| Tester.info_name := "EEG_Stream_10Hz"; Tester.info_type := "EEG";
     Tester.info_channel_count := 8; Tester.info_nominal_srate := 10;
     Tester.samples := [(5%float, Tester.Numeric []);
                        (5%float, Tester.Numeric []);
                        (5%float, Tester.Numeric [])] |}.

Definition one_sample : Tester.stream :=
  {| Tester.info_name := "EEG_Stream_10Hz"; Tester.info_type := "EEG";
     Tester.info_channel_count := 8; Tester.info_nominal_srate := 10;
     Tester.samples := [(5%float, Tester.Numeric [])] |}.

(** A stream of the 10 Hz entry whose nominal rate reads as not a number. *)
Definition nan_rate : Tester.stream :=
  {| Tester.info_name := "EEG_Stream_10Hz"; Tester.info_type := "EEG";
     Tester.info_channel_count := 8; Tester.info_nominal_srate := nan;
     Tester.samples := [] |}.

(** Three markers, 0.5 s and 1.5 s apart. *)
Definition three_markers : Tester.stream :=
  {| Tester.info_name := "Test_Markers"; Tester.info_type := "Markers";
     Tester.info_channel_count := 1; Tester.info_nominal_srate := 0;
     Tester.samples := [(1%float, Tester.Labels ["Onset"]);
                        (1.5%float, Tester.Labels ["Error"]);
                        (3%float, Tester.Labels ["Onset"])] |}.

(* ================================================================== *)
(** * Properties *)

(** ** Binary64 comparisons *)

Lemma Prim2SF_zero : Prim2SF 0%float = S754_zero false.
Proof. reflexivity. Qed.

Lemma positive_nonzero (d : float) :
  (0 <? d)%float = true -> (d =? 0)%float = false.
Proof.
  rewrite FloatAxioms.ltb_spec, FloatAxioms.eqb_spec, Prim2SF_zero.
  destruct (Prim2SF d) as [s|s| |s m e]; simpl; try discriminate;
    destruct s; (discriminate || reflexivity).
Qed.

Lemma SFeqb_positive_eq (x y : spec_float) :
  SFltb (S754_zero false) y = true -> SFeqb x y = true -> x = y.
Proof.
  unfold SFltb, SFeqb.
  destruct y as [sy|sy| |sy my ey]; simpl; try discriminate;
    (destruct sy; try discriminate); intros _;
    destruct x as [sx|sx| |sx mx ex]; simpl; try discriminate;
    destruct sx; try discriminate; try reflexivity.
  destruct (Z.compare_spec ex ey); try discriminate. subst.
  destruct (Pos.compare_cont Eq mx my) eqn:E; try discriminate.
  apply Pos.compare_eq in E. now subst.
Qed.

Lemma eqb_positive_eq (x y : float) :
  (0 <? y)%float = true -> (x =? y)%float = true -> x = y.
Proof.
  rewrite FloatAxioms.ltb_spec, FloatAxioms.eqb_spec, Prim2SF_zero. intros Hy Hxy.
  apply Prim2SF_inj. now apply SFeqb_positive_eq.
Qed.

(** A positive rate is within the tolerance of itself: [s - s] is [+0]
    for a finite [s], and a NaN, which compares false, for the infinity. *)
Lemma no_deviation (s : float) :
  (0 <? s)%float = true -> (0.1 <? abs (s - s) / s)%float = false.
Proof.
  intros H. rewrite FloatAxioms.ltb_spec, Prim2SF_zero in H.
  rewrite FloatAxioms.ltb_spec, div_spec, abs_spec, sub_spec.
  change (Prim2SF 0.1) with (S754_finite false 7205759403792794 (-56)).
  destruct (Prim2SF s) as [z|z| |z m e]; simpl in *; try discriminate.
  - destruct z; discriminate || reflexivity.
  - destruct z; try discriminate.
    unfold SF64sub, SFsub.
    rewrite Z.min_id. unfold shl_align. rewrite Z.sub_diag. simpl fst.
    reflexivity.
Qed.

(** ** The writer *)

Section Writer.
Import Tester.

Lemma yields_ret {A} (a : A) P (Q : A -> Prop) : Q a -> yields (ret a) P Q.
Proof. intros H. split; [reflexivity | now exists a]. Qed.

Lemma yields_print l P :
  P l = true -> yields (print l) P (fun _ => True).
Proof. intros Hl. split; [simpl; now rewrite Hl | now exists tt]. Qed.

Lemma yields_bind {A B} (m : M A) (f : A -> M B) P Q R :
  yields m P Q -> (forall a, Q a -> yields (f a) P R) -> yields (bind m f) P R.
Proof.
  destruct m as [out [e|a]]; intros [Hout [a' [Ha HQ]]] Hf;
    simpl in Ha; inversion Ha; subst a'.
  destruct (Hf a HQ) as [Hout' [b [Hb HR]]].
  unfold bind, yields. destruct (f a) as [out' r]. simpl in *.
  split; [rewrite forallb_app; now rewrite Hout, Hout' | now exists b].
Qed.

Lemma yields_when c (m : M unit) P :
  (c = true -> yields m P (fun _ => True)) ->
  yields (when c m) P (fun _ => True).
Proof.
  intros Hm. destruct c; simpl; [now apply Hm | now apply yields_ret].
Qed.

Lemma yields_for_each {A} (xs : list A) (body : A -> M unit) P :
  (forall x, In x xs -> yields (body x) P (fun _ => True)) ->
  yields (for_each xs body) P (fun _ => True).
Proof.
  induction xs as [|x xs IH]; intros H; simpl.
  - now apply yields_ret.
  - eapply yields_bind; [apply H; now left |].
    intros _ _. apply IH. intros y Hy. apply H. now right.
Qed.

Lemma yields_fdiv x y P :
  (y =? 0)%float = false -> yields (fdiv x y) P (fun q => q = (x / y)%float).
Proof. intros H. unfold fdiv. rewrite H. now apply yields_ret. Qed.

Lemma yields_eq {A} (m : M A) P Q :
  yields m P Q -> exists out a, m = (out, inr a) /\ forallb P out = true /\ Q a.
Proof.
  destruct m as [out r]. intros [Ho [a [Ha HQ]]]. simpl in *. subst r.
  now exists out, a.
Qed.

End Writer.

(** ** C10: the two programs declare the same five streams *)

(** C10. The broadcaster's stream configurations and the verifier's
    expected-stream tables agree: name, type, channel count and nominal
    rate of each of the five streams are the same on both sides. *)
Theorem configs_agree :
  map advertised_eeg Streamer.eeg_stream_configs = Tester.expected_eeg_streams
  /\ advertised_marker Streamer.marker_stream_config
     = Tester.expected_marker_stream
  /\ advertised = catalog.
Proof. repeat split; reflexivity. Qed.

Lemma advertised_eeg_expected :
  map advertised_eeg Streamer.eeg_stream_configs = Tester.expected_eeg_streams.
Proof. reflexivity. Qed.

Lemma advertised_marker_expected :
  advertised_marker Streamer.marker_stream_config
  = Tester.expected_marker_stream.
Proof. reflexivity. Qed.

Lemma advertised_catalog : advertised = catalog.
Proof. reflexivity. Qed.

(** ** The verifier, stream by stream *)

Section PerStream.
Import Tester.

Lemma print_samples_yields (s : stream) (P : line -> bool) :
  (forall l, detail_line l = true -> rate_warning l = false -> P l = true) ->
  yields (print_samples s) P (fun _ => True).
Proof.
  intros HP. unfold print_samples.
  eapply yields_bind; [now apply yields_print, HP |]. intros _ _.
  eapply yields_bind.
  - destruct (String.eqb (info_type s) "Markers");
      apply yields_for_each; intros j _; now apply yields_print, HP.
  - intros _ _. now apply yields_print, HP.
Qed.

(** The rate check runs to its end: neither division meets a zero. *)
Lemma check_rate_yields (s : stream) :
  yields (check_rate s) detail_line (fun _ => True).
Proof.
  unfold check_rate. cbv zeta.
  destruct (0 <? info_nominal_srate s)%float eqn:Hrate;
    [destruct (1 <? length (time_stamps s))%nat |]; cbn [andb].
  - destruct (0 <? last (time_stamps s) 0 - hd 0 (time_stamps s))%float
      eqn:Hdur.
    + eapply yields_bind;
        [apply yields_fdiv; now apply positive_nonzero |].
      intros actual_srate _.
      eapply yields_bind; [now apply yields_print |]. intros _ _.
      eapply yields_bind;
        [apply yields_fdiv; now apply positive_nonzero |].
      intros deviation _.
      apply yields_when; intros _; now apply yields_print.
    + now apply yields_print.
  - destruct (_ && _); [now apply yields_print | now apply yields_ret].
  - destruct (_ && _); [now apply yields_print | now apply yields_ret].
Qed.

Lemma describe_stream_yields (i : nat) (s : stream) :
  yields (describe_stream i s) detail_line (fun _ => True).
Proof.
  unfold describe_stream.
  do 5 (eapply yields_bind; [now apply yields_print | intros _ _]).
  apply yields_when; intros _.
  eapply yields_bind; [now apply print_samples_yields | intros _ _].
  apply check_rate_yields.
Qed.

Lemma check_expected_eq (st : found) (s : stream) :
  exists l, outcome_line l = true
            /\ check_expected st s = ([l], inr (mark st s)).
Proof.
  unfold mark, check_expected.
  destruct (lookup (info_name s) expected_eeg_streams) as [e|].
  - destruct (properties_match s e); eexists; (split; [| reflexivity]);
      reflexivity.
  - destruct (String.eqb _ _);
      [destruct (properties_match s _) |]; eexists; (split; [| reflexivity]);
      reflexivity.
Qed.

Lemma verify_stream_eq (st : found) (i : nat) (s : stream) :
  exists pre l,
    forallb detail_line pre = true
    /\ outcome_line l = true
    /\ check_expected st s = ([l], inr (mark st s))
    /\ verify_stream st (i, s) = (pre ++ [l; Separator], inr (mark st s)).
Proof.
  destruct (yields_eq _ _ _ (describe_stream_yields i s))
    as [pre [[] [Hd [Hpre _]]]].
  destruct (check_expected_eq st s) as [l [Hl Hc]].
  exists pre, l. repeat split; auto.
  unfold verify_stream. rewrite Hd. unfold bind at 1. rewrite Hc.
  reflexivity.
Qed.

Lemma check_expected_out (st st' : found) (s : stream) :
  fst (check_expected st s) = fst (check_expected st' s).
Proof.
  unfold check_expected.
  destruct (lookup (info_name s) expected_eeg_streams) as [e|].
  - now destruct (properties_match s e).
  - destruct (String.eqb _ _); [destruct (properties_match s _) |];
      reflexivity.
Qed.

(** The loop over the streams (l.39-103): it runs to its end, leaves the
    flags as [mark] set them stream after stream, prints no verdict, and
    prints the outcome line of every stream. *)
Lemma for_streams_eq (streams : list stream) (k : nat) (st : found) :
  exists out,
    for_fold (combine (seq k (length streams)) streams) verify_stream st
    = (out, inr (fold_left mark streams st))
    /\ forallb report_line out = true
    /\ forallb (fun l => negb (verdict_line l)) out = true
    /\ (forall s st', In s streams -> incl (fst (check_expected st' s)) out).
Proof.
  revert k st. induction streams as [|s streams IH]; intros k st;
    cbn [length seq combine for_fold fold_left].
  - exists []. now repeat split.
  - destruct (verify_stream_eq st k s) as [pre [l [Hpre [Hl [Hc Hv]]]]].
    rewrite Hv.
    destruct (IH (S k) (mark st s)) as [out [Hout [Hrep [Hno Hin]]]].
    unfold bind. rewrite Hout.
    eexists. split; [reflexivity |]. repeat split.
    + rewrite !forallb_app, Hrep. simpl. rewrite andb_true_r.
      assert (Hp : forallb report_line pre = true).
      { rewrite forallb_forall in Hpre |- *. intros x Hx.
        specialize (Hpre x Hx). now destruct x. }
      rewrite Hp. now destruct l.
    + rewrite !forallb_app, Hno. simpl. rewrite andb_true_r.
      assert (Hp : forallb (fun l0 => negb (verdict_line l0)) pre = true).
      { rewrite forallb_forall in Hpre |- *. intros x Hx.
        specialize (Hpre x Hx). now destruct x. }
      rewrite Hp. now destruct l.
    + intros s0 st' [<- | Hs0] x Hx.
      * rewrite (check_expected_out st' st), Hc in Hx.
        destruct Hx as [<- | []].
        apply in_or_app. left. apply in_or_app. right. now left.
      * apply in_or_app. right. exact (Hin s0 st' Hs0 x Hx).
Qed.

End PerStream.

(** ** The found flags *)

Section Flags.
Import Tester.

Lemma lookup_update {V} (k k' : string) (v : V) (d : list (string * V)) :
  lookup k (update k' v d) = if String.eqb k k' then Some v else lookup k d.
Proof.
  induction d as [|[k0 v0] d IH]; simpl.
  - reflexivity.
  - destruct (String.eqb_spec k' k0) as [-> | Hk']; simpl.
    + now destruct (String.eqb k k0).
    + rewrite IH. destruct (String.eqb_spec k k0) as [-> | Hk].
      * destruct (String.eqb_spec k0 k') as [<- | _]; [now elim Hk' | easy].
      * reflexivity.
Qed.

Lemma keys_update {V} (k : string) (v : V) (d : list (string * V)) :
  In k (map fst d) -> map fst (update k v d) = map fst d.
Proof.
  induction d as [|[k0 v0] d IH]; simpl; [easy |].
  intros H. destruct (String.eqb_spec k k0) as [-> | Hk]; simpl.
  - reflexivity.
  - f_equal. apply IH. destruct H as [H | H]; [now elim Hk | exact H].
Qed.

Lemma lookup_In {V} (k : string) (v : V) (d : list (string * V)) :
  lookup k d = Some v -> In k (map fst d).
Proof.
  induction d as [|[k0 v0] d IH]; simpl; [discriminate |].
  destruct (String.eqb_spec k k0) as [-> | _]; [now left | right; auto].
Qed.

(** An EEG flag after one more stream. *)
Lemma mark_eeg (st : found) (s : stream) (name : string) (e : expected) :
  lookup name expected_eeg_streams = Some e ->
  lookup name (found_eeg_streams (mark st s))
  = if matches (name, e) s then Some true
    else lookup name (found_eeg_streams st).
Proof.
  intros He. unfold mark, check_expected, matches. cbn [fst snd].
  destruct (String.eqb_spec (info_name s) name) as [Hn | Hn].
  - rewrite Hn, He. cbn [andb].
    destruct (properties_match s e); cbn [snd bind print ret fst found_eeg_streams].
    + rewrite lookup_update. now rewrite String.eqb_refl.
    + reflexivity.
  - cbn [andb].
    destruct (lookup (info_name s) expected_eeg_streams) as [e'|].
    + destruct (properties_match s e'); cbn; [| reflexivity].
      rewrite lookup_update.
      destruct (String.eqb_spec name (info_name s)); [now elim Hn | easy].
    + destruct (String.eqb _ _); [destruct (properties_match s _) |];
        reflexivity.
Qed.

Lemma mark_keys (st : found) (s : stream) :
  map fst (found_eeg_streams st) = map fst expected_eeg_streams ->
  map fst (found_eeg_streams (mark st s)) = map fst expected_eeg_streams.
Proof.
  intros Hk. unfold mark, check_expected.
  destruct (lookup (info_name s) expected_eeg_streams) as [e|] eqn:He.
  - destruct (properties_match s e); cbn; [| exact Hk].
    rewrite keys_update; [exact Hk |].
    rewrite Hk. exact (lookup_In _ _ _ He).
  - destruct (String.eqb _ _); [destruct (properties_match s _) |];
      exact Hk.
Qed.

(** The marker flag after one more stream. *)
Lemma mark_marker (st : found) (s : stream) :
  found_marker_stream (mark st s)
  = found_marker_stream st || matches expected_marker_stream s.
Proof.
  unfold mark, check_expected, matches.
  destruct (lookup (info_name s) expected_eeg_streams) as [e|] eqn:He.
  - assert (Hn : String.eqb (info_name s) (fst expected_marker_stream) = false).
    { destruct (String.eqb_spec (info_name s) (fst expected_marker_stream))
        as [Hn | ]; [| reflexivity].
      rewrite Hn in He. discriminate He. }
    rewrite Hn. cbn [andb]. rewrite orb_false_r.
    now destruct (properties_match s e).
  - destruct (String.eqb _ _); cbn [andb].
    + destruct (properties_match s _); cbn;
        [now rewrite orb_true_r | now rewrite orb_false_r].
    + cbn. now rewrite orb_false_r.
Qed.

(** The flags when the loop is over. *)
Lemma flags_after (streams : list stream) (st : found) :
  map fst (found_eeg_streams st) = map fst expected_eeg_streams ->
  let st' := fold_left mark streams st in
  map fst (found_eeg_streams st') = map fst expected_eeg_streams
  /\ found_marker_stream st'
     = found_marker_stream st || existsb (matches expected_marker_stream) streams
  /\ forall name e b,
       lookup name expected_eeg_streams = Some e ->
       lookup name (found_eeg_streams st) = Some b ->
       lookup name (found_eeg_streams st')
       = Some (b || existsb (matches (name, e)) streams).
Proof.
  revert st. induction streams as [|s streams IH]; intros st Hk; cbn [fold_left].
  - cbn. repeat split; [exact Hk | now rewrite orb_false_r |].
    intros name e b _ ->. now rewrite orb_false_r.
  - destruct (IH (mark st s) (mark_keys st s Hk)) as [Hk' [Hm He]].
    repeat split; [exact Hk' | |].
    + rewrite Hm, mark_marker. cbn [existsb]. now rewrite orb_assoc.
    + intros name e b Hname Hb. cbn [existsb].
      pose proof (mark_eeg st s name e Hname) as Hstep.
      destruct (matches (name, e) s).
      * rewrite (He name e true Hname Hstep). now rewrite orb_true_r.
      * rewrite Hb in Hstep. rewrite (He name e b Hname Hstep).
        now rewrite orb_false_l.
Qed.

End Flags.

(** ** The summary and the whole run *)

Section Summary.
Import Tester.

Lemma flags_final (streams : list stream) :
  let st := fold_left mark streams found_init in
  found_eeg_streams st
  = map (fun entry => (fst entry, found_by streams entry)) expected_eeg_streams
  /\ found_marker_stream st = found_by streams expected_marker_stream.
Proof.
  destruct (flags_after streams found_init eq_refl) as [Hk [Hm He]].
  split; [| exact Hm].
  pose proof (He "EEG_Stream_1Hz" _ false eq_refl eq_refl) as H1.
  pose proof (He "EEG_Stream_10Hz" _ false eq_refl eq_refl) as H2.
  pose proof (He "EEG_Stream_250Hz" _ false eq_refl eq_refl) as H3.
  pose proof (He "EEG_Stream_500Hz" _ false eq_refl eq_refl) as H4.
  unfold found_by.
  destruct (found_eeg_streams (fold_left mark streams found_init))
    as [|[n1 b1] [|[n2 b2] [|[n3 b3] [|[n4 b4] [|]]]]]; try discriminate Hk.
  cbn in Hk. injection Hk as -> -> -> ->.
  cbn in H1, H2, H3, H4.
  injection H1 as ->. injection H2 as ->. injection H3 as ->. injection H4 as ->.
  reflexivity.
Qed.

(** What [verify_streams] prints and returns: the blocks of the streams,
    then the summary, whose verdict is [all_matched]. *)
Lemma verify_streams_eq (streams : list stream) :
  exists blocks,
    verify_streams streams
    = (blocks
       ++ SummaryHeader
          :: map (fun entry => eeg_summary (fst entry) (found_by streams entry))
                 expected_eeg_streams
       ++ [marker_summary (fst expected_marker_stream)
             (found_by streams expected_marker_stream);
           verdict (all_matched streams)],
       inr (all_matched streams))
    /\ forallb report_line blocks = true
    /\ forallb (fun l => negb (verdict_line l)) blocks = true
    /\ (forall s st, In s streams -> incl (fst (check_expected st s)) blocks).
Proof.
  destruct (for_streams_eq streams 0 found_init)
    as [blocks [Hloop [Hrep [Hno Hin]]]].
  exists blocks. split; [| now repeat split].
  unfold verify_streams, enumerate. rewrite Hloop. unfold bind at 1.
  destruct (flags_final streams) as [Heeg Hmarker].
  unfold summary. rewrite Heeg, Hmarker.
  unfold all_matched, catalog. cbn [expected_eeg_streams map app forallb fst].
  destruct (found_by streams _), (found_by streams _), (found_by streams _),
    (found_by streams _), (found_by streams _); reflexivity.
Qed.

End Summary.

Section WholeRun.
Import Tester.

Variable load_xdf : loader.
Variable xdf_filepath : string.

Lemma verify_loaded (streams : list stream) :
  load_xdf xdf_filepath = inr streams ->
  exists blocks,
    verify_xdf_recording load_xdf xdf_filepath
    = (Verifying xdf_filepath :: Loaded (length streams) xdf_filepath
       :: blocks
       ++ SummaryHeader
          :: map (fun entry => eeg_summary (fst entry) (found_by streams entry))
                 expected_eeg_streams
       ++ [marker_summary (fst expected_marker_stream)
             (found_by streams expected_marker_stream);
           verdict (all_matched streams); Complete],
       inr tt)
    /\ forallb report_line blocks = true
    /\ forallb (fun l => negb (verdict_line l)) blocks = true
    /\ (forall s st, In s streams -> incl (fst (check_expected st s)) blocks).
Proof.
  intros Hload.
  destruct (verify_streams_eq streams) as [blocks [Hv Hrest]].
  exists blocks. split; [| exact Hrest].
  unfold verify_xdf_recording. rewrite Hload, Hv.
  cbn [bind print ret app expected_eeg_streams map fst].
  rewrite <- !app_assoc. reflexivity.
Qed.

(** The one verdict line of a run is the summary's. *)
Lemma verdict_printed (streams : list stream) (l : line) :
  load_xdf xdf_filepath = inr streams ->
  verdict_line l = true ->
  In l (fst (verify_xdf_recording load_xdf xdf_filepath))
  <-> l = verdict (all_matched streams).
Proof.
  intros Hload Hl.
  destruct (verify_loaded streams Hload) as [blocks [-> [_ [Hno _]]]].
  cbn [fst expected_eeg_streams map app].
  split.
  - intros [<- | [<- | H]]; try discriminate Hl.
    apply in_app_or in H. destruct H as [H | H].
    + rewrite forallb_forall in Hno. specialize (Hno l H).
      rewrite Hl in Hno. discriminate Hno.
    + unfold eeg_summary, marker_summary in H.
      destruct H as [H|[H|[H|[H|[H|[H|[H|[H|[]]]]]]]]]; subst l;
        try reflexivity; try discriminate Hl;
        revert Hl; destruct (found_by streams _); discriminate.
  - intros ->. do 2 right. apply in_or_app. right.
    do 6 right. now left.
Qed.

End WholeRun.

Lemma all_matched_true (streams : list Tester.stream) :
  all_matched streams = true
  <-> forall entry, In entry catalog ->
      exists s, In s streams /\ matches entry s = true.
Proof.
  unfold all_matched, found_by. rewrite forallb_forall.
  split; intros H entry Hin; specialize (H entry Hin).
  - now apply existsb_exists.
  - now apply existsb_exists.
Qed.

Lemma all_matched_false (streams : list Tester.stream) :
  all_matched streams = false
  <-> exists entry, In entry catalog
      /\ forall s, In s streams -> matches entry s = false.
Proof.
  unfold all_matched, found_by. split.
  - induction catalog as [|entry c IH]; cbn [forallb]; [discriminate |].
    destruct (existsb (matches entry) streams) eqn:He; cbn [andb].
    + intros H. destruct (IH H) as [x [Hx Hn]]. exists x. split; [now right | exact Hn].
    + intros _. exists entry. split; [now left |].
      intros s Hs. destruct (matches entry s) eqn:Hm; [| reflexivity].
      assert (existsb (matches entry) streams = true)
        by (apply existsb_exists; now exists s).
      congruence.
  - intros [entry [Hin Hn]].
    destruct (forallb _ catalog) eqn:Hall; [| reflexivity].
    rewrite forallb_forall in Hall. specialize (Hall entry Hin).
    apply existsb_exists in Hall. destruct Hall as [s [Hs Hm]].
    rewrite (Hn s Hs) in Hm. discriminate Hm.
Qed.

(** ** C1: the verdict *)

Lemma matches_spec (entry : string * Tester.expected) (s : Tester.stream) :
  matches entry s = true
  <-> Tester.info_name s = fst entry
      /\ Tester.info_type s = Tester.e_type (snd entry)
      /\ Tester.info_channel_count s = Tester.e_n_channels (snd entry)
      /\ (Tester.info_nominal_srate s
          =? float_of_Z (Tester.e_srate (snd entry)))%float = true.
Proof.
  unfold matches, Tester.properties_match.
  rewrite !andb_true_iff, !String.eqb_eq, Z.eqb_eq. tauto.
Qed.

(** C1. For every recording the loader returns, the run ends.  The catalog
    has five entries, the four EEG streams and the marker stream, each with
    the type, the channel count and the nominal rate expected of it.  The
    verdict is success (the line of l.121) if and only if each entry has
    some recorded stream whose name is the entry's, whose type and channel
    count are the expected ones, and whose nominal rate is equal, as a
    binary64 number, to the expected one; it is failure (the line of
    l.124) if and only if some entry has no such stream. *)
Theorem verdict_iff_every_entry_matched
    (load_xdf : Tester.loader) (xdf_filepath : string)
    (streams : list Tester.stream) :
  load_xdf xdf_filepath = inr streams ->
  let run := Tester.verify_xdf_recording load_xdf xdf_filepath in
  snd run = inr tt
  /\ catalog
     = [("EEG_Stream_1Hz",
         {| Tester.e_type := "EEG"; Tester.e_n_channels := 4;
            Tester.e_srate := 1 |});
        ("EEG_Stream_10Hz",
         {| Tester.e_type := "EEG"; Tester.e_n_channels := 8;
            Tester.e_srate := 10 |});
        ("EEG_Stream_250Hz",
         {| Tester.e_type := "EEG"; Tester.e_n_channels := 16;
            Tester.e_srate := 250 |});
        ("EEG_Stream_500Hz",
         {| Tester.e_type := "EEG"; Tester.e_n_channels := 32;
            Tester.e_srate := 500 |});
        ("Test_Markers",
         {| Tester.e_type := "Markers"; Tester.e_n_channels := 1;
            Tester.e_srate := 0 |})]
  /\ map (fun entry => float_of_Z (Tester.e_srate (snd entry))) catalog
     = [1; 10; 250; 500; 0]%float
  /\ (In Tester.AllFound (fst run)
      <-> forall entry, In entry catalog ->
          exists s, In s streams
            /\ Tester.info_name s = fst entry
            /\ Tester.info_type s = Tester.e_type (snd entry)
            /\ Tester.info_channel_count s = Tester.e_n_channels (snd entry)
            /\ (Tester.info_nominal_srate s
                =? float_of_Z (Tester.e_srate (snd entry)))%float = true)
  /\ (In Tester.SomeMissing (fst run)
      <-> exists entry, In entry catalog
          /\ forall s, In s streams ->
             ~ (Tester.info_name s = fst entry
                /\ Tester.info_type s = Tester.e_type (snd entry)
                /\ Tester.info_channel_count s
                   = Tester.e_n_channels (snd entry)
                /\ (Tester.info_nominal_srate s
                    =? float_of_Z (Tester.e_srate (snd entry)))%float
                   = true)).
Proof.
  intros Hload run. subst run.
  split; [| split; [reflexivity | split; [reflexivity | split]]].
  - destruct (verify_loaded load_xdf xdf_filepath streams Hload)
      as [blocks [-> _]]. reflexivity.
  - rewrite (verdict_printed load_xdf xdf_filepath streams Tester.AllFound
               Hload eq_refl).
    transitivity (all_matched streams = true).
    + unfold verdict. destruct (all_matched streams); split; congruence.
    + rewrite all_matched_true.
      split; intros H entry Hin; destruct (H entry Hin) as [s [Hs Hm]];
        exists s; (split; [exact Hs |]); now apply matches_spec.
  - rewrite (verdict_printed load_xdf xdf_filepath streams Tester.SomeMissing
               Hload eq_refl).
    transitivity (all_matched streams = false).
    + unfold verdict. destruct (all_matched streams); split; congruence.
    + rewrite all_matched_false.
      split; intros [entry [Hin H]]; exists entry; (split; [exact Hin |]);
        intros s Hs; specialize (H s Hs).
      * intros Hm. apply matches_spec in Hm. congruence.
      * destruct (matches entry s) eqn:Hm; [| reflexivity].
        elim H. now apply matches_spec.
Qed.

(** ** C4: a recording that does not load *)

(** C4. When the loader fails, the run prints the load error and the hint
    and returns: no line of a stream block or of the summary is printed,
    and no entry of the catalog is looked at. *)
Theorem load_failure_aborts
    (load_xdf : Tester.loader) (xdf_filepath e : string) :
  load_xdf xdf_filepath = inl e ->
  Tester.verify_xdf_recording load_xdf xdf_filepath
  = ([Tester.Verifying xdf_filepath; Tester.LoadError e; Tester.LoadHint],
     inr tt)
  /\ forallb (fun l => negb (report_line l))
       (fst (Tester.verify_xdf_recording load_xdf xdf_filepath)) = true.
Proof.
  intros Hload. unfold Tester.verify_xdf_recording. rewrite Hload.
  split; reflexivity.
Qed.

(** ** C5: a stream that does not match *)

Lemma mismatch_line (st : Tester.found) (s : Tester.stream)
    (entry : string * Tester.expected) :
  In entry catalog ->
  Tester.info_name s = fst entry ->
  Tester.properties_match s (snd entry) = false ->
  Tester.check_expected st s
  = ([Tester.Mismatch (Tester.info_name s)], inr st).
Proof.
  intros Hin Hname Hprop. unfold Tester.check_expected. rewrite Hname.
  cbn in Hin.
  destruct Hin as [<- | [<- | [<- | [<- | [<- | []]]]]];
    cbn in Hprop |- *; rewrite Hprop; reflexivity.
Qed.

Lemma differing_nil (e : Tester.expected) (s : Tester.stream) :
  differing e s = [] <-> Tester.properties_match s e = true.
Proof.
  unfold differing, Tester.properties_match.
  destruct (String.eqb _ _), (Z.eqb _ _), (PrimFloat.eqb _ _);
    cbn; split; congruence.
Qed.

(** C5, as amended. A recorded stream that has the name of a catalog entry
    and differs from it in type, channel count or nominal rate gets one
    mismatch line, which names the stream and none of the fields, and it
    leaves the found flags as they were. *)
Theorem mismatch_names_the_stream_only
    (st : Tester.found) (s : Tester.stream)
    (entry : string * Tester.expected) :
  In entry catalog ->
  Tester.info_name s = fst entry ->
  differing (snd entry) s <> [] ->
  Tester.check_expected st s
  = ([Tester.Mismatch (Tester.info_name s)], inr st).
Proof.
  intros Hin Hname Hdiff. apply (mismatch_line st s entry Hin Hname).
  destruct (Tester.properties_match s (snd entry)) eqn:Hp; [| reflexivity].
  elim Hdiff. now apply differing_nil.
Qed.

Lemma mismatch_names_the_stream_only_witness :
  Tester.check_expected Tester.found_init wrong_type
  = ([Tester.Mismatch "EEG_Stream_1Hz"], inr Tester.found_init).
Proof.
  apply (mismatch_names_the_stream_only Tester.found_init wrong_type
           ("EEG_Stream_1Hz",
            {| Tester.e_type := "EEG"; Tester.e_n_channels := 4;
               Tester.e_srate := 1 |})).
  - simpl. left. reflexivity.
  - reflexivity.
  - vm_compute. discriminate.
Defined.

(** C5, as stated, fails: a wrong type and a wrong channel count under the
    same name print the same line, so no reason read from the line can
    list the field that differed. *)
Lemma mismatch_does_not_list_fields :
  fst (Tester.check_expected Tester.found_init wrong_type)
  = fst (Tester.check_expected Tester.found_init wrong_channel_count)
  /\ differing (snd (hd Tester.expected_marker_stream catalog)) wrong_type
     = [TypeField]
  /\ differing (snd (hd Tester.expected_marker_stream catalog))
       wrong_channel_count
     = [ChannelCountField]
  /\ ~ mismatch_lists_fields.
Proof.
  repeat split; try reflexivity.
  intros [reason H].
  pose (entry := hd Tester.expected_marker_stream catalog).
  destruct (H Tester.found_init wrong_type entry) as [l1 [Hin1 Hr1]];
    [now left | reflexivity | vm_compute; discriminate |].
  destruct (H Tester.found_init wrong_channel_count entry)
    as [l2 [Hin2 Hr2]];
    [now left | reflexivity | vm_compute; discriminate |].
  vm_compute in Hin1, Hin2.
  destruct Hin1 as [<- | []]. destruct Hin2 as [<- | []].
  rewrite Hr1 in Hr2. vm_compute in Hr2. discriminate Hr2.
Qed.

Lemma verdict_iff_every_entry_matched_witness :
  In Tester.SomeMissing
    (fst (Tester.verify_xdf_recording (fun _ => inr [wrong_type]) "a.xdf")).
Proof.
  apply (verdict_iff_every_entry_matched
           (fun _ => inr [wrong_type]) "a.xdf" [wrong_type] eq_refl).
  exists ("EEG_Stream_1Hz",
          {| Tester.e_type := "EEG"; Tester.e_n_channels := 4;
             Tester.e_srate := 1 |}).
  split.
  - simpl. left. reflexivity.
  - intros s [<- | []] [_ [Htype _]]. discriminate Htype.
Defined.

Lemma load_failure_aborts_witness :
  Tester.verify_xdf_recording (fun _ => inl "No such file") "a.xdf"
  = ([Tester.Verifying "a.xdf"; Tester.LoadError "No such file";
      Tester.LoadHint], inr tt).
Proof.
  apply (load_failure_aborts (fun _ => inl "No such file") "a.xdf"
           "No such file" eq_refl).
Defined.

(** ** C2: the broadcaster's own streams, recorded *)

Lemma recorded_matches smp entry :
  In entry advertised -> matches entry (recorded smp entry) = true.
Proof.
  cbn. intros [<- | [<- | [<- | [<- | [<- | []]]]]]; reflexivity.
Qed.

Lemma recorded_verified smp entry st :
  In entry advertised ->
  fst (Tester.check_expected st (recorded smp entry))
  = [if (Tester.e_srate (snd entry) =? 0)%Z then Tester.VerifiedMarker
     else Tester.VerifiedEEG (fst entry)].
Proof.
  cbn. intros [<- | [<- | [<- | [<- | [<- | []]]]]]; reflexivity.
Qed.

(** C2. A recording that holds, for each of the broadcaster's five stream
    configurations, a stream with the configuration's name, type, channel
    count and nominal rate copied, whatever its samples and time stamps
    (so also with two or more samples spaced [1/rate] apart), verifies:
    every entry gets its verified line and its found line in the summary,
    and the verdict is success. *)
Theorem round_trip_verifies
    (load_xdf : Tester.loader) (xdf_filepath : string)
    (streams : list Tester.stream) :
  load_xdf xdf_filepath = inr streams ->
  (forall entry, In entry advertised ->
     exists smp, In (recorded smp entry) streams) ->
  let out := fst (Tester.verify_xdf_recording load_xdf xdf_filepath) in
  In Tester.AllFound out
  /\ ~ In Tester.SomeMissing out
  /\ (forall config, In config Streamer.eeg_stream_configs ->
        In (Tester.VerifiedEEG (Streamer.name config)) out
        /\ In (Tester.FoundEEG (Streamer.name config)) out)
  /\ In Tester.VerifiedMarker out
  /\ In (Tester.FoundMarker
           (Streamer.m_name Streamer.marker_stream_config)) out.
Proof.
  intros Hload Hrec out.
  assert (Hfound : forall entry, In entry advertised ->
                                 found_by streams entry = true).
  { intros entry Hin. destruct (Hrec entry Hin) as [smp Hs].
    apply existsb_exists. exists (recorded smp entry).
    split; [exact Hs | now apply recorded_matches]. }
  assert (Hall : all_matched streams = true).
  { apply forallb_forall. intros entry Hin. apply Hfound.
    now rewrite advertised_catalog. }
  pose proof (verdict_printed load_xdf xdf_filepath streams Tester.AllFound
                Hload eq_refl) as Hyes.
  pose proof (verdict_printed load_xdf xdf_filepath streams Tester.SomeMissing
                Hload eq_refl) as Hno.
  rewrite Hall in Hyes, Hno. cbn [verdict] in Hyes, Hno.
  assert (Hverified : forall entry, In entry advertised ->
            In (if (Tester.e_srate (snd entry) =? 0)%Z
                then Tester.VerifiedMarker
                else Tester.VerifiedEEG (fst entry)) out).
  { intros entry Hin. destruct (Hrec entry Hin) as [smp Hs].
    subst out.
    destruct (verify_loaded load_xdf xdf_filepath streams Hload)
      as [blocks [-> [_ [_ Hblocks]]]].
    cbn [fst]. do 2 right. apply in_or_app. left.
    apply (Hblocks _ Tester.found_init Hs).
    rewrite (recorded_verified smp entry _ Hin). now left. }
  assert (Hsummary : forall l,
            In l (map (fun entry => eeg_summary (fst entry) true)
                    Tester.expected_eeg_streams
                  ++ [marker_summary (fst Tester.expected_marker_stream) true])
            -> In l out).
  { intros l Hl. subst out.
    destruct (verify_loaded load_xdf xdf_filepath streams Hload)
      as [blocks [-> _]].
    cbn [fst]. do 2 right. apply in_or_app. right. right.
    rewrite (map_ext_in _ (fun entry => eeg_summary (fst entry) true)).
    2: { intros entry Hin. rewrite Hfound; [reflexivity |].
         unfold advertised. rewrite advertised_eeg_expected.
         apply in_or_app. now left. }
    rewrite Hfound.
    2: { unfold advertised. rewrite advertised_marker_expected.
         apply in_or_app. right. now left. }
    apply in_app_or in Hl. apply in_or_app.
    destruct Hl as [Hl | [<- | []]]; [now left | right; now left]. }
  split; [now apply Hyes |].
  split; [intros H; apply Hno in H; discriminate H |].
  split; [| split].
  - intros config Hin.
    assert (Hv : In (if (Tester.e_srate (snd (advertised_eeg config)) =? 0)%Z
                     then Tester.VerifiedMarker
                     else Tester.VerifiedEEG (fst (advertised_eeg config)))
                    out).
    { apply Hverified. unfold advertised. apply in_or_app. left.
      now apply in_map. }
    split.
    + cbn in Hin.
      destruct Hin as [<- | [<- | [<- | [<- | []]]]]; exact Hv.
    + apply Hsummary. apply in_or_app. left.
      cbn in Hin |- *.
      destruct Hin as [<- | [<- | [<- | [<- | []]]]]; cbn; tauto.
  - apply (Hverified (advertised_marker Streamer.marker_stream_config)).
    unfold advertised. apply in_or_app. right. now left.
  - apply Hsummary. apply in_or_app. right. now left.
Qed.

Lemma round_trip_verifies_witness :
  In Tester.AllFound
    (fst (Tester.verify_xdf_recording (fun _ => inr five_streams) "a.xdf")).
Proof.
  apply (round_trip_verifies (fun _ => inr five_streams) "a.xdf"
           five_streams eq_refl).
  intros entry Hin. exists (two_samples entry).
  unfold five_streams.
  exact (in_map (fun e => recorded (two_samples e) e) advertised entry Hin).
Defined.

(** ** C3 and C9: the rate check *)

Section RateCheck.
Import Tester.

Variable s : stream.

Let srate := info_nominal_srate s.
Let actual_duration :=
  (last (time_stamps s) 0 - hd 0 (time_stamps s))%float.
Let actual_srate :=
  (float_of_Z (Z.of_nat (length (time_stamps s)) - 1) / actual_duration)%float.
Let deviation := (abs (actual_srate - srate) / srate)%float.

Lemma check_rate_eq :
  (0 <? srate)%float = true ->
  (2 <= length (time_stamps s))%nat ->
  (0 <? actual_duration)%float = true ->
  check_rate s
  = (ActualRate actual_srate
     :: (if (0.1 <? deviation)%float then [RateWarning (info_name s)] else []),
     inr tt).
Proof.
  intros Hrate Hlen Hdur. unfold check_rate. cbv zeta.
  fold srate. rewrite Hrate.
  replace (1 <? length (time_stamps s))%nat with true
    by (symmetry; apply Nat.ltb_lt; lia).
  cbn [andb]. fold actual_duration. rewrite Hdur.
  unfold fdiv. rewrite (positive_nonzero _ Hdur), (positive_nonzero _ Hrate).
  cbv beta iota zeta delta [bind ret print when].
  fold actual_srate. fold deviation.
  destruct (0.1 <? deviation)%float; reflexivity.
Qed.

(** The lines of the rate check are the only ones of a stream's block that
    can be a rate warning. *)
Lemma rate_warning_in_block (st : found) (i : nat) (l : line) :
  (2 <= length (time_stamps s))%nat ->
  rate_warning l = true ->
  In l (fst (verify_stream st (i, s))) <-> In l (fst (check_rate s)).
Proof.
  intros Hlen Hl.
  destruct (yields_eq _ _ _
              (print_samples_yields s (fun l => negb (rate_warning l))
                 (fun l _ H => f_equal negb H)))
    as [smp [[] [Hsmp [Hno _]]]].
  destruct (yields_eq _ _ _ (check_rate_yields s)) as [chk [[] [Hchk _]]].
  destruct (check_expected_eq st s) as [o [Ho Hc]].
  assert (Hne : (0 <? length (time_series s))%nat = true).
  { apply Nat.ltb_lt. unfold time_series, time_stamps in *.
    rewrite length_map in *. lia. }
  unfold verify_stream, describe_stream. rewrite Hne, Hsmp, Hchk, Hc.
  cbn [when bind print ret app fst].
  split.
  - intros [<- | [<- | [<- | [<- | [<- | H]]]]]; try discriminate Hl.
    rewrite !in_app_iff in H. destruct H as [[H | H] | H].
    + rewrite forallb_forall in Hno. specialize (Hno l H).
      rewrite Hl in Hno. discriminate Hno.
    + exact H.
    + destruct H as [<- | [<- | []]]; [| discriminate Hl].
      destruct o; discriminate.
  - intros H. do 5 right. rewrite !in_app_iff. left. now right.
Qed.

End RateCheck.

Lemma check_expected_properties (st : Tester.found) (s s' : Tester.stream) :
  properties s' = properties s ->
  Tester.check_expected st s' = Tester.check_expected st s.
Proof.
  unfold properties, Tester.check_expected, Tester.properties_match.
  intros H. injection H as -> -> -> ->. reflexivity.
Qed.

Lemma matches_properties entry (s s' : Tester.stream) :
  properties s' = properties s -> matches entry s' = matches entry s.
Proof.
  unfold properties, matches, Tester.properties_match.
  intros H. injection H as -> -> -> ->. reflexivity.
Qed.

Lemma verify_streams_verdict (streams : list Tester.stream) :
  snd (Tester.verify_streams streams) = inr (all_matched streams).
Proof. destruct (verify_streams_eq streams) as [blocks [-> _]]. reflexivity. Qed.

Lemma all_matched_properties (pre post : list Tester.stream)
    (s s' : Tester.stream) :
  properties s' = properties s ->
  all_matched (pre ++ s' :: post) = all_matched (pre ++ s :: post).
Proof.
  intros H. unfold all_matched, found_by.
  induction catalog as [|entry c IH]; cbn [forallb]; [reflexivity |].
  rewrite IH, !existsb_app. cbn [existsb].
  now rewrite (matches_properties entry s s' H).
Qed.

(** C3. For a recorded stream with a positive nominal rate, two time stamps
    or more and a positive duration, the rate check prints the actual rate
    [(count - 1) / (last - first)] and, after it, the rate warning exactly
    when [abs(actual - nominal) / nominal > 0.1]; no other line of the
    stream's block is that warning.  When the actual rate equals the
    nominal one there is no warning.  What [check_expected] prints and does
    to the found flags, and the verdict of the run, are the same for any
    stream with the same name, type, channel count and nominal rate in its
    place, whatever its time stamps: the warning changes neither. *)
Theorem rate_warning_iff_deviation (s : Tester.stream) :
  let srate := Tester.info_nominal_srate s in
  let time_stamps := Tester.time_stamps s in
  let actual_duration := (last time_stamps 0 - hd 0 time_stamps)%float in
  let actual_srate :=
    (float_of_Z (Z.of_nat (length time_stamps) - 1) / actual_duration)%float in
  let deviation := (abs (actual_srate - srate) / srate)%float in
  (0 <? srate)%float = true ->
  (2 <= length time_stamps)%nat ->
  (0 <? actual_duration)%float = true ->
  Tester.check_rate s
  = (Tester.ActualRate actual_srate
     :: (if (0.1 <? deviation)%float
         then [Tester.RateWarning (Tester.info_name s)] else []),
     inr tt)
  /\ (forall st i,
        In (Tester.RateWarning (Tester.info_name s))
           (fst (Tester.verify_stream st (i, s)))
        <-> (0.1 <? deviation)%float = true)
  /\ ((actual_srate =? srate)%float = true ->
      (0.1 <? deviation)%float = false)
  /\ (forall s', properties s' = properties s ->
        (forall st, Tester.check_expected st s' = Tester.check_expected st s)
        /\ (forall pre post,
              snd (Tester.verify_streams (pre ++ s' :: post))
              = snd (Tester.verify_streams (pre ++ s :: post)))).
Proof.
  intros srate time_stamps actual_duration actual_srate deviation
         Hrate Hlen Hdur.
  pose proof (check_rate_eq s Hrate Hlen Hdur) as Heq.
  split; [exact Heq |]. split; [| split].
  - intros st i.
    rewrite (rate_warning_in_block s st i
               (Tester.RateWarning (Tester.info_name s)) Hlen eq_refl), Heq.
    cbn [fst].
    fold srate time_stamps actual_duration actual_srate deviation.
    destruct (0.1 <? deviation)%float; cbn; split;
      intros H; try discriminate H; try reflexivity.
    + right. now left.
    + destruct H as [H | []]. discriminate H.
  - intros Hsame. apply (eqb_positive_eq _ _ Hrate) in Hsame.
    unfold deviation. rewrite Hsame. now apply no_deviation.
  - intros s' Hp. split.
    + intros st. now apply check_expected_properties.
    + intros pre post. rewrite !verify_streams_verdict.
      now rewrite (all_matched_properties pre post s s' Hp).
Qed.

Lemma rate_warning_iff_deviation_witness :
  Tester.check_rate on_time = ([Tester.ActualRate 10], inr tt).
Proof.
  refine (proj1 (rate_warning_iff_deviation on_time _ _ _)).
  - reflexivity.
  - simpl. lia.
  - reflexivity.
Defined.

(** C9. No run divides by zero: whatever the loader returns, the run ends
    without that exception, though [fdiv] raises it on a zero divisor.  The
    actual rate is computed, and the deviation from the nominal rate after
    it, only for a stream with two time stamps or more whose nominal rate
    and whose duration are positive, and so neither of them zero. *)
Theorem no_division_by_zero :
  (forall load_xdf xdf_filepath,
     snd (Tester.verify_xdf_recording load_xdf xdf_filepath) = inr tt)
  /\ (forall x y, (y =? 0)%float = true ->
        Tester.fdiv x y = Tester.raise Tester.ZeroDivision)
  /\ (forall s r,
        In (Tester.ActualRate r) (fst (Tester.check_rate s)) ->
        let srate := Tester.info_nominal_srate s in
        let time_stamps := Tester.time_stamps s in
        let actual_duration := (last time_stamps 0 - hd 0 time_stamps)%float in
        (2 <= length time_stamps)%nat
        /\ (0 <? actual_duration)%float = true
        /\ (actual_duration =? 0)%float = false
        /\ (0 <? srate)%float = true
        /\ (srate =? 0)%float = false
        /\ r = (float_of_Z (Z.of_nat (length time_stamps) - 1)
                / actual_duration)%float).
Proof.
  split; [| split].
  - intros load_xdf xdf_filepath.
    destruct (load_xdf xdf_filepath) as [e | streams] eqn:Hload.
    + unfold Tester.verify_xdf_recording. now rewrite Hload.
    + destruct (verify_loaded _ _ _ Hload) as [blocks [-> _]]. reflexivity.
  - intros x y Hy. unfold Tester.fdiv. now rewrite Hy.
  - intros s r. unfold Tester.check_rate. cbv zeta.
    destruct (0 <? Tester.info_nominal_srate s)%float eqn:Hrate;
      [destruct (1 <? length (Tester.time_stamps s))%nat eqn:Hlen |];
      cbn [andb].
    + destruct (0 <? last (Tester.time_stamps s) 0
                     - hd 0 (Tester.time_stamps s))%float eqn:Hdur.
      * unfold Tester.fdiv.
        rewrite (positive_nonzero _ Hdur), (positive_nonzero _ Hrate).
        cbv beta iota zeta delta [Tester.bind Tester.ret Tester.print fst].
        intros H. apply Nat.ltb_lt in Hlen.
        repeat split; try lia; auto using positive_nonzero.
        destruct (Tester.when _ _) as [out ?] eqn:Hw.
        destruct H as [H | H]; [now injection H |].
        unfold Tester.when in Hw.
        destruct (0.1 <? _)%float; inversion Hw; subst out.
        -- destruct H as [H | []]. discriminate H.
        -- destruct H.
      * intros [H | []]. discriminate H.
    + destruct (_ && _); [intros [H | []]; discriminate H | intros []].
    + destruct (_ && _); [intros [H | []]; discriminate H | intros []].
Qed.

(* ================================================================== *)
(** * The generators *)

(** ** Running a thread *)

Section Run.
Context {S : Type} (step : S -> option (Streamer.action * S)).

Lemma run_app (a b : nat) (st : S) :
  Streamer.run step (a + b) st
  = let (tr1, st1) := Streamer.run step a st in
    let (tr2, st2) := Streamer.run step b st1 in
    (tr1 ++ tr2, st2).
Proof.
  revert st. induction a as [|a IH]; intros st; cbn [Nat.add Streamer.run].
  - now destruct (Streamer.run step b st).
  - destruct (step st) as [[act st'] |] eqn:Hstep.
    + rewrite IH. destruct (Streamer.run step a st') as [tr1 st1].
      now destruct (Streamer.run step b st1).
    + destruct b; cbn [Streamer.run]; [reflexivity | now rewrite Hstep].
Qed.

Lemma run_over (fuel : nat) (st : S) :
  step st = None -> Streamer.run step fuel st = ([], st).
Proof. intros H. destruct fuel; cbn [Streamer.run]; [| rewrite H]; reflexivity. Qed.

End Run.

(** ** Binary64 rounding

    What is needed of IEEE 754 rounding to bound a sum and a product:
    rounding to nearest never steps over a number of the format. *)

(** A mantissa of [d] digits lies from [2^(d-1)] up to [2^d]. *)
Lemma digits2_pos_bounds (p : positive) :
  2 ^ (Zpos (digits2_pos p) - 1) <= Zpos p < 2 ^ Zpos (digits2_pos p).
Proof.
  induction p as [p IH | p IH |]; cbn [digits2_pos].
  - rewrite Pos2Z.inj_succ.
    replace (Z.succ (Zpos (digits2_pos p)) - 1) with (Zpos (digits2_pos p)) by lia.
    rewrite Z.pow_succ_r by lia.
    assert (H : 2 ^ Zpos (digits2_pos p) = 2 * 2 ^ (Zpos (digits2_pos p) - 1)).
    { rewrite <- Z.pow_succ_r by lia. f_equal. lia. }
    lia.
  - rewrite Pos2Z.inj_succ.
    replace (Z.succ (Zpos (digits2_pos p)) - 1) with (Zpos (digits2_pos p)) by lia.
    rewrite Z.pow_succ_r by lia.
    assert (H : 2 ^ Zpos (digits2_pos p) = 2 * 2 ^ (Zpos (digits2_pos p) - 1)).
    { rewrite <- Z.pow_succ_r by lia. f_equal. lia. }
    lia.
  - cbn. lia.
Qed.

Lemma fexp_eq (e : Z) : fexp prec emax e = Z.max (e - 53) (-1074).
Proof. reflexivity. Qed.

(** One step of the right shift halves the mantissa and remembers what
    fell off. *)
Lemma shr_1_spec (mrs : shr_record) :
  0 <= shr_m mrs ->
  shr_m (shr_1 mrs) = shr_m mrs / 2
  /\ shr_r (shr_1 mrs) = Z.odd (shr_m mrs)
  /\ shr_s (shr_1 mrs) = shr_r mrs || shr_s mrs.
Proof.
  destruct mrs as [m r s]. cbn [shr_m shr_r shr_s]. intros Hm.
  destruct m as [| p | p]; [| | lia].
  - cbn. auto.
  - destruct p as [p | p |]; cbn [shr_1 shr_m shr_r shr_s Z.odd].
    + repeat split. rewrite Pos2Z.inj_xI.
      apply (Z.div_unique _ _ _ 1); lia.
    + repeat split. rewrite Pos2Z.inj_xO.
      apply (Z.div_unique _ _ _ 0); lia.
    + repeat split.
Qed.

Lemma iter_pos_nat {A} (f : A -> A) (p : positive) (x : A) :
  SpecFloat.iter_pos f p x = Nat.iter (Pos.to_nat p) f x.
Proof.
  revert x. induction p as [p IH | p IH |]; intros x; cbn [SpecFloat.iter_pos].
  - rewrite !IH, Pos2Nat.inj_xI.
    replace (S (2 * Pos.to_nat p)) with (Pos.to_nat p + (Pos.to_nat p + 1))%nat by lia.
    rewrite !Nat.iter_add. reflexivity.
  - rewrite !IH, Pos2Nat.inj_xO.
    replace (2 * Pos.to_nat p)%nat with (Pos.to_nat p + Pos.to_nat p)%nat by lia.
    rewrite Nat.iter_add. reflexivity.
  - reflexivity.
Qed.

(** After [k] steps the mantissa is divided by [2^k], and when nothing
    was lost the record says so. *)
Lemma shr_iter (m : Z) (k : nat) :
  0 <= m ->
  let mrs := Nat.iter k shr_1 {| shr_m := m; shr_r := false; shr_s := false |} in
  shr_m mrs = m / 2 ^ Z.of_nat k
  /\ (m mod 2 ^ Z.of_nat k = 0 -> shr_r mrs || shr_s mrs = false).
Proof.
  intros Hm. induction k as [|k IH]; cbv zeta in *.
  - cbn [Nat.iter shr_m shr_r shr_s]. rewrite Z.pow_0_r, Z.div_1_r. auto.
  - rewrite Nat.iter_succ.
    set (mrs := Nat.iter k shr_1 _) in *.
    destruct IH as [IHm IHs].
    assert (H0 : 0 <= shr_m mrs) by (rewrite IHm; apply Z.div_pos; lia).
    destruct (shr_1_spec mrs H0) as [H1 [H2 H3]].
    rewrite H1, H2, H3, IHm, Nat2Z.inj_succ, Z.pow_succ_r by lia.
    assert (Hp : 0 < 2 ^ Z.of_nat k) by (apply Z.pow_pos_nonneg; lia).
    split.
    + rewrite Z.div_div by lia. f_equal. lia.
    + intros H.
      apply Z.mod_divide in H; [| lia]. destruct H as [t Ht].
      assert (Hk : m mod 2 ^ Z.of_nat k = 0).
      { apply Z.mod_divide; [lia |]. exists (2 * t). lia. }
      rewrite (IHs Hk), orb_false_r.
      replace m with (2 * t * 2 ^ Z.of_nat k) by lia.
      rewrite Z.div_mul by lia.
      rewrite <- Z.negb_even, Z.even_mul. reflexivity.
Qed.

Lemma shr_exact (m e n : Z) :
  0 <= m ->
  let k := Z.max n 0 in
  let mrs := fst (shr {| shr_m := m; shr_r := false; shr_s := false |} e n) in
  snd (shr {| shr_m := m; shr_r := false; shr_s := false |} e n) = e + k
  /\ shr_m mrs = m / 2 ^ k
  /\ (m mod 2 ^ k = 0 -> shr_r mrs || shr_s mrs = false).
Proof.
  intros Hm. destruct n as [| p | p]; cbn [shr fst snd Z.max Z.compare]; cbv zeta.
  - cbn [shr_m shr_r shr_s]. rewrite Z.add_0_r, Z.pow_0_r, Z.div_1_r. auto.
  - replace (Z.max (Z.pos p) 0) with (Z.pos p) by lia.
    rewrite iter_pos_nat. split; [reflexivity |].
    rewrite <- (positive_nat_Z p). apply shr_iter. exact Hm.
  - replace (Z.max (Z.neg p) 0) with 0 by lia.
    cbn [shr_m shr_r shr_s]. rewrite Z.add_0_r, Z.pow_0_r, Z.div_1_r. auto.
Qed.

Lemma round_nearest_even_spec (mrs : shr_record) :
  let m1 := round_nearest_even (shr_m mrs) (loc_of_shr_record mrs) in
  m1 = shr_m mrs
  \/ (m1 = shr_m mrs + 1 /\ shr_r mrs || shr_s mrs = true).
Proof.
  destruct mrs as [m [|] [|]]; cbn; try destruct (Z.even m); auto.
Qed.

(** The mantissa after the shift and the rounding to nearest even is less
    than one unit above what was there. *)
Lemma shr_round (m e n : Z) :
  0 <= m ->
  let k := Z.max n 0 in
  let mrs := fst (shr {| shr_m := m; shr_r := false; shr_s := false |} e n) in
  let m1 := round_nearest_even (shr_m mrs) (loc_of_shr_record mrs) in
  snd (shr {| shr_m := m; shr_r := false; shr_s := false |} e n) = e + k
  /\ m / 2 ^ k <= m1
  /\ m1 * 2 ^ k < m + 2 ^ k.
Proof.
  intros Hm k mrs m1.
  destruct (shr_exact m e n Hm) as [He [Hq Hx]]. fold k mrs in He, Hq, Hx.
  split; [exact He |].
  assert (Hp : 0 < 2 ^ k) by (apply Z.pow_pos_nonneg; lia).
  pose proof (Z.div_mod m (2 ^ k) ltac:(lia)) as Hdm.
  pose proof (Z.mod_pos_bound m (2 ^ k) Hp) as Hmod.
  destruct (round_nearest_even_spec mrs) as [H1 | [H1 Hrs]]; fold m1 in H1;
    rewrite H1, Hq.
  - split; [lia | nia].
  - split; [lia |].
    assert (m mod 2 ^ k <> 0) by (intros H0; rewrite (Hx H0) in Hrs; discriminate).
    nia.
Qed.

Lemma Zdigits2_bounds (m : Z) :
  0 < m -> 2 ^ (Zdigits2 m - 1) <= m < 2 ^ Zdigits2 m.
Proof.
  destruct m as [| p | p]; [lia | | lia]. intros _. apply digits2_pos_bounds.
Qed.

Lemma Zdigits2_pos (m : Z) : 0 < m -> 0 < Zdigits2 m.
Proof. destruct m; cbn; lia. Qed.

Lemma fexp_le (a b : Z) : a <= b -> fexp prec emax a <= fexp prec emax b.
Proof. rewrite !fexp_eq. lia. Qed.

Lemma bounded_spec (m : positive) (e : Z) :
  bounded prec emax m e = true ->
  fexp prec emax (Zpos (digits2_pos m) + e) = e /\ -1074 <= e <= 971.
Proof.
  unfold bounded, canonical_mantissa. rewrite andb_true_iff, Z.eqb_eq, Z.leb_le.
  intros [Hc He]. split; [exact Hc |]. rewrite fexp_eq in Hc.
  change (emax - prec) with 971 in He. lia.
Qed.

Section Scaled.

(** Values are counted in units of [2^(-K)]. *)
Variable K : Z.

Lemma value_digits (m1 e1 m2 e2 : Z) :
  0 < m1 -> 0 < m2 -> 0 <= e1 + K -> 0 <= e2 + K ->
  m1 * 2 ^ (e1 + K) <= m2 * 2 ^ (e2 + K) ->
  Zdigits2 m1 + e1 <= Zdigits2 m2 + e2.
Proof.
  intros H1 H2 He1 He2 Hle.
  pose proof (Zdigits2_bounds m1 H1) as [Hd1 _].
  pose proof (Zdigits2_bounds m2 H2) as [_ Hd2].
  pose proof (Zdigits2_pos m1 H1) as Hp1.
  pose proof (Zdigits2_pos m2 H2) as Hp2.
  assert (Ha : 2 ^ (Zdigits2 m1 - 1 + (e1 + K)) <= m1 * 2 ^ (e1 + K)).
  { rewrite (Z.pow_add_r 2 (Zdigits2 m1 - 1) (e1 + K)) by lia.
    apply Z.mul_le_mono_nonneg_r; [| exact Hd1].
    apply Z.pow_nonneg; lia. }
  assert (Hb : m2 * 2 ^ (e2 + K) < 2 ^ (Zdigits2 m2 + (e2 + K))).
  { rewrite (Z.pow_add_r 2 (Zdigits2 m2) (e2 + K)) by lia.
    apply Z.mul_lt_mono_pos_r; [| exact Hd2].
    apply Z.pow_pos_nonneg; lia. }
  assert (Hc : 2 ^ (Zdigits2 m1 - 1 + (e1 + K)) < 2 ^ (Zdigits2 m2 + (e2 + K)))
    by lia.
  apply Z.pow_lt_mono_r_iff in Hc; lia.
Qed.

(** Rounding does not step over a number of the format. *)
Lemma binary_round_aux_le (sx : bool) (mx : positive) (ex : Z)
    (mc : positive) (ec : Z) :
  0 <= ex + K -> 0 <= ec + K ->
  ex <= fexp prec emax (Zpos (digits2_pos mx) + ex) ->
  bounded prec emax mc ec = true ->
  Zpos mx * 2 ^ (ex + K) <= Zpos mc * 2 ^ (ec + K) ->
  match binary_round_aux prec emax sx (Zpos mx) ex loc_Exact with
  | S754_zero s => s = sx
  | S754_finite s m e =>
      s = sx /\ 0 <= e + K /\ Zpos m * 2 ^ (e + K) <= Zpos mc * 2 ^ (ec + K)
  | _ => False
  end.
Proof.
  intros Hex Hec Hshift Hb Hle.
  destruct (bounded_spec mc ec Hb) as [Hcan Hrange].
  unfold binary_round_aux, shr_fexp. cbn [shr_record_of_loc Zdigits2].
  set (e1 := fexp prec emax (Zpos (digits2_pos mx) + ex)) in *.
  pose proof (shr_round (Zpos mx) ex (e1 - ex) ltac:(lia)) as H1.
  cbv zeta in H1.
  destruct (shr {| shr_m := Zpos mx; shr_r := false; shr_s := false |} ex (e1 - ex))
    as [mrs1 e'] eqn:Hshr1.
  cbn [fst snd] in H1.
  set (m1 := round_nearest_even (shr_m mrs1) (loc_of_shr_record mrs1)) in *.
  replace (Z.max (e1 - ex) 0) with (e1 - ex) in H1 by lia.
  destruct H1 as [He' [Hq1 Hm1]].
  replace (ex + (e1 - ex)) with e1 in He' by lia. subst e'.
  assert (H0m1 : 0 <= m1).
  { apply Z.le_trans with (2 := Hq1). apply Z.div_pos; [lia |].
    apply Z.pow_pos_nonneg; lia. }
  (* the first rounding stays below the bound *)
  assert (He1 : e1 <= ec).
  { rewrite <- Hcan. apply fexp_le.
    apply (value_digits (Zpos mx) ex (Zpos mc) ec); lia. }
  assert (Hb1 : m1 * 2 ^ (e1 + K) <= Zpos mc * 2 ^ (ec + K)).
  { set (C := Zpos mc * 2 ^ (ec - e1)).
    assert (HC : Zpos mc * 2 ^ (ec + K) = C * 2 ^ (e1 + K)).
    { unfold C. rewrite <- Z.mul_assoc, <- Z.pow_add_r by lia.
      do 2 f_equal. lia. }
    rewrite HC in *.
    assert (Hsplit : 2 ^ (e1 + K) = 2 ^ (e1 - ex) * 2 ^ (ex + K)).
    { rewrite <- Z.pow_add_r by lia. f_equal. lia. }
    assert (Hp : 0 < 2 ^ (ex + K)) by (apply Z.pow_pos_nonneg; lia).
    assert (Hp1 : 0 < 2 ^ (e1 - ex)) by (apply Z.pow_pos_nonneg; lia).
    assert (Hmx : Zpos mx <= C * 2 ^ (e1 - ex)).
    { rewrite Hsplit, Z.mul_assoc in Hle.
      apply Z.mul_le_mono_pos_r in Hle; assumption. }
    assert (m1 <= C) by nia.
    apply Z.mul_le_mono_nonneg_r; [lia | assumption]. }
  (* the second shift *)
  pose proof (shr_exact m1 e1 (fexp prec emax (Zdigits2 m1 + e1) - e1) H0m1) as H2.
  cbv zeta in H2.
  destruct (shr {| shr_m := m1; shr_r := false; shr_s := false |} e1
              (fexp prec emax (Zdigits2 m1 + e1) - e1)) as [mrs2 e''] eqn:Hshr2.
  cbn [fst snd] in H2. destruct H2 as [He'' [Hm2 _]].
  set (k2 := Z.max (fexp prec emax (Zdigits2 m1 + e1) - e1) 0) in *.
  assert (Hp2 : 0 < 2 ^ k2) by (apply Z.pow_pos_nonneg; lia).
  destruct (shr_m mrs2) as [| m2 | m2] eqn:Hmrs2.
  - reflexivity.
  - assert (Hm1pos : 0 < m1).
    { destruct (Z.eq_dec m1 0) as [H0 | H0]; [| lia].
      rewrite H0, Z.div_0_l in Hm2; lia. }
    assert (He2 : e'' <= ec).
    { subst e''. unfold k2.
      assert (fexp prec emax (Zdigits2 m1 + e1) <= ec).
      { rewrite <- Hcan. apply fexp_le.
        apply (value_digits m1 e1 (Zpos mc) ec); lia. }
      lia. }
    replace (e'' <=? emax - prec) with true
      by (symmetry; apply Z.leb_le; change (emax - prec) with 971; lia).
    split; [reflexivity |]. split; [lia |].
    apply Z.le_trans with (2 := Hb1).
    subst e''. replace (e1 + k2 + K) with (k2 + (e1 + K)) by lia.
    rewrite (Z.pow_add_r 2 k2 (e1 + K)), Z.mul_assoc by lia.
    apply Z.mul_le_mono_nonneg_r; [apply Z.pow_nonneg; lia |].
    rewrite Hm2, Z.mul_comm. apply Z.mul_div_le. exact Hp2.
  - assert (0 <= m1 / 2 ^ k2) by (apply Z.div_pos; lia). lia.
Qed.

End Scaled.

Section Compare.

Variable K : Z.
Hypothesis K_large : 1074 <= K.

Lemma canonical_lt (m1 : positive) (e1 : Z) (m2 : positive) (e2 : Z) :
  bounded prec emax m1 e1 = true ->
  bounded prec emax m2 e2 = true ->
  e1 < e2 ->
  Zpos m1 * 2 ^ (e1 + K) < Zpos m2 * 2 ^ (e2 + K).
Proof.
  intros H1 H2 Hlt.
  destruct (bounded_spec m1 e1 H1) as [Hc1 Hr1].
  destruct (bounded_spec m2 e2 H2) as [Hc2 Hr2].
  rewrite fexp_eq in Hc1, Hc2.
  pose proof (digits2_pos_bounds m1) as [_ Hd1].
  pose proof (digits2_pos_bounds m2) as [Hd2 _].
  assert (Hd1' : Zpos (digits2_pos m1) <= 53) by lia.
  assert (Hd2' : Zpos (digits2_pos m2) = 53) by lia.
  rewrite Hd2' in Hd2. change (2 ^ (53 - 1)) with (2 ^ 52) in Hd2.
  assert (Hm1 : Zpos m1 < 2 ^ 53).
  { apply Z.lt_le_trans with (1 := Hd1). apply Z.pow_le_mono_r; lia. }
  replace (e2 + K) with ((e2 - e1) + (e1 + K)) by lia.
  rewrite (Z.pow_add_r 2 (e2 - e1) (e1 + K)), Z.mul_assoc by lia.
  apply Z.mul_lt_mono_pos_r; [apply Z.pow_pos_nonneg; lia |].
  assert (2 ^ 1 <= 2 ^ (e2 - e1)) by (apply Z.pow_le_mono_r; lia).
  change (2 ^ 1) with 2 in *. change (2 ^ 53) with (2 * 2 ^ 52) in Hm1.
  assert (0 < 2 ^ 52) by reflexivity.
  nia.
Qed.

Lemma magnitude_compare (m1 : positive) (e1 : Z) (m2 : positive) (e2 : Z) :
  bounded prec emax m1 e1 = true ->
  bounded prec emax m2 e2 = true ->
  match e1 ?= e2 with
  | Lt => Lt
  | Gt => Gt
  | Eq => Pos.compare_cont Eq m1 m2
  end
  = (Zpos m1 * 2 ^ (e1 + K) ?= Zpos m2 * 2 ^ (e2 + K)).
Proof.
  intros H1 H2.
  destruct (bounded_spec m1 e1 H1) as [_ Hr1].
  destruct (Z.compare_spec e1 e2) as [-> | Hlt | Hgt]; symmetry.
  - assert (Hp : 0 < 2 ^ (e2 + K)) by (apply Z.pow_pos_nonneg; lia).
    change (Pos.compare_cont Eq m1 m2) with (Pos.compare m1 m2).
    destruct (Pos.compare_spec m1 m2) as [-> | H | H].
    + apply Z.compare_refl.
    + apply Z.compare_lt_iff. apply Z.mul_lt_mono_pos_r; [exact Hp | lia].
    + apply Z.compare_gt_iff. apply Z.mul_lt_mono_pos_r; [exact Hp | lia].
  - apply Z.compare_lt_iff. now apply canonical_lt.
  - apply Z.compare_gt_iff. now apply canonical_lt.
Qed.

End Compare.

Lemma SFcompare_units (x y : spec_float) :
  SpecFloat.valid_binary prec emax x = true ->
  SpecFloat.valid_binary prec emax y = true ->
  is_number x = true -> is_number y = true ->
  SFcompare x y = Some (units_of x ?= units_of y).
Proof.
  assert (Hpos : forall (m : positive) e,
            bounded prec emax m e = true -> 0 < Zpos m * 2 ^ (e + 2148)).
  { intros m e H. destruct (bounded_spec m e H) as [_ Hr].
    apply Z.mul_pos_pos; [lia | apply Z.pow_pos_nonneg; lia]. }
  destruct x as [sx | sx | | sx mx ex], y as [sy | sy | | sy my ey];
    try discriminate; cbn [SpecFloat.valid_binary is_number units_of SFcompare];
    intros Hx Hy _ _.
  - reflexivity.
  - pose proof (Hpos my ey Hy). f_equal. symmetry.
    destruct sy; [apply Z.compare_gt_iff | apply Z.compare_lt_iff]; lia.
  - pose proof (Hpos mx ex Hx). f_equal. symmetry.
    destruct sx; [apply Z.compare_lt_iff | apply Z.compare_gt_iff]; lia.
  - pose proof (Hpos mx ex Hx). pose proof (Hpos my ey Hy). f_equal.
    destruct sx, sy.
    + rewrite !Z.mul_opp_l, Z.compare_opp.
      rewrite <- (magnitude_compare 2148 ltac:(lia) my ey mx ex Hy Hx).
      rewrite (Z.compare_antisym ey ex).
      destruct (ey ?= ex); cbn [CompOpp]; try reflexivity.
      exact (Pos.compare_cont_antisym mx my Eq).
    + symmetry. apply Z.compare_lt_iff. lia.
    + symmetry. apply Z.compare_gt_iff. lia.
    + apply (magnitude_compare 2148 ltac:(lia) mx ex my ey Hx Hy).
Qed.

(** The left shift that aligns two mantissas. *)
Lemma iter_xO (m d : positive) :
  Zpos (Pos.iter xO m d) = Zpos m * 2 ^ Zpos d
  /\ Zpos (digits2_pos (Pos.iter xO m d)) = Zpos (digits2_pos m) + Zpos d.
Proof.
  induction d as [| d IH] using Pos.peano_ind.
  - cbn [Pos.iter digits2_pos]. rewrite Pos2Z.inj_succ. split; lia.
  - rewrite Pos.iter_succ. cbn [digits2_pos].
    rewrite Pos2Z.inj_xO, !Pos2Z.inj_succ, Z.pow_succ_r by lia.
    destruct IH as [-> ->]. split; lia.
Qed.

Lemma shl_align_spec (mx : positive) (ex ex' : Z) :
  let mz := fst (shl_align mx ex ex') in
  let ez := snd (shl_align mx ex ex') in
  ez = Z.min ex ex'
  /\ Zpos mz = Zpos mx * 2 ^ (ex - ez)
  /\ Zpos (digits2_pos mz) = Zpos (digits2_pos mx) + (ex - ez).
Proof.
  unfold shl_align.
  destruct (ex' - ex) as [| d | d] eqn:Hd; cbn [fst snd]; cbv zeta.
  - replace (Z.min ex ex') with ex by lia.
    rewrite Z.sub_diag, Z.pow_0_r. repeat split; lia.
  - replace (Z.min ex ex') with ex by lia.
    rewrite Z.sub_diag, Z.pow_0_r. repeat split; lia.
  - replace (Z.min ex ex') with ex' by lia.
    replace (ex - ex') with (Zpos d) by lia.
    split; [reflexivity |]. apply iter_xO.
Qed.

Section Operations.

Variable K : Z.
Hypothesis K_large : 2148 <= K.

Lemma binary_round_le (sx : bool) (mx : positive) (ex : Z)
    (mc : positive) (ec : Z) :
  0 <= ex + K ->
  bounded prec emax mc ec = true ->
  Zpos mx * 2 ^ (ex + K) <= Zpos mc * 2 ^ (ec + K) ->
  match binary_round prec emax sx mx ex with
  | S754_zero s => s = sx
  | S754_finite s m e =>
      s = sx /\ 0 <= e + K /\ Zpos m * 2 ^ (e + K) <= Zpos mc * 2 ^ (ec + K)
  | _ => False
  end.
Proof.
  intros Hex Hb Hle. unfold binary_round.
  set (t := fexp prec emax (Zpos (digits2_pos mx) + ex)).
  destruct (shl_align_spec mx ex t) as [Hez [Hmz Hdz]].
  destruct (shl_align mx ex t) as [mz ez]. cbn [fst snd] in Hez, Hmz, Hdz.
  destruct (bounded_spec mc ec Hb) as [_ Hr].
  assert (Ht : -1074 <= t) by (unfold t; rewrite fexp_eq; lia).
  apply binary_round_aux_le; try assumption; try lia.
  - rewrite Hdz.
    replace (Zpos (digits2_pos mx) + (ex - ez) + ez)
      with (Zpos (digits2_pos mx) + ex) by lia.
    fold t. lia.
  - rewrite Hmz, <- Z.mul_assoc, <- Z.pow_add_r by lia.
    replace (ex - ez + (ez + K)) with (ex + K) by lia. exact Hle.
Qed.

End Operations.

Lemma valid_finite (s : bool) (m : positive) (e : Z) :
  SpecFloat.valid_binary prec emax (S754_finite s m e) = true ->
  bounded prec emax m e = true /\ -1074 <= e <= 971
  /\ 0 < Zpos m * 2 ^ (e + 2148).
Proof.
  cbn [SpecFloat.valid_binary]. intros H.
  destruct (bounded_spec m e H) as [_ Hr].
  split; [exact H |]. split; [exact Hr |].
  apply Z.mul_pos_pos; [lia | apply Z.pow_pos_nonneg; lia].
Qed.

Lemma SFadd_within (x y : spec_float) (mn : positive) (en : Z)
    (mp : positive) (ep : Z) :
  SpecFloat.valid_binary prec emax x = true ->
  SpecFloat.valid_binary prec emax y = true ->
  is_number x = true -> is_number y = true ->
  bounded prec emax mn en = true ->
  bounded prec emax mp ep = true ->
  - (Zpos mn * 2 ^ (en + 2148)) <= units_of x + units_of y
    <= Zpos mp * 2 ^ (ep + 2148) ->
  is_number (SFadd prec emax x y) = true
  /\ - (Zpos mn * 2 ^ (en + 2148)) <= units_of (SFadd prec emax x y)
     <= Zpos mp * 2 ^ (ep + 2148).
Proof.
  intros Hx Hy Nx Ny Hn Hp.
  destruct (valid_finite false mn en Hn) as [_ [Hrn Hposn]].
  destruct (valid_finite false mp ep Hp) as [_ [Hrp Hposp]].
  set (N := Zpos mn * 2 ^ (en + 2148)) in *.
  set (P := Zpos mp * 2 ^ (ep + 2148)) in *.
  destruct x as [sx | sx | | sx mx ex], y as [sy | sy | | sy my ey];
    try discriminate; clear Nx Ny.
  - intros _. cbn [SFadd].
    destruct sx, sy; cbn [is_number units_of]; (split; [reflexivity | lia]).
  - cbn [SFadd units_of is_number]. rewrite Z.add_0_l. auto.
  - cbn [SFadd units_of is_number]. rewrite Z.add_0_r. auto.
  - destruct (valid_finite sx mx ex Hx) as [_ [Hrx _]].
    destruct (valid_finite sy my ey Hy) as [_ [Hry _]].
    cbn [SFadd units_of]. cbv zeta.
    set (ez := Z.min ex ey).
    destruct (shl_align_spec mx ex ez) as [Hex [Hmx _]].
    destruct (shl_align_spec my ey ez) as [Hey [Hmy _]].
    replace (snd (shl_align mx ex ez)) with ez in Hmx by (unfold ez in *; lia).
    replace (snd (shl_align my ey ez)) with ez in Hmy by (unfold ez in *; lia).
    clear Hex Hey.
    set (M := cond_Zopp sx (Zpos (fst (shl_align mx ex ez)))
              + cond_Zopp sy (Zpos (fst (shl_align my ey ez)))).
    assert (HM : M * 2 ^ (ez + 2148)
                 = (if sx then - Zpos mx else Zpos mx) * 2 ^ (ex + 2148)
                   + (if sy then - Zpos my else Zpos my) * 2 ^ (ey + 2148)).
    { assert (Hpx : 2 ^ (ex + 2148) = 2 ^ (ex - ez) * 2 ^ (ez + 2148)).
      { rewrite <- Z.pow_add_r by (unfold ez; lia). f_equal. lia. }
      assert (Hpy : 2 ^ (ey + 2148) = 2 ^ (ey - ez) * 2 ^ (ez + 2148)).
      { rewrite <- Z.pow_add_r by (unfold ez; lia). f_equal. lia. }
      unfold M. rewrite Hmx, Hmy, Hpx, Hpy.
      destruct sx, sy; cbn [cond_Zopp]; ring. }
    rewrite <- HM. intros Hsum.
    assert (Hez : 0 <= ez + 2148) by (unfold ez; lia).
    destruct M as [| p | p]; cbn [binary_normalize].
    + cbn [is_number units_of]. split; [reflexivity | lia].
    + pose proof (binary_round_le 2148 ltac:(lia) false p ez mp ep Hez Hp
                    ltac:(fold P; lia)) as H.
      destruct (binary_round prec emax false p ez) as [s | s | | s m e];
        try contradiction.
      * cbn [is_number units_of]. split; [reflexivity | lia].
      * destruct H as [-> [He Hle]]. cbn [is_number units_of]. fold P in Hle.
        assert (0 < Zpos m * 2 ^ (e + 2148))
          by (apply Z.mul_pos_pos; [lia | apply Z.pow_pos_nonneg; lia]).
        split; [reflexivity | lia].
    + assert (Hneg : Zpos p * 2 ^ (ez + 2148) <= N).
      { change (Z.neg p) with (- Zpos p) in Hsum. lia. }
      pose proof (binary_round_le 2148 ltac:(lia) true p ez mn en Hez Hn Hneg)
        as H.
      destruct (binary_round prec emax true p ez) as [s | s | | s m e];
        try contradiction.
      * cbn [is_number units_of]. split; [reflexivity | lia].
      * destruct H as [-> [He Hle]]. cbn [is_number units_of]. fold N in Hle.
        assert (0 < Zpos m * 2 ^ (e + 2148))
          by (apply Z.mul_pos_pos; [lia | apply Z.pow_pos_nonneg; lia]).
        split; [reflexivity | lia].
Qed.

Lemma digits2_mul (mx my : positive) :
  Zpos (digits2_pos mx) + Zpos (digits2_pos my) - 1
  <= Zpos (digits2_pos (mx * my)).
Proof.
  pose proof (digits2_pos_bounds mx) as [Hx _].
  pose proof (digits2_pos_bounds my) as [Hy _].
  pose proof (digits2_pos_bounds (mx * my)) as [_ Hxy].
  rewrite Pos2Z.inj_mul in Hxy.
  assert (H : 2 ^ (Zpos (digits2_pos mx) - 1 + (Zpos (digits2_pos my) - 1))
              < 2 ^ Zpos (digits2_pos (mx * my))).
  { rewrite Z.pow_add_r by lia.
    apply Z.le_lt_trans with (2 := Hxy).
    apply Z.mul_le_mono_nonneg; try assumption; apply Z.pow_nonneg; lia. }
  apply Z.pow_lt_mono_r_iff in H; lia.
Qed.

Lemma SFmul_within (x y : spec_float) (mn : positive) (en : Z)
    (mp : positive) (ep : Z) :
  SpecFloat.valid_binary prec emax x = true ->
  SpecFloat.valid_binary prec emax y = true ->
  is_number x = true -> is_number y = true ->
  bounded prec emax mn en = true ->
  bounded prec emax mp ep = true ->
  - (Zpos mn * 2 ^ (en + 2148)) * 2 ^ 2148 <= units_of x * units_of y
    <= Zpos mp * 2 ^ (ep + 2148) * 2 ^ 2148 ->
  is_number (SFmul prec emax x y) = true
  /\ - (Zpos mn * 2 ^ (en + 2148)) <= units_of (SFmul prec emax x y)
     <= Zpos mp * 2 ^ (ep + 2148).
Proof.
  intros Hx Hy Nx Ny Hn Hp.
  destruct (valid_finite false mn en Hn) as [_ [Hrn Hposn]].
  destruct (valid_finite false mp ep Hp) as [_ [Hrp Hposp]].
  set (N := Zpos mn * 2 ^ (en + 2148)) in *.
  set (P := Zpos mp * 2 ^ (ep + 2148)) in *.
  destruct x as [sx | sx | | sx mx ex], y as [sy | sy | | sy my ey];
    try discriminate; clear Nx Ny;
    try (intros _; cbn [SFmul is_number units_of];
         split; [reflexivity | lia]).
  destruct (valid_finite sx mx ex Hx) as [Hbx [Hrx Hposx]].
  destruct (valid_finite sy my ey Hy) as [Hby [Hry Hposy]].
  destruct (bounded_spec mx ex Hbx) as [Hcx _].
  destruct (bounded_spec my ey Hby) as [Hcy _].
  rewrite fexp_eq in Hcx, Hcy.
  cbn [SFmul units_of].
  assert (Hprod : Zpos (mx * my) * 2 ^ (ex + ey + 2148) * 2 ^ 2148
                  = Zpos mx * 2 ^ (ex + 2148) * (Zpos my * 2 ^ (ey + 2148))).
  { assert (Hpow : 2 ^ (ex + ey + 2148) * 2 ^ 2148
                   = 2 ^ (ex + 2148) * 2 ^ (ey + 2148)).
    { rewrite <- (Z.pow_add_r 2 (ex + ey + 2148) 2148) by lia.
      rewrite <- (Z.pow_add_r 2 (ex + 2148) (ey + 2148)) by lia.
      f_equal. lia. }
    rewrite Pos2Z.inj_mul, <- (Z.mul_assoc _ (2 ^ (ex + ey + 2148))), Hpow.
    ring. }
  assert (H2 : 0 < 2 ^ 2148) by (apply Z.pow_pos_nonneg; lia).
  rewrite !Z.mul_opp_l.
  set (V := Zpos (mx * my) * 2 ^ (ex + ey + 2148)) in *.
  set (X := Zpos mx * 2 ^ (ex + 2148)) in *.
  set (Y := Zpos my * 2 ^ (ey + 2148)) in *.
  set (T := 2 ^ 2148) in *. clearbody T.
  intros Hsum.
  assert (Hshift : ex + ey
                   <= fexp prec emax (Zpos (digits2_pos (mx * my)) + (ex + ey))).
  { rewrite fexp_eq. pose proof (digits2_mul mx my).
    pose proof (Pos2Z.is_pos (digits2_pos mx)).
    pose proof (Pos2Z.is_pos (digits2_pos my)). lia. }
  assert (Hcases :
            forall (s : bool) (mc : positive) (ec : Z),
              bounded prec emax mc ec = true ->
              V <= Zpos mc * 2 ^ (ec + 2148) ->
              match binary_round_aux prec emax s (Zpos (mx * my)) (ex + ey)
                      loc_Exact with
              | S754_zero s' => s' = s
              | S754_finite s' m e =>
                  s' = s /\ 0 <= e + 2148
                  /\ Zpos m * 2 ^ (e + 2148) <= Zpos mc * 2 ^ (ec + 2148)
              | _ => False
              end).
  { intros s mc ec Hb Hle.
    destruct (bounded_spec mc ec Hb) as [_ Hr].
    apply binary_round_aux_le; try assumption; lia. }
  destruct sx, sy; cbn [xorb].
  - assert (HV : V <= P) by nia.
    pose proof (Hcases false mp ep Hp HV) as H.
    destruct (binary_round_aux _ _ _ _ _ _) as [s | s | | s m e];
      try contradiction;
      [cbn [is_number units_of]; split; [reflexivity | lia] |].
    destruct H as [-> [He Hle]]. cbn [is_number units_of]. fold P in Hle.
    assert (0 < Zpos m * 2 ^ (e + 2148))
      by (apply Z.mul_pos_pos; [lia | apply Z.pow_pos_nonneg; lia]).
    split; [reflexivity | lia].
  - assert (HV : V <= N) by nia.
    pose proof (Hcases true mn en Hn HV) as H.
    destruct (binary_round_aux _ _ _ _ _ _) as [s | s | | s m e];
      try contradiction;
      [cbn [is_number units_of]; split; [reflexivity | lia] |].
    destruct H as [-> [He Hle]]. cbn [is_number units_of]. fold N in Hle.
    assert (0 < Zpos m * 2 ^ (e + 2148))
      by (apply Z.mul_pos_pos; [lia | apply Z.pow_pos_nonneg; lia]).
    split; [reflexivity | lia].
  - assert (HV : V <= N) by nia.
    pose proof (Hcases true mn en Hn HV) as H.
    destruct (binary_round_aux _ _ _ _ _ _) as [s | s | | s m e];
      try contradiction;
      [cbn [is_number units_of]; split; [reflexivity | lia] |].
    destruct H as [-> [He Hle]]. cbn [is_number units_of]. fold N in Hle.
    assert (0 < Zpos m * 2 ^ (e + 2148))
      by (apply Z.mul_pos_pos; [lia | apply Z.pow_pos_nonneg; lia]).
    split; [reflexivity | lia].
  - assert (HV : V <= P) by nia.
    pose proof (Hcases false mp ep Hp HV) as H.
    destruct (binary_round_aux _ _ _ _ _ _) as [s | s | | s m e];
      try contradiction;
      [cbn [is_number units_of]; split; [reflexivity | lia] |].
    destruct H as [-> [He Hle]]. cbn [is_number units_of]. fold P in Hle.
    assert (0 < Zpos m * 2 ^ (e + 2148))
      by (apply Z.mul_pos_pos; [lia | apply Z.pow_pos_nonneg; lia]).
    split; [reflexivity | lia].
Qed.

Lemma leb_units (a b : float) :
  number a = true -> number b = true ->
  (a <=? b)%float = (units a <=? units b).
Proof.
  intros Ha Hb. rewrite FloatAxioms.leb_spec. unfold SFleb, units.
  rewrite (SFcompare_units _ _ (FloatAxioms.Prim2SF_valid a) (FloatAxioms.Prim2SF_valid b) Ha Hb).
  unfold Z.leb. now destruct (_ ?= _).
Qed.

Lemma ltb_units (a b : float) :
  number a = true -> number b = true ->
  (a <? b)%float = (units a <? units b).
Proof.
  intros Ha Hb. rewrite FloatAxioms.ltb_spec. unfold SFltb, units.
  rewrite (SFcompare_units _ _ (FloatAxioms.Prim2SF_valid a) (FloatAxioms.Prim2SF_valid b) Ha Hb).
  unfold Z.ltb. now destruct (_ ?= _).
Qed.

Lemma leb_number (lo u hi : float) :
  number lo = true -> number hi = true ->
  (lo <=? u)%float = true -> (u <=? hi)%float = true ->
  number u = true.
Proof.
  unfold number. rewrite !FloatAxioms.leb_spec. unfold SFleb.
  destruct (Prim2SF lo) as [sl | sl | | sl ml el]; try discriminate;
    destruct (Prim2SF hi) as [sh | sh | | sh mh eh]; try discriminate;
    destruct (Prim2SF u) as [su | [|] | | su mu eu]; intros _ _;
    cbn; try discriminate; try reflexivity;
    try (destruct sl; discriminate); try (destruct sh; discriminate).
Qed.

Lemma between_units (lo u hi : float) :
  number lo = true -> number hi = true ->
  (lo <=? u)%float = true -> (u <=? hi)%float = true ->
  number u = true /\ units lo <= units u <= units hi.
Proof.
  intros Hlo Hhi H1 H2.
  pose proof (leb_number lo u hi Hlo Hhi H1 H2) as Hu.
  rewrite (leb_units _ _ Hlo Hu) in H1. rewrite (leb_units _ _ Hu Hhi) in H2.
  apply Z.leb_le in H1, H2. auto.
Qed.

Lemma add_between (lo hi a b : float) :
  below_zero lo = true -> above_zero hi = true ->
  number a = true -> number b = true ->
  units lo <= units a + units b <= units hi ->
  number (a + b) = true /\ units lo <= units (a + b) <= units hi.
Proof.
  unfold below_zero, above_zero, number, units.
  pose proof (FloatAxioms.Prim2SF_valid lo) as Vlo. pose proof (FloatAxioms.Prim2SF_valid hi) as Vhi.
  destruct (Prim2SF lo) as [| | | [|] mn en]; try discriminate.
  destruct (Prim2SF hi) as [| | | [|] mp ep]; try discriminate.
  intros _ _ Ha Hb. rewrite FloatAxioms.add_spec. cbn [units_of].
  rewrite Z.mul_opp_l.
  apply SFadd_within; try assumption; apply FloatAxioms.Prim2SF_valid.
Qed.

Lemma mul_between (lo hi a b : float) :
  below_zero lo = true -> above_zero hi = true ->
  number a = true -> number b = true ->
  units lo * 2 ^ 2148 <= units a * units b <= units hi * 2 ^ 2148 ->
  number (a * b) = true /\ units lo <= units (a * b) <= units hi.
Proof.
  unfold below_zero, above_zero, number, units.
  pose proof (FloatAxioms.Prim2SF_valid lo) as Vlo. pose proof (FloatAxioms.Prim2SF_valid hi) as Vhi.
  destruct (Prim2SF lo) as [| | | [|] mn en]; try discriminate.
  destruct (Prim2SF hi) as [| | | [|] mp ep]; try discriminate.
  intros _ _ Ha Hb. rewrite FloatAxioms.mul_spec. cbn [units_of].
  rewrite Z.mul_opp_l.
  apply SFmul_within; try assumption; apply FloatAxioms.Prim2SF_valid.
Qed.

(** ** The value of l.44 in binary64 *)

Lemma below_all (P : Z -> bool) (n : nat) :
  forallb (fun k => P (Z.of_nat k)) (seq 0 n) = true ->
  forall m, 0 <= m < Z.of_nat n -> P m = true.
Proof.
  intros H m Hm. rewrite forallb_forall in H.
  rewrite <- (Z2Nat.id m) by lia. apply H. apply in_seq. lia.
Qed.

(** The sawtooth term of each stream of the catalog, at every value the
    counter can have: each of the [2 * srate] terms is computed. *)
Lemma sawtooth64_range (config : Streamer.eeg_config) (sample_count : Z) :
  In config Streamer.eeg_stream_configs ->
  let x := sawtooth64 (Streamer.srate config)
             (sample_count mod (Streamer.srate config * 2)) in
  (0 <=? x)%float = true /\ (x <=? sawtooth_max)%float = true.
Proof.
  intros Hin.
  assert (H : forall m, 0 <= m < Streamer.srate config * 2 ->
            ((0 <=? sawtooth64 (Streamer.srate config) m)
             && (sawtooth64 (Streamer.srate config) m <=? sawtooth_max))%float
            = true).
  { cbn in Hin. destruct Hin as [<- | [<- | [<- | [<- | []]]]];
      cbn [Streamer.srate].
    - apply (below_all _ 2). vm_compute. reflexivity.
    - apply (below_all _ 20). vm_compute. reflexivity.
    - apply (below_all _ 500). vm_compute. reflexivity.
    - apply (below_all _ 1000). vm_compute. reflexivity. }
  cbv zeta. apply andb_true_iff. apply H. apply Z.mod_pos_bound.
  cbn in Hin. destruct Hin as [<- | [<- | [<- | [<- | []]]]]; reflexivity.
Qed.

(** [A * (u + x)] for a draw [u] of [[-0.5, 0.5]] and a sawtooth term [x]:
    the sum is rounded within [[-0.5, sum_max]], the product within the
    bounds [lo] and [hi] that hold of the exact product. *)
Lemma scaled_sum_between (A u x lo hi : float) :
  above_zero A = true ->
  (-0.5 <=? u)%float = true -> (u <=? 0.5)%float = true ->
  (0 <=? x)%float = true -> (x <=? sawtooth_max)%float = true ->
  below_zero lo = true -> above_zero hi = true ->
  (units lo * 2 ^ 2148 <=? units A * units (-0.5)%float) = true ->
  (units A * units sum_max <=? units hi * 2 ^ 2148) = true ->
  number (A * (u + x)) = true
  /\ units lo <= units (A * (u + x)) <= units hi.
Proof.
  intros HA Hu1 Hu2 Hx1 Hx2 Hlo Hhi Hc1 Hc2.
  apply Z.leb_le in Hc1, Hc2.
  destruct (between_units (-0.5) u 0.5 eq_refl eq_refl Hu1 Hu2) as [Nu Bu].
  destruct (between_units 0 x sawtooth_max eq_refl eq_refl Hx1 Hx2) as [Nx Bx].
  assert (H0 : units 0%float = 0) by reflexivity.
  assert (Hs : units 0.5%float + units sawtooth_max <= units sum_max)
    by (vm_compute; discriminate).
  destruct (add_between (-0.5) sum_max u x eq_refl eq_refl Nu Nx ltac:(lia))
    as [Ny By].
  assert (NA : number A = true).
  { unfold above_zero in HA. unfold number.
    destruct (Prim2SF A) as [| | | [|] ? ?]; try discriminate. reflexivity. }
  assert (PA : 0 <= units A).
  { unfold above_zero in HA. unfold units.
    destruct (Prim2SF A) as [| | | [|] m e]; try discriminate.
    cbn [units_of]. apply Z.mul_nonneg_nonneg; [lia | apply Z.pow_nonneg; lia]. }
  apply mul_between; try assumption.
  split.
  - apply Z.le_trans with (1 := Hc1). apply Z.mul_le_mono_nonneg_l; lia.
  - apply Z.le_trans with (2 := Hc2). apply Z.mul_le_mono_nonneg_l; lia.
Qed.

(** The four amplitudes: [-0.5 * A] and [A * sum_max] are exact, and the
    second is below [0.9 * A]. *)
Lemma amplitude64_checks (config : Streamer.eeg_config) :
  In config Streamer.eeg_stream_configs ->
  let A := float_of_Z (Streamer.amplitude config) in
  let lo := (-0.5 * A)%float in
  let hi := (A * sum_max)%float in
  below_zero lo = true /\ above_zero hi = true /\ above_zero A = true
  /\ (units lo * 2 ^ 2148 <=? units A * units (-0.5)%float) = true
  /\ (units A * units sum_max <=? units hi * 2 ^ 2148) = true
  /\ (units hi <? units (0.9 * A)%float) = true
  /\ number (0.9 * A)%float = true.
Proof.
  intros Hin. cbn in Hin.
  destruct Hin as [<- | [<- | [<- | [<- | []]]]]; vm_compute; repeat split.
Qed.

Lemma eeg_value64_bounds (config : Streamer.eeg_config) (u : float)
    (sample_count : Z) :
  In config Streamer.eeg_stream_configs ->
  (-0.5 <=? u)%float = true -> (u <=? 0.5)%float = true ->
  let v := Streamer.eeg_value64 config u sample_count in
  let A := float_of_Z (Streamer.amplitude config) in
  (-0.5 * A <=? v)%float = true /\ (v <? 0.9 * A)%float = true.
Proof.
  intros Hin Hu1 Hu2 v A.
  destruct (sawtooth64_range config sample_count Hin) as [Hx1 Hx2].
  set (x := sawtooth64 _ _) in *.
  assert (Hv : v = (A * (u + x))%float) by reflexivity.
  destruct (amplitude64_checks config Hin)
    as [Hlo [Hhi [HA [Hc1 [Hc2 [Hlt N9]]]]]].
  fold A in Hlo, Hhi, HA, Hc1, Hc2, Hlt, N9.
  set (lo := (-0.5 * A)%float) in *. set (hi := (A * sum_max)%float) in *.
  destruct (scaled_sum_between A u x lo hi HA Hu1 Hu2 Hx1 Hx2 Hlo Hhi Hc1 Hc2)
    as [Nv Bv].
  rewrite <- Hv in Nv, Bv.
  assert (Nlo : number lo = true).
  { unfold below_zero in Hlo. unfold number.
    destruct (Prim2SF lo) as [| | | [|] ? ?]; try discriminate. reflexivity. }
  rewrite (leb_units _ _ Nlo Nv), (ltb_units _ _ Nv N9).
  apply Z.ltb_lt in Hlt. split; [apply Z.leb_le | apply Z.ltb_lt]; lia.
Qed.

(** A product of two numbers that are not below zero is not below zero,
    whatever the rounding does. *)
Lemma mul_not_below_zero (a b : float) :
  number a = true -> number b = true ->
  0 <= units a -> 0 <= units b -> 0 <= units (a * b).
Proof.
  unfold number, units. rewrite FloatAxioms.mul_spec.
  pose proof (FloatAxioms.Prim2SF_valid a) as Va.
  pose proof (FloatAxioms.Prim2SF_valid b) as Vb.
  destruct (Prim2SF a) as [sa | sa | | sa ma ea]; try discriminate;
    destruct (Prim2SF b) as [sb | sb | | sb mb eb]; try discriminate;
    intros _ _; try (intros _ _; cbn; lia).
  destruct (valid_finite sa ma ea Va) as [_ [_ Ha]].
  destruct (valid_finite sb mb eb Vb) as [_ [_ Hb]].
  cbn [units_of]. intros Ha0 Hb0.
  destruct sa; [lia |]. destruct sb; [lia |].
  unfold SF64mul. cbn [SFmul xorb]. unfold binary_round_aux.
  destruct (shr_fexp _ _ _ _ _) as [mrs1 e1].
  destruct (shr_fexp _ _ _ _ _) as [mrs2 e2].
  destruct (shr_m mrs2) as [| m | m]; try (cbn; lia).
  destruct (e2 <=? emax - prec); cbn [units_of]; [| lia].
  apply Z.mul_nonneg_nonneg; [lia | apply Z.pow_nonneg; lia].
Qed.

(** [random.uniform(-0.5, 0.5)] in binary64 stays within its ends. *)
Lemma uniform64_half (r : float) :
  (0 <=? r)%float = true -> (r <=? 1)%float = true ->
  (-0.5 <=? Streamer.uniform64 (-0.5) 0.5 r)%float = true
  /\ (Streamer.uniform64 (-0.5) 0.5 r <=? 0.5)%float = true.
Proof.
  intros H0 H1. unfold Streamer.uniform64.
  change (0.5 - -0.5)%float with 1%float.
  destruct (between_units 0 r 1 eq_refl eq_refl H0 H1) as [Nr Br].
  assert (E0 : units 0%float = 0) by reflexivity.
  assert (E1 : units 1%float = 2 ^ 2148) by (vm_compute; reflexivity).
  assert (Eh : units (-0.5)%float + units 1%float <= units 0.5%float)
    by (vm_compute; discriminate).
  assert (En : units (-0.5)%float <= 0) by (vm_compute; discriminate).
  assert (Hp : 0 < 2 ^ 2148) by (apply Z.pow_pos_nonneg; lia).
  set (T := 2 ^ 2148) in *.
  pose proof (mul_not_below_zero 1 r eq_refl Nr ltac:(lia) ltac:(lia)) as Pp.
  destruct (mul_between (-0.5) 1 1 r eq_refl eq_refl eq_refl Nr) as [Np Bp].
  { fold T. rewrite E1. split.
    - apply Z.le_trans with 0;
        [apply Z.mul_nonpos_nonneg | apply Z.mul_nonneg_nonneg]; lia.
    - apply Z.mul_le_mono_nonneg_l; lia. }
  destruct (add_between (-0.5) 0.5 (-0.5) (1 * r) eq_refl eq_refl eq_refl Np
              ltac:(lia)) as [Nu Bu].
  rewrite (leb_units (-0.5) _ eq_refl Nu), (leb_units _ 0.5 Nu eq_refl).
  split; apply Z.leb_le; lia.
Qed.

(** ** C8: the values of a continuous stream *)

Section EegValues.

Variable config : Streamer.eeg_config.
Variable w : Streamer.world.

Let channels := Z.to_nat (Streamer.n_channels config).

(** The samples a run pushes are built, in order, at the counts and the
    draws the thread has reached: from a state that has made [d] draws and
    next builds at count [n], the [j]-th is built at count [n + j] from
    the draws [d + j * channels] onwards. *)
Lemma eeg_pushed_in_order (fuel : nat) (st : Streamer.eeg_state) :
  let pushed :=
    pushed_samples (fst (Streamer.run (Streamer.eeg_step config w) fuel st)) in
  pushed
  = map (fun j => Streamer.eeg_sample config w
                    (Streamer.eeg_draws st + j * channels)
                    (next_count st + Z.of_nat j))
        (seq 0 (length pushed)).
Proof.
  revert st. induction fuel as [|fuel IH]; intros st; cbn [Streamer.run];
    [reflexivity |].
  destruct (Streamer.eeg_step config w st) as [[act st'] |] eqn:Hstep;
    [| reflexivity].
  specialize (IH st'). cbv zeta in IH.
  destruct (Streamer.run (Streamer.eeg_step config w) fuel st') as [tr st''].
  cbn [fst] in *. cbv zeta.
  set (rest := pushed_samples tr) in *.
  assert (Hsame : forall d n,
            Streamer.eeg_draws st' = d -> next_count st' = n ->
            rest = map (fun j => Streamer.eeg_sample config w (d + j * channels)
                                   (n + Z.of_nat j))
                       (seq 0 (length rest)))
    by (intros d n <- <-; exact IH).
  unfold Streamer.eeg_step in Hstep.
  destruct (Streamer.eeg_at st) eqn:Hat; try discriminate Hstep.
  - injection Hstep as <- <-. change (pushed_samples (_ :: tr)) with rest.
    apply Hsame; [reflexivity |]. unfold next_count. rewrite Hat.
    cbn [Streamer.eeg_at Streamer.sample_count].
    now destruct (Streamer.is_set w (Streamer.eeg_checks st)).
  - destruct (_ && _).
    + injection Hstep as <- <-. change (pushed_samples (_ :: tr)) with rest.
      apply Hsame; [reflexivity |]. unfold next_count. rewrite Hat. reflexivity.
    + injection Hstep as <- <-.
      change (pushed_samples (Streamer.PushSample ?s :: tr)) with (s :: rest).
      cbn [length seq map]. f_equal.
      * f_equal; [| rewrite Z.add_0_r; unfold next_count; now rewrite Hat]. lia.
      * rewrite <- seq_shift, map_map.
        rewrite (Hsame _ _ eq_refl eq_refl) at 1.
        apply map_ext. intros j. unfold next_count. rewrite Hat.
        cbn [Streamer.eeg_at Streamer.sample_count Streamer.eeg_draws].
        fold channels. f_equal; lia.
  - injection Hstep as <- <-. change (pushed_samples (_ :: tr)) with rest.
    apply Hsame; [reflexivity |]. unfold next_count. rewrite Hat. reflexivity.
  - destruct (_ =? 0)%Z; [| destruct (_ <? 0)%Z];
      injection Hstep as <- <-; change (pushed_samples (_ :: tr)) with rest;
      (apply Hsame; [reflexivity |]); unfold next_count; rewrite Hat;
      reflexivity.
  - injection Hstep as <- <-. change (pushed_samples (_ :: tr)) with rest.
    apply Hsame; [reflexivity |]. unfold next_count. rewrite Hat. reflexivity.
Qed.

Lemma nth_error_map_seq {A} (f : nat -> A) (a n j : nat) (x : A) :
  nth_error (map f (seq a n)) j = Some x -> x = f (a + j)%nat.
Proof.
  revert a j. induction n as [|n IH]; intros a [|j]; cbn; try discriminate.
  - intros [= <-]. f_equal. lia.
  - intros H. rewrite (IH _ _ H). f_equal. lia.
Qed.

(** From the start of the thread, the [j]-th sample pushed is the one built
    at [sample_count = j], its channels drawn at [j * channels] onwards. *)
Lemma eeg_nth_pushed (fuel j : nat) (sample : list Q) :
  nth_error
    (pushed_samples
       (fst (Streamer.run (Streamer.eeg_step config w) fuel Streamer.eeg_start)))
    j = Some sample ->
  sample = Streamer.eeg_sample config w (j * channels) (Z.of_nat j).
Proof.
  rewrite (eeg_pushed_in_order fuel Streamer.eeg_start).
  intros H. apply nth_error_map_seq in H. exact H.
Qed.

Lemma eeg_sample_nth (draws : nat) (sample_count : Z) (c : nat) :
  (c < Z.to_nat (Streamer.n_channels config))%nat ->
  nth c (Streamer.eeg_sample config w draws sample_count) 0%Q
  = Streamer.eeg_value config
      (Streamer.uniform (-(5 # 10)) (5 # 10)
         (Streamer.random w (draws + c)))
      sample_count.
Proof.
  intros Hc. unfold Streamer.eeg_sample.
  set (f := fun c0 => Streamer.eeg_value config _ sample_count).
  rewrite (nth_indep _ 0%Q (f 0%nat)) by (now rewrite length_map, length_seq).
  rewrite map_nth, seq_nth by exact Hc. reflexivity.
Qed.

Lemma uniform_half (r : Q) :
  (0 <= r <= 1)%Q ->
  (-(1 # 2) <= Streamer.uniform (-(5 # 10)) (5 # 10) r <= 1 # 2)%Q.
Proof. unfold Streamer.uniform. intros [H0 H1]. split; lra. Qed.

Lemma eeg_value_bounds (u : Q) (sample_count : Z) :
  (0 < Streamer.srate config)%Z ->
  (0 < Streamer.amplitude config)%Z ->
  (-(1 # 2) <= u <= 1 # 2)%Q ->
  (-(1 # 2) * inject_Z (Streamer.amplitude config)
   <= Streamer.eeg_value config u sample_count
   /\ Streamer.eeg_value config u sample_count
      < (9 # 10) * inject_Z (Streamer.amplitude config))%Q.
Proof.
  intros Hr HA Hu. unfold Streamer.eeg_value.
  assert (Hm := Z.mod_pos_bound sample_count (Streamer.srate config * 2)
                  ltac:(lia)).
  set (m := (sample_count mod (Streamer.srate config * 2))%Z) in *.
  set (A := Streamer.amplitude config) in *.
  set (r := Streamer.srate config) in *.
  assert (HA' : (0 < inject_Z A)%Q) by (rewrite <- (Zlt_Qlt 0); exact HA).
  assert (Hr' : (0 < inject_Z r)%Q) by (rewrite <- (Zlt_Qlt 0); exact Hr).
  assert (Hm0 : (0 <= inject_Z m)%Q) by (rewrite <- (Zle_Qle 0); lia).
  assert (Hm1 : (inject_Z m < 2 * inject_Z r)%Q).
  { change 2%Q with (inject_Z 2). rewrite <- inject_Z_mult, <- Zlt_Qlt. lia. }
  set (x := ((2 # 10) * inject_Z m / inject_Z r)%Q).
  assert (Hx0 : (0 <= x)%Q).
  { unfold x. apply Qle_shift_div_l; [exact Hr' | lra]. }
  assert (Hx1 : (x < 4 # 10)%Q).
  { unfold x. apply Qlt_shift_div_r; [exact Hr' | lra]. }
  split; nra.
Qed.

End EegValues.

Lemma catalog_positive (config : Streamer.eeg_config) :
  In config Streamer.eeg_stream_configs ->
  (0 < Streamer.srate config)%Z /\ (0 < Streamer.amplitude config)%Z.
Proof.
  intros Hin. cbn in Hin.
  destruct Hin as [<- | [<- | [<- | [<- | []]]]]; split; reflexivity.
Qed.

(** C8, as amended. Take a continuous stream of the catalog and the [j]-th
    sample its thread pushes (from 0), which is built when [sample_count]
    is [j].  The sample has one value for each channel.  The value of
    channel [c] is
    [amplitude * (u + 0.2 * (sample_count mod (2 * srate)) / srate)] for a
    draw [u] of [[-0.5, 0.5]], the thread's draw number
    [j * n_channels + c], which no other channel of any sample uses; the
    value lies from [-0.5 * amplitude] up to, but not at,
    [0.9 * amplitude].  So it is in binary64: for every double [r] of
    [[0, 1]] that [random.random()] may answer, the draw
    [random.uniform(-0.5, 0.5)] makes of it lies within [[-0.5, 0.5]], and
    the value l.44 computes from it, at whatever count, lies from
    [-0.5 * amplitude] up to, but not at, [0.9 * amplitude]. *)
Theorem eeg_values_formula_and_bounds
    (config : Streamer.eeg_config) (w : Streamer.world) (fuel j : nat)
    (sample : list Q) :
  In config Streamer.eeg_stream_configs ->
  unit_draws w ->
  nth_error
    (pushed_samples
       (fst (Streamer.run (Streamer.eeg_step config w) fuel
               Streamer.eeg_start)))
    j = Some sample ->
  let channels := Z.to_nat (Streamer.n_channels config) in
  let amplitude := Streamer.amplitude config in
  let srate := Streamer.srate config in
  let sample_count := Z.of_nat j in
  length sample = channels
  /\ (forall c, (c < channels)%nat ->
        let u := Streamer.uniform (-(5 # 10)) (5 # 10)
                   (Streamer.random w (j * channels + c)) in
        let v := nth c sample 0%Q in
        (-(1 # 2) <= u <= 1 # 2)%Q
        /\ v = (inject_Z amplitude
                * (u + (2 # 10) * inject_Z (sample_count mod (srate * 2))
                       / inject_Z srate))%Q
        /\ (-(1 # 2) * inject_Z amplitude <= v)%Q
        /\ (v < (9 # 10) * inject_Z amplitude)%Q
        /\ (forall j' c', (c' < channels)%nat ->
              (j' * channels + c' = j * channels + c)%nat ->
              j' = j /\ c' = c))
  /\ (forall (r : float) (k : Z),
        (0 <=? r)%float = true -> (r <=? 1)%float = true ->
        let u := Streamer.uniform64 (-0.5) 0.5 r in
        let v := Streamer.eeg_value64 config u k in
        (-0.5 <=? u)%float = true /\ (u <=? 0.5)%float = true
        /\ (-0.5 * float_of_Z amplitude <=? v)%float = true
        /\ (v <? 0.9 * float_of_Z amplitude)%float = true).
Proof.
  intros Hin Hw Hnth. cbv zeta.
  apply eeg_nth_pushed in Hnth. subst sample.
  destruct (catalog_positive config Hin) as [Hr HA].
  split; [| split].
  - unfold Streamer.eeg_sample. now rewrite length_map, length_seq.
  - intros c Hc. rewrite eeg_sample_nth by exact Hc.
    set (u := Streamer.uniform _ _ _).
    pose proof (uniform_half _ (Hw (j * Z.to_nat (Streamer.n_channels config)
                                    + c)%nat)) as Hu.
    fold u in Hu.
    split; [exact Hu |]. split; [reflexivity |].
    destruct (eeg_value_bounds config u (Z.of_nat j) Hr HA Hu) as [Hlo Hhi].
    split; [exact Hlo |]. split; [exact Hhi |].
    intros j' c' Hc' Heq.
    assert (j' = j) by nia. subst j'. split; [reflexivity | lia].
  - intros r k Hr0 Hr1.
    destruct (uniform64_half r Hr0 Hr1) as [Hu1 Hu2].
    split; [exact Hu1 |]. split; [exact Hu2 |].
    exact (eeg_value64_bounds config _ k Hin Hu1 Hu2).
Qed.

Lemma eeg_values_formula_and_bounds_witness :
  let v := nth 3 (Streamer.eeg_sample eeg_10Hz stopped_at_third_look 8 1) 0%Q in
  let v64 :=
    Streamer.eeg_value64 eeg_10Hz (Streamer.uniform64 (-0.5) 0.5 0.9375) 1 in
  (v == 183 # 4)%Q
  /\ v = (inject_Z 100
          * (Streamer.uniform (-(5 # 10)) (5 # 10) (15 # 16)
             + (2 # 10) * inject_Z (1 mod (10 * 2)) / inject_Z 10))%Q
  /\ (-(1 # 2) * inject_Z 100 <= v)%Q
  /\ (v < (9 # 10) * inject_Z 100)%Q
  /\ (-0.5 * float_of_Z 100 <=? v64)%float = true
  /\ (v64 <? 0.9 * float_of_Z 100)%float = true.
Proof.
  destruct (eeg_values_formula_and_bounds eeg_10Hz stopped_at_third_look
              20 1 (Streamer.eeg_sample eeg_10Hz stopped_at_third_look 8 1))
    as [_ [H H64]].
  - simpl. right. left. reflexivity.
  - intros k. simpl. split; discriminate.
  - reflexivity.
  - destruct (H 3%nat) as [_ [Hv [Hlo [Hhi _]]]].
    + simpl. lia.
    + destruct (H64 0.9375%float 1 eq_refl eq_refl) as [_ [_ [Hlo64 Hhi64]]].
      split; [reflexivity |]. split; [exact Hv |].
      split; [exact Hlo |]. split; [exact Hhi |].
      split; [exact Hlo64 | exact Hhi64].
Defined.

(** C8, as stated, fails: at the twentieth sample of the 10 Hz stream, with
    a draw of 0.4375, the value is 81.75, above 0.7 * 100 = 70. *)
Lemma magnitude_exceeds_07 :
  (Streamer.eeg_value eeg_10Hz
     (Streamer.uniform (-(5 # 10)) (5 # 10) (15 # 16)) 19 == 327 # 4)%Q
  /\ ((7 # 10) * inject_Z (Streamer.amplitude eeg_10Hz) == 70)%Q
  /\ ~ magnitude_within_07.
Proof.
  split; [reflexivity |]. split; [reflexivity |].
  intros H.
  specialize (H eeg_10Hz (15 # 16)%Q 19%Z).
  apply (Qle_not_lt _ _ (H ltac:(simpl; tauto) ltac:(split; discriminate)
                           ltac:(lia))).
  reflexivity.
Qed.

(** ** C6: the loop of a continuous stream *)

Section EegLoop.

Variable config : Streamer.eeg_config.
Variable w : Streamer.world.
Hypothesis srate_positive : (0 < Streamer.srate config)%Z.

Let step := Streamer.eeg_step config w.
Let channels := Z.to_nat (Streamer.n_channels config).

Lemma eeg_one_turn (st : Streamer.eeg_state) :
  Streamer.eeg_at st = Streamer.EegWhile ->
  Streamer.is_set w (Streamer.eeg_checks st) = false ->
  Streamer.run step 4 st
  = (eeg_turn config w (Streamer.eeg_draws st) (Streamer.sample_count st),
     eeg_later config st 1)
  /\ snd (Streamer.run step 3 st)
     = {| Streamer.eeg_at := Streamer.EegSleep;
          Streamer.sample_count := Streamer.sample_count st + 1;
          Streamer.eeg_checks := S (Streamer.eeg_checks st);
          Streamer.eeg_draws := Streamer.eeg_draws st + channels |}.
Proof.
  intros Hat Hclear. destruct st as [pc n k d]. cbn in Hat, Hclear. subst pc.
  assert (H2 : (Streamer.srate config * 2 =? 0)%Z = false)
    by (apply Z.eqb_neq; lia).
  assert (H1 : (Streamer.srate config =? 0)%Z = false)
    by (apply Z.eqb_neq; lia).
  assert (H0 : (Streamer.srate config <? 0)%Z = false)
    by (apply Z.ltb_ge; lia).
  unfold step, eeg_later, eeg_turn.
  cbn [Streamer.run Streamer.eeg_step Streamer.eeg_at Streamer.eeg_checks
       Streamer.sample_count Streamer.eeg_draws Streamer.eeg_goto].
  rewrite Hclear.
  cbn [Streamer.run Streamer.eeg_step Streamer.eeg_at Streamer.eeg_checks
       Streamer.sample_count Streamer.eeg_draws Streamer.eeg_goto].
  rewrite H2.
  cbn [Streamer.run Streamer.eeg_step Streamer.eeg_at Streamer.eeg_checks
       Streamer.sample_count Streamer.eeg_draws Streamer.eeg_goto andb].
  rewrite H1, H0.
  cbn [Streamer.run Streamer.eeg_step Streamer.eeg_at Streamer.eeg_checks
       Streamer.sample_count Streamer.eeg_draws Streamer.eeg_goto snd].
  split; [| reflexivity].
  f_equal. unfold Streamer.eeg_goto. cbn. f_equal; lia.
Qed.

Lemma eeg_stop (st : Streamer.eeg_state) (fuel : nat) :
  Streamer.eeg_at st = Streamer.EegWhile ->
  Streamer.is_set w (Streamer.eeg_checks st) = true ->
  Streamer.run step (2 + fuel) st
  = ([Streamer.IsSet true; Streamer.PrintStopped],
     {| Streamer.eeg_at := Streamer.EegReturned;
        Streamer.sample_count := Streamer.sample_count st;
        Streamer.eeg_checks := S (Streamer.eeg_checks st);
        Streamer.eeg_draws := Streamer.eeg_draws st |}).
Proof.
  intros Hat Hset. destruct st as [pc n k d]. cbn in Hat, Hset. subst pc.
  rewrite run_app. unfold step.
  cbn [Streamer.run Streamer.eeg_step Streamer.eeg_at Streamer.eeg_checks
       Streamer.sample_count Streamer.eeg_draws Streamer.eeg_goto].
  rewrite Hset.
  cbn [Streamer.run Streamer.eeg_step Streamer.eeg_at Streamer.eeg_checks
       Streamer.sample_count Streamer.eeg_draws Streamer.eeg_goto].
  now rewrite run_over.
Qed.

Lemma eeg_many_turns (n : nat) (st : Streamer.eeg_state) :
  Streamer.eeg_at st = Streamer.EegWhile ->
  (forall j, (j < n)%nat ->
     Streamer.is_set w (Streamer.eeg_checks st + j) = false) ->
  Streamer.run step (4 * n) st
  = (flat_map (fun j => eeg_turn config w
                          (Streamer.eeg_draws st + j * channels)
                          (Streamer.sample_count st + Z.of_nat j))
              (seq 0 n),
     eeg_later config st n).
Proof.
  intros Hat. induction n as [|n IH]; intros Hclear.
  - cbn. destruct st as [pc c k d]. cbn in Hat. subst pc.
    unfold eeg_later. cbn. do 2 f_equal; [lia | | ]; lia.
  - replace (4 * S n)%nat with (4 * n + 4)%nat by lia.
    rewrite run_app, IH by (intros j Hj; apply Hclear; lia).
    destruct (eeg_one_turn (eeg_later config st n) eq_refl
                (Hclear n (Nat.lt_succ_diag_r n))) as [-> _].
    rewrite seq_S, flat_map_app. cbn [flat_map Nat.add].
    rewrite app_nil_r. f_equal.
    unfold eeg_later. cbn. f_equal; lia.
Qed.

Lemma pushes_of_turns (f : nat -> nat) (g : nat -> Z) (a n : nat) :
  Streamer.pushes
    (flat_map (fun j => eeg_turn config w (f j) (g j)) (seq a n))
  = n.
Proof.
  unfold Streamer.pushes. revert a.
  induction n as [|n IH]; intros a; cbn [seq flat_map]; [reflexivity |].
  rewrite filter_app, length_app, IH. reflexivity.
Qed.

End EegLoop.

(** C6. In the loop of a continuous stream the stop flag is looked at
    before every turn.  Found clear, the turn pushes one sample, adds one
    to [sample_count], and then sleeps [1 / srate] seconds, the counter
    already raised when the sleep begins, and the thread is back at the
    head of the loop.  Found set, the thread prints that it stopped and
    returns, pushing nothing more however long it is run.  So a thread that
    finds the flag set at its look number [n] (counting from 0) has made
    [n] turns, pushed [n] samples, counted to [n], and is over. *)
Theorem eeg_loop_contract
    (config : Streamer.eeg_config) (w : Streamer.world) :
  (0 < Streamer.srate config)%Z ->
  let step := Streamer.eeg_step config w in
  (forall st,
     Streamer.eeg_at st = Streamer.EegWhile ->
     Streamer.is_set w (Streamer.eeg_checks st) = false ->
     Streamer.run step 4 st
     = ([Streamer.IsSet false;
         Streamer.PushSample
           (Streamer.eeg_sample config w (Streamer.eeg_draws st)
              (Streamer.sample_count st));
         Streamer.Count (Streamer.sample_count st + 1);
         Streamer.Sleep (1 / inject_Z (Streamer.srate config))%Q],
        eeg_later config st 1)
     /\ Streamer.eeg_at (snd (Streamer.run step 3 st)) = Streamer.EegSleep
     /\ Streamer.sample_count (snd (Streamer.run step 3 st))
        = (Streamer.sample_count st + 1)%Z)
  /\ (forall st fuel,
        Streamer.eeg_at st = Streamer.EegWhile ->
        Streamer.is_set w (Streamer.eeg_checks st) = true ->
        fst (Streamer.run step (2 + fuel) st)
        = [Streamer.IsSet true; Streamer.PrintStopped]
        /\ Streamer.eeg_at (snd (Streamer.run step (2 + fuel) st))
           = Streamer.EegReturned
        /\ Streamer.sample_count (snd (Streamer.run step (2 + fuel) st))
           = Streamer.sample_count st)
  /\ (forall n fuel,
        (forall j, (j < n)%nat -> Streamer.is_set w j = false) ->
        Streamer.is_set w n = true ->
        let over := Streamer.run step (4 * n + (2 + fuel)) Streamer.eeg_start in
        fst over
        = eeg_turns config w n ++ [Streamer.IsSet true; Streamer.PrintStopped]
        /\ Streamer.pushes (fst over) = n
        /\ Streamer.sample_count (snd over) = Z.of_nat n
        /\ Streamer.eeg_at (snd over) = Streamer.EegReturned).
Proof.
  intros Hsrate step. split; [| split].
  - intros st Hat Hclear.
    destruct (eeg_one_turn config w Hsrate st Hat Hclear) as [H4 H3].
    split; [exact H4 |]. subst step. rewrite H3. split; reflexivity.
  - intros st fuel Hat Hset. subst step.
    rewrite (eeg_stop config w st fuel Hat Hset). repeat split.
  - intros n fuel Hclear Hset over. subst over step.
    rewrite run_app.
    rewrite (eeg_many_turns config w Hsrate n Streamer.eeg_start eq_refl)
      by (intros j Hj; now apply Hclear).
    rewrite (eeg_stop config w (eeg_later config Streamer.eeg_start n) fuel
               eq_refl Hset).
    cbn [fst snd Streamer.sample_count Streamer.eeg_at Streamer.eeg_start
         Streamer.eeg_draws eeg_later Nat.add Z.add].
    repeat split.
    + unfold Streamer.pushes. rewrite filter_app, length_app.
      fold (Streamer.pushes
              (flat_map (fun j => eeg_turn config w
                           (j * Z.to_nat (Streamer.n_channels config))
                           (Z.of_nat j)) (seq 0 n))).
      rewrite pushes_of_turns. cbn. lia.
Qed.

Lemma eeg_loop_contract_witness :
  Streamer.pushes
    (fst (Streamer.run (Streamer.eeg_step eeg_10Hz stopped_at_third_look)
            (4 * 2 + (2 + 5)) Streamer.eeg_start)) = 2%nat.
Proof.
  refine (proj1 (proj2 (proj2 (proj2
            (eeg_loop_contract eeg_10Hz stopped_at_third_look _)) 2%nat 5%nat
            _ _))).
  - reflexivity.
  - intros [|[|j]] Hj; [reflexivity | reflexivity | lia].
  - reflexivity.
Defined.

(** ** C7: the gaps of the event stream *)

Section MarkerLoop.

Variable config : Streamer.marker_config.
Variable w : Streamer.world.
Variables lo hi : Z.
Hypothesis interval : Streamer.marker_interval_ms config = [lo; hi].
Hypothesis interval_ordered : (lo <= hi)%Z.
Hypothesis draws_ok : unit_draws w.

Let step := Streamer.marker_step config w.

Lemma sleep_time_within (k : nat) (t : Q) :
  (t == 0)%Q ->
  within_interval lo hi
    (t + Streamer.uniform (inject_Z lo) (inject_Z hi) (Streamer.random w k)
         / 1000)%Q.
Proof.
  intros Ht. unfold within_interval, Streamer.uniform.
  destruct (draws_ok k) as [H0 H1].
  assert (Hlh : (inject_Z lo <= inject_Z hi)%Q) by (now rewrite <- Zle_Qle).
  set (r := Streamer.random w k) in *.
  assert (Hp : (0 <= (inject_Z hi - inject_Z lo) * r)%Q)
    by (apply Qmult_le_0_compat; lra).
  assert (Hq : ((inject_Z hi - inject_Z lo) * r
                <= (inject_Z hi - inject_Z lo) * 1)%Q)
    by nra.
  set (x := ((inject_Z hi - inject_Z lo) * r)%Q) in *.
  assert (He : ((t + (inject_Z lo + x) / 1000) * 1000
                == inject_Z lo + x)%Q) by (rewrite Ht; field).
  rewrite He. split; lra.
Qed.

(** Every sleep of a run lasts a time of the interval. *)
Lemma sleeps_within (fuel : nat) (st : Streamer.marker_state) (d : Q) :
  In d (Streamer.sleeps (fst (Streamer.run step fuel st))) ->
  within_interval lo hi d.
Proof.
  revert st. induction fuel as [|fuel IH]; intros st; cbn [Streamer.run].
  - intros [].
  - destruct (step st) as [[act st'] |] eqn:Hstep; [| intros []].
    specialize (IH st').
    destruct (Streamer.run step fuel st') as [tr st''].
    cbn [fst Streamer.sleeps flat_map] in *.
    intros Hin. apply in_app_or in Hin. destruct Hin as [Hin | Hin];
      [| now apply IH].
    unfold step, Streamer.marker_step in Hstep. rewrite interval in Hstep.
    cbn [nth_error] in Hstep.
    destruct (Streamer.marker_at st); try discriminate Hstep;
      try destruct (nth_error _ _); try destruct (Qle_bool _ _);
      injection Hstep as <- _; cbn in Hin; try contradiction.
    destruct Hin as [<- | []].
    pose proof (sleep_time_within (Streamer.marker_draws st) 0 (Qeq_refl 0))
      as H.
    unfold within_interval in *.
    now rewrite Qplus_0_l in H.
Qed.

(** The time slept since the last push, as it stands where the thread is:
    nothing yet right after a push, a time of the interval once the thread
    has slept. *)
Lemma gaps_within (fuel : nat) (st : Streamer.marker_state)
    (since : option Q) (g : Q) :
  (forall t, since = Some t ->
     match Streamer.marker_at st with
     | Streamer.MarkerPrint | Streamer.MarkerSleep => (t == 0)%Q
     | Streamer.MarkerRaised => True
     | _ => within_interval lo hi t
     end) ->
  In g (Streamer.gaps since (fst (Streamer.run step fuel st))) ->
  within_interval lo hi g.
Proof.
  revert st since. induction fuel as [|fuel IH]; intros st since Hinv;
    cbn [Streamer.run].
  - intros [].
  - destruct (step st) as [[act st'] |] eqn:Hstep; [| intros []].
    specialize (IH st').
    destruct (Streamer.run step fuel st') as [tr st''].
    cbn [fst] in *.
    unfold step, Streamer.marker_step in Hstep. rewrite interval in Hstep.
    cbn [nth_error] in Hstep.
    destruct (Streamer.marker_at st) eqn:Hat; try discriminate Hstep.
    + (* l.65 *)
      injection Hstep as <- <-; cbn [Streamer.gaps].
      apply IH. intros t Ht. specialize (Hinv t Ht).
      cbn [Streamer.marker_at].
      now destruct (Streamer.is_set w (Streamer.marker_checks st)).
    + (* l.66-67 *)
      destruct (nth_error _ _) as [m |];
        injection Hstep as <- <-; cbn [Streamer.gaps].
      * destruct since as [t |].
        -- intros [<- | Hin]; [now apply Hinv |].
           apply (IH (Some 0%Q)); [| exact Hin].
           intros t0 Ht0. injection Ht0 as <-. reflexivity.
        -- apply IH. intros t0 Ht0. injection Ht0 as <-. reflexivity.
      * apply IH. intros t Ht. exact I.
    + (* l.68 *)
      injection Hstep as <- <-; cbn [Streamer.gaps].
      apply IH. intros t Ht. now apply Hinv.
    + (* l.69-70 *)
      destruct (Qle_bool _ _); injection Hstep as <- <-; cbn [Streamer.gaps].
      * apply IH. intros t Ht. cbn [Streamer.marker_at].
        destruct since as [t0 |]; [| discriminate Ht].
        injection Ht as <-. apply sleep_time_within. now apply Hinv.
      * apply IH. intros t Ht. exact I.
    + (* l.71 *)
      injection Hstep as <- <-; cbn [Streamer.gaps].
      apply IH. intros t Ht. now apply Hinv.
Qed.

End MarkerLoop.

(** C7. On the event stream's own clock, which only its sleeps advance,
    every gap between two consecutive pushes lies within the configured
    [500, 2000] milliseconds, both ends allowed, however long the thread
    runs; and so does every time it asks [time.sleep] for, which is
    [random.uniform(500, 2000) / 1000] seconds. *)
Theorem marker_gaps_within_interval (w : Streamer.world) (fuel : nat) :
  unit_draws w ->
  let trace :=
    fst (Streamer.run (Streamer.marker_step Streamer.marker_stream_config w)
           fuel Streamer.marker_start) in
  Streamer.marker_interval_ms Streamer.marker_stream_config = [500; 2000]%Z
  /\ (forall g, In g (Streamer.gaps None trace) ->
        (500 <= g * 1000 /\ g * 1000 <= 2000)%Q)
  /\ (forall d, In d (Streamer.sleeps trace) ->
        (500 <= d * 1000 /\ d * 1000 <= 2000)%Q).
Proof.
  intros Hw trace. split; [reflexivity |]. split.
  - intros g Hg.
    apply (gaps_within Streamer.marker_stream_config w 500 2000 eq_refl
             ltac:(lia) Hw fuel Streamer.marker_start None g);
      [discriminate | exact Hg].
  - intros d Hd.
    exact (sleeps_within Streamer.marker_stream_config w 500 2000 eq_refl
             ltac:(lia) Hw fuel Streamer.marker_start d Hd).
Qed.

Lemma marker_gaps_within_interval_witness :
  (500 <= (0 + (500 + (2000 - 500) * (15 # 16)) / 1000) * 1000
   /\ (0 + (500 + (2000 - 500) * (15 # 16)) / 1000) * 1000 <= 2000)%Q.
Proof.
  refine (proj1 (proj2 (marker_gaps_within_interval stopped_at_third_look 20 _))
            _ _).
  - intros k. simpl. split; discriminate.
  - simpl. left. reflexivity.
Defined.

(** X8. Run with its own configuration, the event stream's thread meets
    no [IndexError] (the label it picks is one of the six, the interval has
    its two ends) and no [ValueError] (the time it sleeps is not negative),
    wherever it is started and however long it runs. *)
Lemma marker_loop_never_raises (w : Streamer.world) (fuel : nat)
    (st : Streamer.marker_state) (a : Streamer.action) :
  unit_draws w ->
  In a (fst (Streamer.run (Streamer.marker_step Streamer.marker_stream_config w)
               fuel st)) ->
  a <> Streamer.IndexError /\ a <> Streamer.ValueError
  /\ a <> Streamer.ZeroDivisionError.
Proof.
  intros Hw. revert st. induction fuel as [|fuel IH]; intros st;
    cbn [Streamer.run]; [intros [] |].
  destruct (Streamer.marker_step Streamer.marker_stream_config w st)
    as [[act st'] |] eqn:Hstep; [| intros []].
  specialize (IH st').
  destruct (Streamer.run _ fuel st') as [tr st''].
  cbn [fst] in *. intros [<- | Hin]; [| now apply IH].
  unfold Streamer.marker_step in Hstep.
  destruct (Streamer.marker_at st); try discriminate Hstep.
  - injection Hstep as <- _. repeat split; discriminate.
  - destruct (nth_error _ _) as [m |] eqn:Hm.
    + injection Hstep as <- _. repeat split; discriminate.
    + apply nth_error_None in Hm. cbn [Streamer.marker_types
        Streamer.marker_stream_config length] in Hm.
      pose proof (Nat.mod_upper_bound
                    (Streamer.choice w (Streamer.marker_draws st)) 6
                    ltac:(lia)).
      lia.
  - injection Hstep as <- _. repeat split; discriminate.
  - cbn [Streamer.marker_interval_ms Streamer.marker_stream_config nth_error]
      in Hstep.
    destruct (Qle_bool _ _) eqn:Hq.
    + injection Hstep as <- _. repeat split; discriminate.
    + exfalso. apply Bool.not_true_iff_false in Hq. apply Hq.
      apply Qle_bool_iff. unfold Streamer.uniform.
      destruct (Hw (Streamer.marker_draws st)) as [H0 H1].
      set (r := Streamer.random w (Streamer.marker_draws st)) in *.
      change (inject_Z 500) with 500%Q. change (inject_Z 2000) with 2000%Q.
      apply Qle_shift_div_l; [reflexivity | lra].
  - injection Hstep as <- _. repeat split; discriminate.
Qed.

(* ================================================================== *)
(** * More of streamer.py *)

(** ** Stopping (l.41, l.65, l.94) *)

(** X1. Wherever a continuous stream's thread is in its loop, once the stop
    flag stays set the thread is over within five statements: it pushes at
    most one more sample, raises its counter by at most one, and further
    running does nothing. *)
Theorem eeg_stops_promptly
    (config : Streamer.eeg_config) (w : Streamer.world)
    (st : Streamer.eeg_state) :
  stays_set w (Streamer.eeg_checks st) ->
  let step := Streamer.eeg_step config w in
  let over := Streamer.run step 5 st in
  step (snd over) = None
  /\ (Streamer.pushes (fst over) <= 1)%nat
  /\ (Streamer.sample_count st <= Streamer.sample_count (snd over)
      <= Streamer.sample_count st + 1)%Z
  /\ forall fuel, Streamer.run step (5 + fuel) st = over.
Proof.
  intros Hset step over.
  assert (Hover : step (snd over) = None
                  /\ (Streamer.pushes (fst over) <= 1)%nat
                  /\ (Streamer.sample_count st
                      <= Streamer.sample_count (snd over)
                      <= Streamer.sample_count st + 1)%Z).
  { subst over step. destruct st as [pc n k d]. cbn in Hset.
    pose proof (Hset k (le_n k)) as Hk.
    destruct pc;
      cbn [Streamer.run Streamer.eeg_step Streamer.eeg_at Streamer.eeg_goto
           Streamer.eeg_checks Streamer.sample_count Streamer.eeg_draws];
      rewrite ?Hk;
      repeat (match goal with
              | |- context [if ?c then _ else _] => destruct c
              end;
              cbn [Streamer.run Streamer.eeg_step Streamer.eeg_at
                   Streamer.eeg_goto Streamer.eeg_checks
                   Streamer.sample_count Streamer.eeg_draws];
              rewrite ?Hk);
      cbn; repeat split; lia. }
  split; [apply Hover |]. split; [apply Hover |]. split; [apply Hover |].
  intros fuel. rewrite run_app. fold over.
  destruct over as [tr st']. cbn [snd] in Hover.
  rewrite run_over by apply Hover. now rewrite app_nil_r.
Qed.

Lemma eeg_stops_promptly_witness :
  Streamer.eeg_step eeg_10Hz stopped_at_third_look
    (snd (Streamer.run (Streamer.eeg_step eeg_10Hz stopped_at_third_look) 5
            (eeg_later eeg_10Hz Streamer.eeg_start 2))) = None.
Proof.
  refine (proj1 (eeg_stops_promptly eeg_10Hz stopped_at_third_look
                   (eeg_later eeg_10Hz Streamer.eeg_start 2) _)).
  intros [|[|j]] Hj; cbn in Hj; [lia | lia | reflexivity].
Defined.

(** X2. The same for the event stream's thread: once the stop flag stays
    set it is over within five statements and pushes at most one more
    label. *)
Theorem marker_stops_promptly
    (config : Streamer.marker_config) (w : Streamer.world)
    (st : Streamer.marker_state) :
  stays_set w (Streamer.marker_checks st) ->
  let step := Streamer.marker_step config w in
  let over := Streamer.run step 5 st in
  step (snd over) = None
  /\ (Streamer.pushes (fst over) <= 1)%nat
  /\ forall fuel, Streamer.run step (5 + fuel) st = over.
Proof.
  intros Hset step over.
  assert (Hover : step (snd over) = None
                  /\ (Streamer.pushes (fst over) <= 1)%nat).
  { subst over step. destruct st as [pc m k d]. cbn in Hset.
    pose proof (Hset k (le_n k)) as Hk.
    destruct pc;
      cbn [Streamer.run Streamer.marker_step Streamer.marker_at
           Streamer.marker_goto Streamer.marker_checks Streamer.marker
           Streamer.marker_draws];
      rewrite ?Hk;
      repeat (match goal with
              | |- context [match nth_error ?l ?i with _ => _ end] =>
                  destruct (nth_error l i)
              | |- context [if ?c then _ else _] => destruct c
              end;
              cbn [Streamer.run Streamer.marker_step Streamer.marker_at
                   Streamer.marker_goto Streamer.marker_checks
                   Streamer.marker Streamer.marker_draws];
              rewrite ?Hk);
      cbn; repeat split; lia. }
  split; [apply Hover |]. split; [apply Hover |].
  intros fuel. rewrite run_app. fold over.
  destruct over as [tr st']. cbn [snd] in Hover.
  rewrite run_over by apply Hover. now rewrite app_nil_r.
Qed.

Lemma marker_stops_promptly_witness :
  (Streamer.pushes
     (fst (Streamer.run
             (Streamer.marker_step Streamer.marker_stream_config
                stopped_at_third_look) 5
             {| Streamer.marker_at := Streamer.MarkerPush;
                Streamer.marker := "Onset";
                Streamer.marker_checks := 2;
                Streamer.marker_draws := 1 |})) <= 1)%nat.
Proof.
  refine (proj1 (proj2 (marker_stops_promptly Streamer.marker_stream_config
                          stopped_at_third_look _ _))).
  intros [|[|j]] Hj; cbn in Hj; [lia | lia | reflexivity].
Defined.

(** ** A positive rate (l.44, l.49) *)

Section EegCadence.

Variable config : Streamer.eeg_config.
Variable w : Streamer.world.
Hypothesis srate_positive : (0 < Streamer.srate config)%Z.

Let step := Streamer.eeg_step config w.

Lemma eeg_tests :
  (Streamer.srate config * 2 =? 0)%Z = false
  /\ (Streamer.srate config =? 0)%Z = false
  /\ (Streamer.srate config <? 0)%Z = false.
Proof.
  repeat split; [apply Z.eqb_neq | apply Z.eqb_neq | apply Z.ltb_ge]; lia.
Qed.

Lemma eeg_no_raise (fuel : nat) (st : Streamer.eeg_state)
    (a : Streamer.action) :
  In a (fst (Streamer.run step fuel st)) -> raised a = false.
Proof.
  destruct eeg_tests as [H2 [H1 H0]].
  revert st. induction fuel as [|fuel IH]; intros st; cbn [Streamer.run];
    [intros [] |].
  destruct (step st) as [[act st'] |] eqn:Hstep; [| intros []].
  specialize (IH st').
  destruct (Streamer.run step fuel st') as [tr st''].
  cbn [fst] in *. intros [<- | Hin]; [| now apply IH].
  unfold step, Streamer.eeg_step in Hstep. rewrite H2, H1, H0 in Hstep.
  cbn [andb] in Hstep.
  destruct (Streamer.eeg_at st); try discriminate Hstep;
    injection Hstep as <- _; reflexivity.
Qed.

End EegCadence.

(** X4. With a positive rate the thread of a continuous stream meets no
    division by zero and no negative sleep: no run of it, from wherever in
    the loop and however long, holds a [ZeroDivisionError] or a
    [ValueError]. *)
Theorem eeg_loop_never_raises
    (config : Streamer.eeg_config) (w : Streamer.world)
    (fuel : nat) (st : Streamer.eeg_state) (a : Streamer.action) :
  (0 < Streamer.srate config)%Z ->
  In a (fst (Streamer.run (Streamer.eeg_step config w) fuel st)) ->
  raised a = false.
Proof. intros Hsrate. now apply eeg_no_raise. Qed.

Lemma eeg_loop_never_raises_witness :
  raised (Streamer.Count 1) = false.
Proof.
  refine (eeg_loop_never_raises eeg_10Hz never_stopped 8 Streamer.eeg_start
            (Streamer.Count 1) _ _).
  - reflexivity.
  - simpl. right. right. left. reflexivity.
Defined.

(** ** A rate of zero (l.44) *)

(** X5. With a zero rate (and a channel to fill) the thread of a continuous
    stream dies of the [ZeroDivisionError] of the [%] of l.44 in its first
    turn, before it has pushed any sample. *)
Theorem eeg_zero_rate_raises
    (config : Streamer.eeg_config) (w : Streamer.world) (fuel : nat) :
  Streamer.srate config = 0%Z ->
  (0 < Streamer.n_channels config)%Z ->
  Streamer.is_set w 0 = false ->
  let over :=
    Streamer.run (Streamer.eeg_step config w) (2 + fuel) Streamer.eeg_start in
  fst over = [Streamer.IsSet false; Streamer.ZeroDivisionError]
  /\ Streamer.pushes (fst over) = 0%nat
  /\ Streamer.eeg_at (snd over) = Streamer.EegRaised.
Proof.
  intros Hsrate Hn Hclear over. subst over.
  change (2 + fuel)%nat with (S (S fuel)).
  cbn [Streamer.run Streamer.eeg_step Streamer.eeg_at Streamer.eeg_start
       Streamer.eeg_checks Streamer.sample_count Streamer.eeg_draws].
  rewrite Hclear.
  cbn [Streamer.run Streamer.eeg_step Streamer.eeg_at
       Streamer.eeg_goto Streamer.eeg_checks Streamer.sample_count
       Streamer.eeg_draws].
  rewrite Hsrate.
  replace (0 <? Streamer.n_channels config)%Z with true
    by (symmetry; now apply Z.ltb_lt).
  cbn [Z.mul Z.eqb andb].
  rewrite run_over by reflexivity. repeat split.
Qed.

Lemma eeg_zero_rate_raises_witness :
  fst (Streamer.run (Streamer.eeg_step eeg_0Hz never_stopped) (2 + 7)
         Streamer.eeg_start)
  = [Streamer.IsSet false; Streamer.ZeroDivisionError].
Proof.
  refine (proj1 (eeg_zero_rate_raises eeg_0Hz never_stopped 7 _ _ _));
    reflexivity.
Defined.

(** ** The sawtooth (l.44) *)

(** X6. The part of a channel's value that is not noise is a sawtooth of
    period [2 * srate] samples: shifting [sample_count] by whole periods
    leaves the value as it is, and where [sample_count] is a multiple of
    the period the value is the noise alone, [amplitude * u]. *)
Theorem eeg_value_periodic
    (config : Streamer.eeg_config) (u : Q) (sample_count k : Z) :
  Streamer.srate config <> 0%Z ->
  Streamer.eeg_value config u (sample_count + k * (Streamer.srate config * 2))
  = Streamer.eeg_value config u sample_count
  /\ (Streamer.eeg_value config u (k * (Streamer.srate config * 2))
      == inject_Z (Streamer.amplitude config) * u)%Q.
Proof.
  intros Hsrate. unfold Streamer.eeg_value. split.
  - now rewrite Z_mod_plus_full.
  - rewrite Z_mod_mult. unfold Qdiv. change (inject_Z 0) with 0%Q. ring.
Qed.

Lemma eeg_value_periodic_witness :
  Streamer.eeg_value eeg_10Hz (1 # 4) (7 + 3 * (10 * 2))
  = Streamer.eeg_value eeg_10Hz (1 # 4) 7.
Proof.
  refine (proj1 (eeg_value_periodic eeg_10Hz (1 # 4) 7 3 _)). discriminate.
Defined.

(** ** The labels of the event stream (l.66-68) *)

Section MarkerLabels.

Variable config : Streamer.marker_config.
Variable w : Streamer.world.

Let step := Streamer.marker_step config w.

Lemma pushed_in_vocabulary (fuel : nat) (st : Streamer.marker_state)
    (m : string) :
  In m (pushed_markers (fst (Streamer.run step fuel st))) ->
  In m (Streamer.marker_types config).
Proof.
  revert st. induction fuel as [|fuel IH]; intros st; cbn [Streamer.run];
    [intros [] |].
  destruct (step st) as [[act st'] |] eqn:Hstep; [| intros []].
  specialize (IH st').
  destruct (Streamer.run step fuel st') as [tr st''].
  cbn [fst pushed_markers flat_map] in *.
  intros Hin. apply in_app_or in Hin. destruct Hin as [Hin | Hin];
    [| now apply IH].
  unfold step, Streamer.marker_step in Hstep.
  destruct (Streamer.marker_at st); try discriminate Hstep.
  - injection Hstep as <- _. destruct Hin.
  - destruct (nth_error _ _) as [m0 |] eqn:Hm;
      injection Hstep as <- _; [| destruct Hin].
    destruct Hin as [<- | []]. exact (nth_error_In _ _ Hm).
  - injection Hstep as <- _. destruct Hin.
  - destruct (nth_error _ 0) as [lo |]; [destruct (nth_error _ 1) as [hi |] |];
      [destruct (Qle_bool _ _) | |]; injection Hstep as <- _; destruct Hin.
  - injection Hstep as <- _. destruct Hin.
Qed.

(** A label pushed and not yet printed. *)
Let pending (st : Streamer.marker_state) : list string :=
  match Streamer.marker_at st with
  | Streamer.MarkerPrint => [Streamer.marker st]
  | _ => []
  end.

Lemma printed_follow_pushed (fuel : nat) (st : Streamer.marker_state) :
  exists rest,
    pending st ++ pushed_markers (fst (Streamer.run step fuel st))
    = printed_markers (fst (Streamer.run step fuel st)) ++ rest
    /\ (length rest <= 1)%nat.
Proof.
  revert st. induction fuel as [|fuel IH]; intros st; cbn [Streamer.run].
  - exists (pending st). cbn. rewrite app_nil_r. split; [reflexivity |].
    unfold pending. destruct (Streamer.marker_at st); cbn; lia.
  - destruct (step st) as [[act st'] |] eqn:Hstep.
    + destruct (IH st') as [rest [Heq Hlen]].
      destruct (Streamer.run step fuel st') as [tr st''].
      cbn [fst pushed_markers printed_markers flat_map] in *.
      exists rest. split; [| exact Hlen].
      unfold step, Streamer.marker_step in Hstep. unfold pending in *.
      destruct (Streamer.marker_at st); try discriminate Hstep.
      * injection Hstep as <- <-. cbn [Streamer.marker_at] in Heq.
        destruct (Streamer.is_set w _); exact Heq.
      * destruct (nth_error _ _) as [m0 |]; injection Hstep as <- <-;
          exact Heq.
      * injection Hstep as <- <-. cbn in Heq |- *. now rewrite Heq.
      * destruct (nth_error _ 0) as [lo |];
          [destruct (nth_error _ 1) as [hi |] |];
          [destruct (Qle_bool _ _) | |]; injection Hstep as <- <-;
          exact Heq.
      * injection Hstep as <- <-. exact Heq.
    + exists []. cbn. rewrite app_nil_r. split; [| lia].
      unfold step, Streamer.marker_step, pending in *.
      destruct (Streamer.marker_at st); try discriminate Hstep;
        reflexivity.
Qed.

End MarkerLabels.

(** X7. Every label the event stream's thread pushes is one of
    [marker_types], whatever [random.choice] draws; and the labels it
    prints as sent are the labels it pushed, in the same order, the last
    push alone possibly not printed yet. *)
Theorem marker_labels_from_vocabulary
    (config : Streamer.marker_config) (w : Streamer.world) (fuel : nat) :
  let trace :=
    fst (Streamer.run (Streamer.marker_step config w) fuel
           Streamer.marker_start) in
  (forall m, In m (pushed_markers trace) ->
     In m (Streamer.marker_types config))
  /\ exists rest,
       pushed_markers trace = printed_markers trace ++ rest
       /\ (length rest <= 1)%nat.
Proof.
  intros trace. split.
  - intros m Hm.
    exact (pushed_in_vocabulary config w fuel Streamer.marker_start m Hm).
  - exact (printed_follow_pushed config w fuel Streamer.marker_start).
Qed.

Lemma marker_loop_never_raises_witness :
  Streamer.IsSet false <> Streamer.IndexError
  /\ Streamer.IsSet false <> Streamer.ValueError
  /\ Streamer.IsSet false <> Streamer.ZeroDivisionError.
Proof.
  refine (marker_loop_never_raises never_stopped 6 Streamer.marker_start
            (Streamer.IsSet false) _ _).
  - intros k. simpl. split; discriminate.
  - simpl. left. reflexivity.
Defined.

(** ** The source id of an outlet (l.35, l.60) *)

Lemma lower_char_not_upper (c : ascii) : upper_case (Outlet.lower_char c) = false.
Proof. destruct c as [[] [] [] [] [] [] [] []]; reflexivity. Qed.

Lemma lower_char_idempotent (c : ascii) :
  Outlet.lower_char (Outlet.lower_char c) = Outlet.lower_char c.
Proof. destruct c as [[] [] [] [] [] [] [] []]; reflexivity. Qed.

Lemma lower_char_space (c : ascii) :
  Ascii.eqb (Outlet.lower_char c) " " = Ascii.eqb c " ".
Proof. destruct c as [[] [] [] [] [] [] [] []]; reflexivity. Qed.

Lemma chars_app (s1 s2 : string) : chars (s1 ++ s2) = chars s1 ++ chars s2.
Proof. induction s1 as [|c s1 IH]; cbn; [reflexivity | now rewrite IH]. Qed.

Lemma lower_app (s1 s2 : string) :
  Outlet.lower (s1 ++ s2) = (Outlet.lower s1 ++ Outlet.lower s2)%string.
Proof. induction s1 as [|c s1 IH]; cbn; [reflexivity | now rewrite IH]. Qed.

Lemma remove_spaces_app (s1 s2 : string) :
  Outlet.remove_spaces (s1 ++ s2)
  = (Outlet.remove_spaces s1 ++ Outlet.remove_spaces s2)%string.
Proof.
  induction s1 as [|c s1 IH]; cbn; [reflexivity |].
  destruct (Ascii.eqb c " "); cbn; now rewrite IH.
Qed.

Lemma lower_idempotent (s : string) :
  Outlet.lower (Outlet.lower s) = Outlet.lower s.
Proof.
  induction s as [|c s IH]; cbn; [reflexivity |].
  now rewrite lower_char_idempotent, IH.
Qed.

Lemma lower_remove_spaces (s : string) :
  Outlet.lower (Outlet.remove_spaces s) = Outlet.remove_spaces (Outlet.lower s).
Proof.
  induction s as [|c s IH]; cbn; [reflexivity |].
  rewrite lower_char_space. destruct (Ascii.eqb c " "); cbn; now rewrite IH.
Qed.

Lemma remove_spaces_idempotent (s : string) :
  Outlet.remove_spaces (Outlet.remove_spaces s) = Outlet.remove_spaces s.
Proof.
  induction s as [|c s IH]; cbn; [reflexivity |].
  destruct (Ascii.eqb c " ") eqn:Hc; cbn; [exact IH |].
  now rewrite Hc, IH.
Qed.

Lemma normal_chars (s : string) (c : ascii) :
  In c (chars (Outlet.remove_spaces (Outlet.lower s))) ->
  c <> " "%char /\ upper_case c = false.
Proof.
  induction s as [|c0 s IH]; cbn; [intros [] |].
  destruct (Ascii.eqb (Outlet.lower_char c0) " ") eqn:Hc; [exact IH |].
  cbn. intros [<- | Hin]; [| now apply IH].
  split; [| apply lower_char_not_upper].
  intros Heq. rewrite Heq in Hc. discriminate Hc.
Qed.

(** X9. For a name of ASCII, the source id handed to [StreamInfo] is the
    name in lower case without its spaces, followed by [_uid]: it holds no
    space and no upper-case letter, and it is no longer than the name plus
    the four characters of the suffix. *)
Theorem source_id_is_normal (name : string) :
  ascii_only name ->
  (forall c, In c (chars (Outlet.source_id name)) ->
     c <> " "%char /\ upper_case c = false)
  /\ (exists body, Outlet.source_id name = (body ++ "_uid")%string
                   /\ (String.length body <= String.length name)%nat).
Proof.
  intros _. unfold Outlet.source_id. split.
  - intros c Hc. rewrite chars_app in Hc. apply in_app_or in Hc.
    destruct Hc as [Hc | Hc]; [now apply (normal_chars name) |].
    cbn in Hc.
    destruct Hc as [<- | [<- | [<- | [<- | []]]]];
      (split; [discriminate | reflexivity]).
  - exists (Outlet.remove_spaces (Outlet.lower name)).
    split; [reflexivity |].
    induction name as [|c s IH]; cbn; [lia |].
    destruct (Ascii.eqb (Outlet.lower_char c) " "); cbn; lia.
Qed.

Lemma source_id_is_normal_witness :
  exists body, Outlet.source_id "EEG Stream" = (body ++ "_uid")%string
               /\ (String.length body <= 10)%nat.
Proof.
  refine (proj2 (source_id_is_normal "EEG Stream" _)).
  intros c Hc. cbn in Hc.
  repeat (destruct Hc as [<- | Hc]; [cbn; lia |]). destruct Hc.
Defined.

(** X10. The source id does not tell apart names of ASCII that differ only
    in the case of their letters or in their spaces: a name, its lower-case
    form and the name without spaces get one id, and so do two names that
    differ by a space between two parts. *)
Theorem source_id_ignores_case_and_spaces (a b : string) :
  ascii_only a -> ascii_only b ->
  Outlet.source_id (Outlet.lower a) = Outlet.source_id a
  /\ Outlet.source_id (Outlet.remove_spaces a) = Outlet.source_id a
  /\ Outlet.source_id (a ++ " " ++ b) = Outlet.source_id (a ++ b).
Proof.
  intros _ _. unfold Outlet.source_id. repeat split.
  - now rewrite lower_idempotent.
  - now rewrite lower_remove_spaces, remove_spaces_idempotent.
  - now rewrite !lower_app, !remove_spaces_app.
Qed.

Lemma source_id_ignores_case_and_spaces_witness :
  Outlet.source_id ("EEG" ++ " " ++ "1Hz") = Outlet.source_id ("EEG" ++ "1Hz").
Proof.
  refine (proj2 (proj2 (source_id_ignores_case_and_spaces "EEG" "1Hz" _ _)));
    intros c Hc; cbn in Hc;
    repeat (destruct Hc as [<- | Hc]; [cbn; lia |]); destruct Hc.
Defined.

(* ================================================================== *)
(** * More of tester.py *)

(** ** What becomes of one stream (l.82-101) *)

Lemma check_expected_cases (st : Tester.found) (s : Tester.stream) :
  fst (Tester.check_expected st s)
  = [if existsb (fun entry => matches entry s) catalog then
       if String.eqb (Tester.info_name s) (fst Tester.expected_marker_stream)
       then Tester.VerifiedMarker
       else Tester.VerifiedEEG (Tester.info_name s)
     else if named_in_catalog (Tester.info_name s)
          then Tester.Mismatch (Tester.info_name s)
          else Tester.Info (Tester.info_name s)]
  /\ (existsb (fun entry => matches entry s) catalog = false ->
      mark st s = st).
Proof.
  unfold mark, Tester.check_expected, named_in_catalog, matches, catalog.
  cbn [Tester.expected_eeg_streams Tester.lookup existsb app fst snd
       Tester.expected_marker_stream].
  destruct (String.eqb_spec (Tester.info_name s) "EEG_Stream_1Hz") as [-> |];
    [cbn; destruct (Tester.properties_match s _); cbn; now split |].
  destruct (String.eqb_spec (Tester.info_name s) "EEG_Stream_10Hz") as [-> |];
    [cbn; destruct (Tester.properties_match s _); cbn; now split |].
  destruct (String.eqb_spec (Tester.info_name s) "EEG_Stream_250Hz") as [-> |];
    [cbn; destruct (Tester.properties_match s _); cbn; now split |].
  destruct (String.eqb_spec (Tester.info_name s) "EEG_Stream_500Hz") as [-> |];
    [cbn; destruct (Tester.properties_match s _); cbn; now split |].
  destruct (String.eqb_spec (Tester.info_name s) "Test_Markers") as [-> |];
    [cbn; destruct (Tester.properties_match s _); cbn; now split |].
  cbn. now split.
Qed.

Lemma matched_is_named (s : Tester.stream) :
  existsb (fun entry => matches entry s) catalog = true ->
  named_in_catalog (Tester.info_name s) = true.
Proof.
  unfold named_in_catalog. rewrite !existsb_exists.
  intros [entry [Hin Hm]]. exists entry. split; [exact Hin |].
  unfold matches in Hm. now apply andb_true_iff in Hm.
Qed.

Lemma none_matches (s : Tester.stream) :
  existsb (fun entry => matches entry s) catalog = false
  <-> forall entry, In entry catalog -> matches entry s = false.
Proof.
  split.
  - intros H entry Hin. destruct (matches entry s) eqn:Hm; [| reflexivity].
    assert (existsb (fun entry => matches entry s) catalog = true)
      by (apply existsb_exists; now exists entry).
    congruence.
  - intros H. destruct (existsb _ catalog) eqn:He; [| reflexivity].
    apply existsb_exists in He. destruct He as [entry [Hin Hm]].
    rewrite (H entry Hin) in Hm. discriminate Hm.
Qed.

(** X11. Each recorded stream gets exactly one outcome line, and the three
    kinds are told apart by the catalog: a verified line if and only if the
    stream matches some entry; the mismatch line if and only if it bears an
    entry's name and matches none; the line for a stream that is not
    expected if and only if its name is in no entry.  Only a verified
    stream changes the found flags. *)
Theorem outcome_of_a_stream (st : Tester.found) (s : Tester.stream) :
  exists l,
    fst (Tester.check_expected st s) = [l]
    /\ (verified_line l = true
        <-> exists entry, In entry catalog /\ matches entry s = true)
    /\ (l = Tester.Mismatch (Tester.info_name s)
        <-> named_in_catalog (Tester.info_name s) = true
            /\ forall entry, In entry catalog -> matches entry s = false)
    /\ (l = Tester.Info (Tester.info_name s)
        <-> named_in_catalog (Tester.info_name s) = false)
    /\ (verified_line l = false -> mark st s = st).
Proof.
  destruct (check_expected_cases st s) as [Hl Hmark].
  eexists. split; [exact Hl |].
  rewrite <- none_matches.
  pose proof (matched_is_named s) as Hnamed.
  assert (Hex : (exists entry, In entry catalog /\ matches entry s = true)
                <-> existsb (fun entry => matches entry s) catalog = true).
  { rewrite existsb_exists. reflexivity. }
  rewrite Hex.
  destruct (existsb (fun entry => matches entry s) catalog).
  - rewrite (Hnamed eq_refl).
    destruct (String.eqb _ _); cbn; repeat split;
      intros; try discriminate; try reflexivity; try tauto.
    all: try (destruct H; discriminate).
  - destruct (named_in_catalog (Tester.info_name s)); cbn; repeat split;
      intros; try discriminate; try reflexivity; auto.
    all: try (destruct H; discriminate).
Qed.

(** ** The blocks and the summary, line by line (l.39-125) *)

Section Blocks.
Import Tester.

Lemma print_samples_body (s : stream) :
  yields (print_samples s) body_line (fun _ => True).
Proof.
  unfold print_samples.
  eapply yields_bind; [now apply yields_print |]. intros _ _.
  eapply yields_bind.
  - destruct (String.eqb (info_type s) "Markers");
      apply yields_for_each; intros j _; now apply yields_print.
  - intros _ _. now apply yields_print.
Qed.

Lemma check_rate_body (s : stream) :
  yields (check_rate s) body_line (fun _ => True).
Proof.
  unfold check_rate. cbv zeta.
  destruct (0 <? info_nominal_srate s)%float eqn:Hrate;
    [destruct (1 <? length (time_stamps s))%nat |]; cbn [andb].
  - destruct (0 <? last (time_stamps s) 0 - hd 0 (time_stamps s))%float
      eqn:Hdur.
    + eapply yields_bind;
        [apply yields_fdiv; now apply positive_nonzero |].
      intros actual_srate _.
      eapply yields_bind; [now apply yields_print |]. intros _ _.
      eapply yields_bind;
        [apply yields_fdiv; now apply positive_nonzero |].
      intros deviation _.
      apply yields_when; intros _; now apply yields_print.
    + now apply yields_print.
  - destruct (_ && _); [now apply yields_print | now apply yields_ret].
  - destruct (_ && _); [now apply yields_print | now apply yields_ret].
Qed.

Lemma describe_stream_shape (i : nat) (s : stream) :
  exists body,
    describe_stream i s
    = (StreamHeader (i + 1) (info_name s) :: TypeLine (info_type s)
       :: ChannelsLine (info_channel_count s)
       :: RateLine (info_nominal_srate s)
       :: TotalLine (length (samples s)) :: body,
       inr tt)
    /\ forallb body_line body = true
    /\ (samples s = [] -> body = []).
Proof.
  assert (Hlen : length (time_series s) = length (samples s))
    by (unfold time_series; apply length_map).
  unfold describe_stream. rewrite Hlen.
  destruct (samples s) as [|p smp] eqn:Hs.
  - exists []. cbn. now repeat split.
  - assert (Hb : yields (print_samples s;;; check_rate s) body_line
                   (fun _ => True)).
    { eapply yields_bind; [apply print_samples_body |].
      intros _ _. apply check_rate_body. }
    destruct (yields_eq _ _ _ Hb) as [body [[] [Hbody [Hall _]]]].
    exists body. cbn [length Nat.ltb Nat.leb when]. rewrite Hbody.
    split; [reflexivity |]. split; [exact Hall | discriminate].
Qed.

Lemma filter_none {A} (P Q : A -> bool) (xs : list A) :
  (forall x, P x = true -> Q x = false) ->
  forallb P xs = true -> filter Q xs = [].
Proof.
  intros HPQ. induction xs as [|x xs IH]; cbn; [reflexivity |].
  intros H. apply andb_true_iff in H. destruct H as [Hx Hxs].
  now rewrite (HPQ x Hx), IH.
Qed.

Lemma for_streams_lines (streams : list stream) (k : nat) (st : found) :
  exists blocks,
    for_fold (combine (seq k (length streams)) streams) verify_stream st
    = (blocks, inr (fold_left mark streams st))
    /\ filter stream_header blocks
       = map (fun i_s => StreamHeader (fst i_s + 1) (info_name (snd i_s)))
           (combine (seq k (length streams)) streams)
    /\ filter outcome_line blocks
       = flat_map (fun s => fst (check_expected found_init s)) streams
    /\ filter summary_line blocks = [].
Proof.
  revert k st. induction streams as [|s streams IH]; intros k st;
    cbn [length seq combine for_fold fold_left map flat_map].
  - exists []. now repeat split.
  - destruct (describe_stream_shape k s) as [body [Hd [Hbody _]]].
    destruct (check_expected_eq st s) as [o [Ho Hc]].
    destruct (IH (S k) (mark st s)) as [blocks [Hloop [Hh [Ho' Hs]]]].
    unfold verify_stream at 1. rewrite Hd. unfold bind at 2. rewrite Hc.
    cbn [bind print ret app]. rewrite Hloop.
    eexists. split; [reflexivity |].
    rewrite (check_expected_out found_init st s), Hc. cbn [fst snd].
    cbn [filter stream_header outcome_line summary_line].
    rewrite !filter_app.
    rewrite (filter_none body_line stream_header body) by
      (try exact Hbody; intros x Hx; now destruct x).
    rewrite (filter_none body_line outcome_line body) by
      (try exact Hbody; intros x Hx; now destruct x).
    rewrite (filter_none body_line summary_line body) by
      (try exact Hbody; intros x Hx; now destruct x).
    rewrite Hh, Ho', Hs. cbn [app filter].
    destruct o; try discriminate Ho; cbn; repeat split.
Qed.

Lemma summary_of_lines (streams : list stream) :
  filter summary_line (summary_of streams) = summary_of streams.
Proof.
  unfold summary_of, eeg_summary, marker_summary, verdict.
  cbn [expected_eeg_streams map app].
  destruct (found_by streams _), (found_by streams _), (found_by streams _),
    (found_by streams _), (found_by streams _), (all_matched streams);
    reflexivity.
Qed.

(** The whole output of a run on a recording that loaded. *)
Lemma verify_run_eq (load_xdf : loader) (xdf_filepath : string)
    (streams : list stream) :
  load_xdf xdf_filepath = inr streams ->
  exists blocks,
    verify_xdf_recording load_xdf xdf_filepath
    = (Verifying xdf_filepath :: Loaded (length streams) xdf_filepath
       :: blocks ++ SummaryHeader :: summary_of streams ++ [Complete],
       inr tt)
    /\ filter stream_header blocks
       = map (fun i_s => StreamHeader (fst i_s + 1) (info_name (snd i_s)))
           (enumerate streams)
    /\ filter outcome_line blocks
       = flat_map (fun s => fst (check_expected found_init s)) streams
    /\ filter summary_line blocks = [].
Proof.
  intros Hload.
  destruct (for_streams_lines streams 0 found_init)
    as [blocks [Hloop Hrest]].
  exists blocks. split; [| exact Hrest].
  unfold verify_xdf_recording, verify_streams, enumerate.
  rewrite Hload, Hloop.
  destruct (flags_final streams) as [Heeg Hmarker].
  unfold summary. cbn [bind print ret app]. rewrite Heeg, Hmarker.
  unfold summary_of, all_matched, catalog, eeg_summary, marker_summary,
    verdict.
  cbn [expected_eeg_streams map app forallb fst].
  destruct (found_by streams _), (found_by streams _), (found_by streams _),
    (found_by streams _), (found_by streams _);
    cbn; rewrite <- ?app_assoc; reflexivity.
Qed.

End Blocks.

Lemma summary_of_all (streams : list Tester.stream) :
  forallb summary_line (summary_of streams) = true.
Proof.
  unfold summary_of, eeg_summary, marker_summary, verdict.
  cbn [Tester.expected_eeg_streams map app].
  destruct (found_by streams _), (found_by streams _), (found_by streams _),
    (found_by streams _), (found_by streams _), (all_matched streams);
    reflexivity.
Qed.

Lemma summary_filter (load_xdf : Tester.loader) (xdf_filepath : string)
    (streams : list Tester.stream) :
  load_xdf xdf_filepath = inr streams ->
  filter summary_line (fst (Tester.verify_xdf_recording load_xdf xdf_filepath))
  = summary_of streams.
Proof.
  intros Hload.
  destruct (verify_run_eq load_xdf xdf_filepath streams Hload)
    as [blocks [-> [_ [_ Hs]]]].
  cbn [fst filter summary_line]. rewrite filter_app, Hs.
  cbn [app filter summary_line]. rewrite filter_app, summary_of_lines.
  cbn [filter summary_line]. now rewrite app_nil_r.
Qed.

(** X12. The output of a run holds one block for each recorded stream, in
    the order of the recording: the block headers number the streams from 1
    and name them, and each stream has exactly one outcome line, the one
    [check_expected] gives it. *)
Theorem one_block_per_stream
    (load_xdf : Tester.loader) (xdf_filepath : string)
    (streams : list Tester.stream) :
  load_xdf xdf_filepath = inr streams ->
  let out := fst (Tester.verify_xdf_recording load_xdf xdf_filepath) in
  filter stream_header out
  = map (fun i_s => Tester.StreamHeader (fst i_s + 1)
                      (Tester.info_name (snd i_s)))
        (Tester.enumerate streams)
  /\ filter outcome_line out
     = flat_map (fun s => fst (Tester.check_expected Tester.found_init s))
         streams
  /\ length (filter outcome_line out) = length streams.
Proof.
  intros Hload out. subst out.
  destruct (verify_run_eq load_xdf xdf_filepath streams Hload)
    as [blocks [-> [Hh [Ho _]]]].
  cbn [fst filter stream_header outcome_line]. rewrite !filter_app, Hh, Ho.
  cbn [filter stream_header outcome_line]. rewrite !filter_app.
  rewrite (filter_none summary_line stream_header (summary_of streams))
    by (try apply summary_of_all; intros x Hx; now destruct x).
  rewrite (filter_none summary_line outcome_line (summary_of streams))
    by (try apply summary_of_all; intros x Hx; now destruct x).
  cbn [filter stream_header outcome_line]. rewrite !app_nil_r. repeat split.
  clear. induction streams as [|s streams IH]; cbn; [reflexivity |].
  destruct (check_expected_eq Tester.found_init s) as [o [_ ->]].
  cbn. now rewrite IH.
Qed.

Lemma one_block_per_stream_witness :
  length (filter outcome_line
            (fst (Tester.verify_xdf_recording
                    (fun _ => inr [wrong_type; stranger]) "a.xdf")))
  = 2%nat.
Proof.
  refine (proj2 (proj2 (one_block_per_stream
                          (fun _ => inr [wrong_type; stranger]) "a.xdf"
                          [wrong_type; stranger] _))).
  reflexivity.
Defined.

(** X13. After its header the summary is six lines whatever was recorded:
    one for each of the four EEG entries in the order of the table, saying
    found exactly when some recorded stream matches the entry, one for the
    marker entry likewise, and the verdict; no other line of the output is
    of these kinds. *)
Theorem summary_is_six_lines
    (load_xdf : Tester.loader) (xdf_filepath : string)
    (streams : list Tester.stream) :
  load_xdf xdf_filepath = inr streams ->
  let out := fst (Tester.verify_xdf_recording load_xdf xdf_filepath) in
  filter summary_line out
  = map (fun entry => eeg_summary (fst entry) (found_by streams entry))
        Tester.expected_eeg_streams
    ++ [marker_summary "Test_Markers"
          (found_by streams Tester.expected_marker_stream);
        verdict (all_matched streams)]
  /\ length (filter summary_line out) = 6%nat.
Proof.
  intros Hload out. subst out.
  rewrite (summary_filter load_xdf xdf_filepath streams Hload).
  split; reflexivity.
Qed.

Lemma summary_is_six_lines_witness :
  length (filter summary_line
            (fst (Tester.verify_xdf_recording
                    (fun _ => inr [wrong_type; stranger]) "a.xdf")))
  = 6%nat.
Proof.
  refine (proj2 (summary_is_six_lines
                   (fun _ => inr [wrong_type; stranger]) "a.xdf"
                   [wrong_type; stranger] _)).
  reflexivity.
Defined.

(** ** The verdict and the recording (l.82-125) *)

Lemma found_by_incl (streams streams' : list Tester.stream) entry :
  incl streams streams' ->
  found_by streams entry = true -> found_by streams' entry = true.
Proof.
  unfold found_by. rewrite !existsb_exists.
  intros Hincl [s [Hs Hm]]. exists s. split; [now apply Hincl | exact Hm].
Qed.

Lemma found_by_same (streams streams' : list Tester.stream) entry :
  (forall s, In s streams <-> In s streams') ->
  found_by streams entry = found_by streams' entry.
Proof.
  intros Hsame.
  destruct (found_by streams entry) eqn:H1, (found_by streams' entry) eqn:H2;
    try reflexivity.
  - rewrite (found_by_incl streams streams' entry) in H2;
      [discriminate | intros s; apply Hsame | exact H1].
  - rewrite (found_by_incl streams' streams entry) in H1;
      [discriminate | intros s; apply Hsame | exact H2].
Qed.

Lemma summary_of_same (streams streams' : list Tester.stream) :
  (forall entry, In entry catalog ->
     found_by streams entry = found_by streams' entry) ->
  summary_of streams = summary_of streams'.
Proof.
  intros H. unfold summary_of, all_matched.
  cbn [catalog Tester.expected_eeg_streams map app forallb].
  rewrite !(H _ (or_introl eq_refl)).
  rewrite !(H _ (or_intror (or_introl eq_refl))).
  rewrite !(H _ (or_intror (or_intror (or_introl eq_refl)))).
  rewrite !(H _ (or_intror (or_intror (or_intror (or_introl eq_refl))))).
  rewrite !(H _ (or_intror (or_intror (or_intror (or_intror
                   (or_introl eq_refl)))))).
  reflexivity.
Qed.

(** X14. The summary and the verdict depend only on which streams a
    recording holds, not on their order nor on how often one occurs: two
    recordings with the same streams get the same six summary lines. *)
Theorem summary_ignores_order_and_repeats
    (load_xdf load_xdf' : Tester.loader) (xdf_filepath xdf_filepath' : string)
    (streams streams' : list Tester.stream) :
  load_xdf xdf_filepath = inr streams ->
  load_xdf' xdf_filepath' = inr streams' ->
  (forall s, In s streams <-> In s streams') ->
  filter summary_line (fst (Tester.verify_xdf_recording load_xdf xdf_filepath))
  = filter summary_line
      (fst (Tester.verify_xdf_recording load_xdf' xdf_filepath')).
Proof.
  intros Hload Hload' Hsame.
  rewrite (summary_filter _ _ _ Hload), (summary_filter _ _ _ Hload').
  apply summary_of_same. intros entry _. now apply found_by_same.
Qed.

Lemma summary_ignores_order_and_repeats_witness :
  filter summary_line
    (fst (Tester.verify_xdf_recording
            (fun _ => inr [on_time; stranger]) "a.xdf"))
  = filter summary_line
      (fst (Tester.verify_xdf_recording
              (fun _ => inr [stranger; on_time; stranger]) "b.xdf")).
Proof.
  refine (summary_ignores_order_and_repeats
            (fun _ => inr [on_time; stranger])
            (fun _ => inr [stranger; on_time; stranger]) "a.xdf" "b.xdf"
            [on_time; stranger] [stranger; on_time; stranger] _ _ _).
  - reflexivity.
  - reflexivity.
  - intros s. simpl. tauto.
Defined.

(** X15. A stream that matched is never lost to later ones: when a
    recording holds all the streams of another, every entry the summary
    reports found for the smaller one it reports found for the larger one,
    and a verdict of success stays a success. *)
Theorem more_streams_lose_nothing
    (load_xdf load_xdf' : Tester.loader) (xdf_filepath xdf_filepath' : string)
    (streams streams' : list Tester.stream) (l : Tester.line) :
  load_xdf xdf_filepath = inr streams ->
  load_xdf' xdf_filepath' = inr streams' ->
  incl streams streams' ->
  (exists name, l = Tester.FoundEEG name \/ l = Tester.FoundMarker name)
  \/ l = Tester.AllFound ->
  In l (fst (Tester.verify_xdf_recording load_xdf xdf_filepath)) ->
  In l (fst (Tester.verify_xdf_recording load_xdf' xdf_filepath')).
Proof.
  intros Hload Hload' Hincl Hgood Hin.
  assert (Hsl : summary_line l = true)
    by (destruct Hgood as [[name [-> | ->]] | ->]; reflexivity).
  assert (Hs : In l (summary_of streams)).
  { rewrite <- (summary_filter _ _ _ Hload). apply filter_In. now split. }
  assert (Hs' : In l (summary_of streams')).
  { pose proof (fun entry => found_by_incl streams streams' entry Hincl)
      as Hmono.
    unfold summary_of in *. apply in_app_or in Hs. apply in_or_app.
    destruct Hs as [Hs | [Hs | [Hs | []]]].
    - left. apply in_map_iff in Hs. destruct Hs as [entry [Hl He]].
      apply in_map_iff. exists entry. split; [| exact He].
      destruct (found_by streams entry) eqn:Hf.
      + now rewrite (Hmono entry Hf).
      + subst l. cbn in Hsl.
        destruct Hgood as [[name [H | H]] | H]; discriminate H.
    - right. left.
      destruct (found_by streams Tester.expected_marker_stream) eqn:Hf.
      + now rewrite (Hmono _ Hf).
      + subst l. destruct Hgood as [[name [H | H]] | H]; discriminate H.
    - right. right. left.
      destruct (all_matched streams) eqn:Hall.
      + assert (Hall' : all_matched streams' = true).
        { unfold all_matched in *. rewrite forallb_forall in Hall |- *.
          intros entry He. apply Hmono. now apply Hall. }
        now rewrite Hall'.
      + subst l. destruct Hgood as [[name [H | H]] | H]; discriminate H. }
  rewrite <- (summary_filter _ _ _ Hload') in Hs'.
  now apply filter_In in Hs'.
Qed.

Lemma more_streams_lose_nothing_witness :
  In (Tester.FoundEEG "EEG_Stream_10Hz")
     (fst (Tester.verify_xdf_recording
             (fun _ => inr [on_time; frozen_clock; wrong_type]) "b.xdf")).
Proof.
  refine (more_streams_lose_nothing
            (fun _ => inr [on_time])
            (fun _ => inr [on_time; frozen_clock; wrong_type]) "a.xdf" "b.xdf"
            [on_time] [on_time; frozen_clock; wrong_type]
            (Tester.FoundEEG "EEG_Stream_10Hz") _ _ _ _ _).
  - reflexivity.
  - reflexivity.
  - intros s Hs. simpl in *. tauto.
  - left. exists "EEG_Stream_10Hz". now left.
  - vm_compute. tauto.
Defined.

Lemma stranger_matches_none (s : Tester.stream) entry :
  named_in_catalog (Tester.info_name s) = false ->
  In entry catalog -> matches entry s = false.
Proof.
  intros Hname Hin. unfold matches.
  destruct (String.eqb (Tester.info_name s) (fst entry)) eqn:He;
    [| reflexivity].
  assert (named_in_catalog (Tester.info_name s) = true)
    by (apply existsb_exists; now exists entry).
  congruence.
Qed.

(** X16. A recorded stream whose name is in no entry of the catalog gets
    the line that says it is not one of the expected streams, and the six
    summary lines are what they are for the recording without it. *)
Theorem unexpected_stream_is_ignored
    (load_xdf load_xdf' : Tester.loader) (xdf_filepath xdf_filepath' : string)
    (before after : list Tester.stream) (s : Tester.stream) :
  load_xdf xdf_filepath = inr (before ++ s :: after) ->
  load_xdf' xdf_filepath' = inr (before ++ after) ->
  named_in_catalog (Tester.info_name s) = false ->
  In (Tester.Info (Tester.info_name s))
     (fst (Tester.verify_xdf_recording load_xdf xdf_filepath))
  /\ filter summary_line
       (fst (Tester.verify_xdf_recording load_xdf xdf_filepath))
     = filter summary_line
         (fst (Tester.verify_xdf_recording load_xdf' xdf_filepath')).
Proof.
  intros Hload Hload' Hname. split.
  - assert (Hin : In (Tester.Info (Tester.info_name s))
                    (filter outcome_line
                       (fst (Tester.verify_xdf_recording load_xdf
                               xdf_filepath)))).
    { destruct (verify_run_eq load_xdf xdf_filepath _ Hload)
        as [blocks [-> [_ [Ho _]]]].
      cbn [fst filter outcome_line]. rewrite filter_app, Ho.
      apply in_or_app. left.
      apply in_flat_map. exists s. split; [apply in_elt |].
      rewrite (proj1 (check_expected_cases Tester.found_init s)).
      assert (Hnone : existsb (fun entry => matches entry s) catalog = false).
      { apply none_matches. intros entry He.
        now apply stranger_matches_none. }
      rewrite Hnone, Hname. now left. }
    now apply filter_In in Hin.
  - rewrite (summary_filter _ _ _ Hload), (summary_filter _ _ _ Hload').
    apply summary_of_same. intros entry Hentry. unfold found_by.
    rewrite !existsb_app. cbn [existsb].
    now rewrite (stranger_matches_none s entry Hname Hentry).
Qed.

Lemma unexpected_stream_is_ignored_witness :
  In (Tester.Info "Keyboard")
     (fst (Tester.verify_xdf_recording
             (fun _ => inr ([on_time] ++ stranger :: [])) "a.xdf")).
Proof.
  refine (proj1 (unexpected_stream_is_ignored
                   (fun _ => inr ([on_time] ++ stranger :: []))
                   (fun _ => inr ([on_time] ++ [])) "a.xdf" "b.xdf"
                   [on_time] [] stranger _ _ _)); reflexivity.
Defined.

(** ** Edges of the recording and of the rate check (l.54-78) *)

(** X17. A recording that loads and holds no stream verifies nothing: the
    output is the two opening lines, the summary header, a missing line for
    each of the five entries, the verdict of failure and the closing
    line. *)
Theorem empty_recording_misses_all
    (load_xdf : Tester.loader) (xdf_filepath : string) :
  load_xdf xdf_filepath = inr [] ->
  Tester.verify_xdf_recording load_xdf xdf_filepath
  = ([Tester.Verifying xdf_filepath; Tester.Loaded 0 xdf_filepath;
      Tester.SummaryHeader;
      Tester.MissingEEG "EEG_Stream_1Hz"; Tester.MissingEEG "EEG_Stream_10Hz";
      Tester.MissingEEG "EEG_Stream_250Hz";
      Tester.MissingEEG "EEG_Stream_500Hz";
      Tester.MissingMarker "Test_Markers";
      Tester.SomeMissing; Tester.Complete],
     inr tt).
Proof.
  intros Hload. unfold Tester.verify_xdf_recording. rewrite Hload.
  reflexivity.
Qed.

Lemma empty_recording_misses_all_witness :
  In Tester.SomeMissing
     (fst (Tester.verify_xdf_recording (fun _ => inr []) "empty.xdf")).
Proof.
  refine (eq_ind_r (fun r => In Tester.SomeMissing (fst r)) _
            (empty_recording_misses_all (fun _ => inr []) "empty.xdf"
               eq_refl)).
  simpl. tauto.
Defined.

Section RateEdges.
Import Tester.
Variable s : stream.

Lemma np_diff_length (a : list float) :
  length (np_diff a) = (length a - 1)%nat.
Proof.
  induction a as [|x [|y a] IH]; cbn [np_diff length]; try reflexivity.
  cbn [np_diff length] in IH. rewrite IH. lia.
Qed.

Lemma np_diff_nth (a : list float) (i : nat) :
  (S i < length a)%nat ->
  nth i (np_diff a) 0%float = (nth (S i) a 0 - nth i a 0)%float.
Proof.
  revert i. induction a as [|x [|y a] IH]; intros i Hi; cbn in Hi; try lia.
  destruct i as [|i]; [reflexivity |].
  cbn [np_diff nth]. apply IH. cbn. lia.
Qed.


Lemma stamps_length : length (time_stamps s) = length (samples s).
Proof. unfold time_stamps. apply length_map. Qed.

Lemma series_length : length (time_series s) = length (samples s).
Proof. unfold time_series. apply length_map. Qed.

Lemma zero_not_positive (x : float) :
  (x =? 0)%float = true -> (0 <? x)%float = false.
Proof.
  rewrite FloatAxioms.ltb_spec, FloatAxioms.eqb_spec, Prim2SF_zero.
  destruct (Prim2SF x) as [z|z| |z m e]; cbn; try discriminate;
    try reflexivity; destruct z; discriminate.
Qed.

Lemma check_rate_silent :
  (length (samples s) <= 1)%nat
  \/ ((0 <? info_nominal_srate s)%float = false
      /\ (info_nominal_srate s =? 0)%float = false) ->
  check_rate s = ([], inr tt).
Proof.
  unfold check_rate. cbv zeta. rewrite stamps_length, series_length.
  intros [Hlen | [Hpos Hzero]].
  - replace (1 <? length (samples s))%nat with false
      by (symmetry; apply Nat.ltb_ge; lia).
    now rewrite !andb_false_r.
  - now rewrite Hpos, Hzero.
Qed.

Lemma check_rate_zero_duration :
  (0 <? info_nominal_srate s)%float = true ->
  (2 <= length (samples s))%nat ->
  (0 <? last (time_stamps s) 0 - hd 0 (time_stamps s))%float = false ->
  check_rate s = ([ZeroDuration], inr tt).
Proof.
  intros Hrate Hlen Hdur. unfold check_rate. cbv zeta.
  rewrite stamps_length, Hrate, Hdur.
  replace (1 <? length (samples s))%nat with true
    by (symmetry; apply Nat.ltb_lt; lia).
  reflexivity.
Qed.

Lemma check_rate_markers :
  (info_nominal_srate s =? 0)%float = true ->
  (2 <= length (samples s))%nat ->
  check_rate s = ([MarkerStd (np_diff (time_stamps s))], inr tt).
Proof.
  intros Hzero Hlen. unfold check_rate. cbv zeta.
  rewrite series_length, (zero_not_positive _ Hzero), Hzero.
  replace (1 <? length (samples s))%nat with true
    by (symmetry; apply Nat.ltb_lt; lia).
  reflexivity.
Qed.

End RateEdges.

(** X18. The rate check prints nothing at all for a stream with fewer
    than two samples (the warning of l.75 about "only one sample" is out of
    its reach), and nothing for a stream whose nominal rate is neither
    positive nor zero, a negative rate or a NaN. *)
Theorem rate_check_says_nothing (s : Tester.stream) :
  (length (Tester.samples s) <= 1)%nat
  \/ ((0 <? Tester.info_nominal_srate s)%float = false
      /\ (Tester.info_nominal_srate s =? 0)%float = false) ->
  Tester.check_rate s = ([], inr tt).
Proof. apply check_rate_silent. Qed.

Lemma rate_check_says_nothing_witness :
  Tester.check_rate one_sample = ([], inr tt).
Proof.
  refine (rate_check_says_nothing one_sample _). left. simpl. lia.
Defined.

(** X19. For a stream with a positive nominal rate and two samples or
    more whose last time stamp is not after the first (a duration that is
    zero, negative or a NaN), the rate check prints the zero-duration
    warning alone: no actual rate is computed, and the stream's block holds
    no rate warning. *)
Theorem no_duration_no_rate (s : Tester.stream) :
  (0 <? Tester.info_nominal_srate s)%float = true ->
  (2 <= length (Tester.samples s))%nat ->
  (0 <? last (Tester.time_stamps s) 0 - hd 0 (Tester.time_stamps s))%float
  = false ->
  Tester.check_rate s = ([Tester.ZeroDuration], inr tt)
  /\ (forall st i l,
        In l (fst (Tester.verify_stream st (i, s))) -> rate_warning l = false).
Proof.
  intros Hrate Hlen Hdur.
  pose proof (check_rate_zero_duration s Hrate Hlen Hdur) as Heq.
  split; [exact Heq |].
  intros st i l Hin. destruct (rate_warning l) eqn:Hw; [| reflexivity].
  assert (Hlen' : (2 <= length (Tester.time_stamps s))%nat)
    by (now rewrite stamps_length).
  apply (rate_warning_in_block s st i l Hlen' Hw) in Hin.
  rewrite Heq in Hin. destruct Hin as [<- | []]. discriminate Hw.
Qed.

Lemma no_duration_no_rate_witness :
  Tester.check_rate frozen_clock = ([Tester.ZeroDuration], inr tt).
Proof.
  refine (proj1 (no_duration_no_rate frozen_clock _ _ _)).
  - reflexivity.
  - simpl. lia.
  - reflexivity.
Defined.

(** X20. For a stream with a nominal rate of zero and two samples or
    more, the rate check prints one line on the spread of the intervals,
    computed from the [count - 1] differences of consecutive time stamps,
    [stamps[i+1] - stamps[i]]. *)
Theorem marker_intervals (s : Tester.stream) :
  (Tester.info_nominal_srate s =? 0)%float = true ->
  (2 <= length (Tester.samples s))%nat ->
  let stamps := Tester.time_stamps s in
  exists intervals,
    Tester.check_rate s = ([Tester.MarkerStd intervals], inr tt)
    /\ length intervals = (length stamps - 1)%nat
    /\ forall i, (S i < length stamps)%nat ->
         nth i intervals 0%float = (nth (S i) stamps 0 - nth i stamps 0)%float.
Proof.
  intros Hzero Hlen stamps. exists (Tester.np_diff stamps).
  split; [now apply check_rate_markers |].
  split; [apply np_diff_length | apply np_diff_nth].
Qed.

Lemma marker_intervals_witness :
  exists intervals,
    Tester.check_rate three_markers = ([Tester.MarkerStd intervals], inr tt)
    /\ length intervals = 2%nat
    /\ forall i, (S i < 3)%nat ->
         nth i intervals 0%float
         = (nth (S i) [1; 1.5; 3] 0 - nth i [1; 1.5; 3] 0)%float.
Proof.
  refine (marker_intervals three_markers _ _).
  - reflexivity.
  - simpl. lia.
Defined.

(** X21. A recorded stream without samples gets the five lines of its
    header, with a total of 0, its outcome line and the separator: nothing
    about samples or rate is printed, and the stream is checked against the
    catalog all the same. *)
Theorem stream_without_samples (st : Tester.found) (i : nat)
    (s : Tester.stream) :
  Tester.samples s = [] ->
  Tester.verify_stream st (i, s)
  = ([Tester.StreamHeader (i + 1) (Tester.info_name s);
      Tester.TypeLine (Tester.info_type s);
      Tester.ChannelsLine (Tester.info_channel_count s);
      Tester.RateLine (Tester.info_nominal_srate s);
      Tester.TotalLine 0]
     ++ fst (Tester.check_expected st s) ++ [Tester.Separator],
     inr (mark st s)).
Proof.
  intros Hs. destruct (check_expected_eq st s) as [o [_ Hc]].
  unfold Tester.verify_stream, Tester.describe_stream, Tester.time_series.
  rewrite Hs, Hc. reflexivity.
Qed.

Lemma stream_without_samples_witness :
  Tester.verify_stream Tester.found_init (0%nat, stranger)
  = ([Tester.StreamHeader 1 "Keyboard"; Tester.TypeLine "Markers";
      Tester.ChannelsLine 1; Tester.RateLine 0; Tester.TotalLine 0;
      Tester.Info "Keyboard"; Tester.Separator],
     inr Tester.found_init).
Proof.
  exact (stream_without_samples Tester.found_init 0 stranger eq_refl).
Defined.

Lemma nan_equals_nothing (x y : float) :
  (x =? x)%float = false -> (x =? y)%float = false.
Proof.
  rewrite !FloatAxioms.eqb_spec. unfold SFeqb.
  destruct (Prim2SF x) as [z|z| |z m e]; cbn; try reflexivity.
  - discriminate.
  - destruct z; discriminate.
  - destruct z; rewrite Z.compare_refl, Pos.compare_cont_refl; discriminate.
Qed.

(** X22. A stream whose nominal rate is a NaN matches no entry, whatever
    its name, type and channel count: it gets no verified line and leaves
    the found flags as they were. *)
Theorem nan_rate_is_never_verified (st : Tester.found) (s : Tester.stream) :
  (Tester.info_nominal_srate s =? Tester.info_nominal_srate s)%float = false ->
  (forall entry, matches entry s = false)
  /\ (forall l, In l (fst (Tester.check_expected st s)) ->
        verified_line l = false)
  /\ mark st s = st.
Proof.
  intros Hnan.
  assert (Hno : forall entry, matches entry s = false).
  { intros entry. unfold matches, Tester.properties_match.
    rewrite (nan_equals_nothing _ _ Hnan). now rewrite !andb_false_r. }
  assert (Hex : existsb (fun entry => matches entry s) catalog = false).
  { apply none_matches. intros entry _. apply Hno. }
  destruct (check_expected_cases st s) as [Hl Hmark].
  split; [exact Hno |]. split; [| now apply Hmark].
  intros l Hin. rewrite Hl, Hex in Hin. destruct Hin as [<- | []].
  now destruct (named_in_catalog _).
Qed.

Lemma nan_rate_is_never_verified_witness :
  mark Tester.found_init nan_rate = Tester.found_init.
Proof.
  refine (proj2 (proj2 (nan_rate_is_never_verified Tester.found_init
                          nan_rate _))).
  reflexivity.
Defined.

Lemma for_each_print {A} (xs : list A) (f : A -> Tester.line) :
  Tester.for_each xs (fun x => Tester.print (f x)) = (map f xs, inr tt).
Proof.
  induction xs as [|x xs IH]; cbn [Tester.for_each map]; [reflexivity |].
  rewrite IH. reflexivity.
Qed.

(** X23. Of a stream with samples the first [min(5, count)] are shown, in
    order and numbered from 1, each with its time stamp, in the marker
    layout when the type is [Markers] and with the channel count in the
    numeric layout otherwise; the last sample follows. *)
Theorem at_most_five_samples_shown (s : Tester.stream) :
  Tester.samples s <> [] ->
  let series := Tester.time_series s in
  let stamps := Tester.time_stamps s in
  exists shown,
    fst (Tester.print_samples s)
    = Tester.FirstSamples :: shown
      ++ [Tester.LastSample (last series (Tester.Numeric [])) (last stamps 0%float)]
    /\ length shown = Nat.min 5 (length (Tester.samples s))
    /\ forall j, (j < length shown)%nat ->
         nth j shown Tester.FirstSamples
         = if String.eqb (Tester.info_type s) "Markers"
           then Tester.MarkerSample (j + 1) (nth j series (Tester.Numeric []))
                  (nth j stamps 0%float)
           else Tester.NumericSample (j + 1) (nth j series (Tester.Numeric []))
                  (Tester.info_channel_count s) (nth j stamps 0%float).
Proof.
  intros _ series stamps.
  assert (Hlen : length series = length (Tester.samples s))
    by (unfold series, Tester.time_series; apply length_map).
  unfold Tester.print_samples. cbv zeta. fold series stamps.
  destruct (String.eqb (Tester.info_type s) "Markers");
    rewrite for_each_print; cbn [Tester.bind Tester.print fst app];
    eexists; (split; [reflexivity |]);
    rewrite length_map, length_seq, Hlen; (split; [reflexivity |]);
    intros j Hj.
  - rewrite (nth_indep _ Tester.FirstSamples
               (Tester.MarkerSample (0 + 1) (nth 0 series (Tester.Labels []))
                  (nth 0 stamps 0%float)))
      by (now rewrite length_map, length_seq).
    rewrite (map_nth (fun j => Tester.MarkerSample (j + 1)
                                 (nth j series (Tester.Labels []))
                                 (nth j stamps 0%float))).
    rewrite seq_nth by exact Hj. cbn [Nat.add].
    f_equal. apply nth_indep. lia.
  - rewrite (nth_indep _ Tester.FirstSamples
               (Tester.NumericSample (0 + 1) (nth 0 series (Tester.Numeric []))
                  (Tester.info_channel_count s) (nth 0 stamps 0%float)))
      by (now rewrite length_map, length_seq).
    rewrite (map_nth (fun j => Tester.NumericSample (j + 1)
                                 (nth j series (Tester.Numeric []))
                                 (Tester.info_channel_count s)
                                 (nth j stamps 0%float))).
    rewrite seq_nth by exact Hj. reflexivity.
Qed.

Lemma at_most_five_samples_shown_witness :
  exists shown,
    fst (Tester.print_samples on_time)
    = Tester.FirstSamples :: shown
      ++ [Tester.LastSample (Tester.Numeric []) 0.2%float]
    /\ length shown = 3%nat.
Proof.
  destruct (at_most_five_samples_shown on_time) as [shown [H1 [H2 _]]];
    [discriminate |].
  exists shown. split; [exact H1 | exact H2].
Defined.
